(** * DataTable: a query layer over a tabular frame

    Shallow embedding of [src/DataTable/utils.py] and
    [src/DataTable/DataTable.py], and the properties of the query engine
    (validation, filtering, delete, edit, max, save) established on it.

    Layout:
    - [Py]      Python values, dictionaries with insertion order, exceptions,
                and the order in which a run walks its sets;
    - [Utils]   utils.py ([extract_match], [are_contained], [assertion]);
    - [Pandas]  the operations of the storage engine that DataTable.py calls;
    - [Table]   the DataTable class: object state, a state-and-exception
                monad, and the methods;
    - [Text], [Paths], [Rendering]  strings as Python handles them, the
                path and file helpers of utils.py, and [to_string] over the
                text that the storage engine renders;
    - the lemmas and theorems, for every order in which sets are walked;
    - the theorems at work on examples, under one such order. *)

From Stdlib Require Import ZArith String Ascii List Bool Lia.
From stdpp Require Import gmap strings list.

Local Open Scope string_scope.
Local Open Scope list_scope.

(* ===================================================================== *)
(** * Python values and dictionaries *)
(* ===================================================================== *)

Module Py.

(** A cell of the table: a number, a string, or the missing-value marker
    (numpy's nan).  Numbers are integers; floating point is not modelled:
    a number stands for its value, whichever numeric type of Python or of
    the engine carries it.  The engine keeps the numbers of a column that
    holds nan as floats; that leaves an integer up to 2^53 in size its
    value and rounds a larger one, which the model does not show. *)
Inductive value : Type :=
| VInt (z : Z)
| VStr (s : string)
| VNaN.

#[global] Instance value_eq_dec : EqDecision value.
Proof. solve_decision. Defined.

(** [a == b] on cells.  nan compares unequal to everything, itself
    included; a number never equals a string. *)
Definition py_eq (a b : value) : bool :=
  match a, b with
  | VInt x, VInt y => (x =? y)%Z
  | VStr s, VStr t => String.eqb s t
  | _, _ => false
  end.

(** [a != b] is the negation of [a == b] (so [nan != nan] holds). *)
Definition py_ne (a b : value) : bool := negb (py_eq a b).

(** The exceptions that the modelled code can raise. *)
Inductive exn : Type :=
| TypeError
| ValueError
| AssertionError
| KeyError
| AttributeError.

#[global] Instance exn_eq_dec : EqDecision exn.
Proof. solve_decision. Defined.

(** What a call does: return a value or raise. *)
Inductive outcome (A : Type) : Type :=
| Return (a : A)
| Raise (e : exn).
Arguments Return {A} a.
Arguments Raise {A} e.

#[global] Instance outcome_ret : MRet outcome := λ A a, Return a.
#[global] Instance outcome_bind : MBind outcome := λ A B f m,
  match m with
  | Return a => f a
  | Raise e => Raise e
  end.
#[global] Instance outcome_fmap : FMap outcome := λ A B f m,
  match m with
  | Return a => Return (f a)
  | Raise e => Raise e
  end.

(** A [dict] with string keys: an association list in insertion order.
    [dict_get] reads the first binding; [dict_set] overwrites in place or
    appends, as assignment to [d[k]] does. *)
Section Dict.
Context {V : Type}.

Fixpoint dict_get (k : string) (d : list (string * V)) : option V :=
  match d with
  | [] => None
  | (k', v) :: d' => if String.eqb k k' then Some v else dict_get k d'
  end.

Definition dict_contains (k : string) (d : list (string * V)) : bool :=
  match dict_get k d with Some _ => true | None => false end.

Fixpoint dict_set (k : string) (v : V) (d : list (string * V))
  : list (string * V) :=
  match d with
  | [] => [(k, v)]
  | (k', v') :: d' =>
      if String.eqb k k' then (k, v) :: d' else (k', v') :: dict_set k v d'
  end.

Definition dict_keys (d : list (string * V)) : list string := map fst d.
Definition dict_values (d : list (string * V)) : list V := map snd d.
End Dict.

(** The objects that a query holds under its top-level keys: a bare column
    name (a [str]), a set of column names, a [dict] from column names to
    cells, or an object that is none of these and can be neither walked nor
    subscripted ([None], a number).  Lists and tuples of names are not
    modelled. *)
Inductive qentry : Type :=
| QName (c : string)
| QNames (cs : gset string)
| QMap (m : list (string * value))
| QOther.

(** A query: a [dict] from top-level keys to such objects. *)
Definition pydict : Type := list (string * qentry).

(** The characters of a string, each as a one-character string: what
    iterating over a [str] yields (ASCII names). *)
Fixpoint chars (s : string) : list string :=
  match s with
  | EmptyString => []
  | String c s' => String c EmptyString :: chars s'
  end.

(** Python walks a set in the order of the hashes of its elements, and the
    hashes of strings change with the seed of the process.  [walk] is the
    order of the run at hand: every element once, in an order that the
    program cannot choose. *)
Class SetOrder : Type := {
  walk : gset string → list string;
  walk_elements : ∀ X, walk X ≡ₚ elements X
}.

(** One such order, that of the elements as the library lists them. *)
Definition elements_order : SetOrder :=
  {| walk := elements; walk_elements := λ X, Permutation_refl (elements X) |}.

End Py.
Export Py.

(* ===================================================================== *)
(** * utils.py *)
(* ===================================================================== *)

Module Utils.

(** [[element for element in list1 if element in list2]].  Every call site
    passes two sets; the comprehension walks the first one. *)
Definition extract_match `{SetOrder} (list1 list2 : gset string) : list string :=
  filter (λ element, element ∈ list2) (walk list1).

(** [ls1 = extract_match(set1, set2); ls2 = extract_match(set2, set1);
     return set(ls1) == set(ls2)] *)
Definition are_contained `{SetOrder} (set1 set2 : gset string) : bool :=
  let ls1 := extract_match set1 set2 in
  let ls2 := extract_match set2 set1 in
  bool_decide (list_to_set ls1 =@{gset string} list_to_set ls2).

(** [assertion(statement, text)]: raise AssertionError unless [statement]. *)
Definition assertion (statement : bool) : outcome unit :=
  if statement then Return tt else Raise AssertionError.

End Utils.
Export Utils.

(* ===================================================================== *)
(** * The storage engine (pandas), as DataTable.py uses it *)
(* ===================================================================== *)

(** pandas is an external collaborator of the repository.  This module
    gives the operations that DataTable.py calls on it: building a frame
    from a dict or from records, [df[keys]], comparison of a frame with a
    Series, [.all(axis=1)], selection by a boolean mask, assignment through
    [.loc[mask, column]], [to_dict], [Series.max] and [append].  A frame is
    kept row by row: every row carries its index label and one cell per
    column. *)
Module Pandas.

Record Frame (A : Type) : Type := mkFrame {
  fcolumns : list string;
  frows : list (nat * list A)
}.
Arguments mkFrame {A} fcolumns frows.
Arguments fcolumns {A} f.
Arguments frows {A} f.

Abbreviation DataFrame := (Frame value).

(** A Series: one named column with its index labels. *)
Record Series : Type := mkSeries {
  sname : string;
  svalues : list (nat * value)
}.

(** What [df[key]] hands back: a frame for a list-like key, a Series for a
    single label. *)
Inductive selection : Type :=
| SFrame (f : DataFrame)
| SSeries (s : Series).

(** [pd.DataFrame()] *)
Definition empty_frame : DataFrame := mkFrame [] [].

(** [pd.DataFrame(table)] for a dict from column names to equally long
    lists of cells; rows are labelled 0, 1, ...  Lists of different lengths
    are refused with ValueError.  Every cell is kept as it is given (see
    [value] for the numbers of a column that holds nan). *)
Definition from_dict (table : list (string * list value)) : outcome DataFrame :=
  match table with
  | [] => Return empty_frame
  | (_, c0) :: _ =>
      let n := length c0 in
      if forallb (λ kv, Nat.eqb (length kv.2) n) table
      then Return (mkFrame (dict_keys table)
                     (map (λ i, (i, omap (λ kv, kv.2 !! i) table)) (seq 0 n)))
      else Raise ValueError
  end.

(** The column names of a list of records, in order of first appearance. *)
Definition add_columns (cols new : list string) : list string :=
  fold_left (λ acc k, if bool_decide (k ∈ acc) then acc else acc ++ [k]) new cols.

(** [pd.DataFrame(records)] for a list of dicts from column names to cells;
    a column that a record lacks holds nan there. *)
Definition from_records (records : list (list (string * value))) : DataFrame :=
  let cols := fold_left (λ acc r, add_columns acc (dict_keys r)) records [] in
  mkFrame cols
    (imap (λ i r, (i, map (λ c, default VNaN (dict_get c r)) cols)) records).

(** Position of a column name. *)
Fixpoint col_pos (c : string) (cols : list string) : option nat :=
  match cols with
  | [] => None
  | c' :: cols' => if String.eqb c c' then Some 0%nat else S <$> col_pos c cols'
  end.

(** The cell of a row under a column.  Every row of a frame has a cell for
    every column; [at_column] reads nan where a row would lack one. *)
Definition cell {A} (cols : list string) (cells : list A) (c : string) : option A :=
  p ← col_pos c cols; cells !! p.

Definition at_column (cols : list string) (cells : list value) (c : string) : value :=
  default VNaN (cell cols cells c).

(** [df[keys]] for a list of labels: the frame restricted to these columns,
    in the order of [keys]; KeyError when a label is not a column. *)
Definition getitem_list (df : DataFrame) (keys : list string) : outcome DataFrame :=
  if forallb (λ k, bool_decide (k ∈ fcolumns df)) keys
  then Return (mkFrame keys
                 (map (λ r, (r.1, map (at_column (fcolumns df) r.2) keys)) (frows df)))
  else Raise KeyError.

(** [df[key]] for the objects a query can hold: a [str] selects one column
    as a Series, a set or a dict is walked as the list of its elements or
    of its keys, and any other object is looked up as one label, which no
    column carries. *)
Definition getitem `{SetOrder} (df : DataFrame) (key : qentry) : outcome selection :=
  match key with
  | QName c =>
      if bool_decide (c ∈ fcolumns df)
      then Return (SSeries (mkSeries c
                     (map (λ r, (r.1, at_column (fcolumns df) r.2 c)) (frows df))))
      else Raise KeyError
  | QNames cs => SFrame <$> getitem_list df (walk cs)
  | QMap m => SFrame <$> getitem_list df (dict_keys m)
  | QOther => Raise KeyError
  end.

(** [series.to_frame()] *)
Definition to_frame (s : Series) : DataFrame :=
  mkFrame [sname s] (map (λ iv, (iv.1, [iv.2])) (svalues s)).

(** [df OP pd.Series(series)] for a comparison [OP]: the Series is laid
    along the columns and every row is compared with it cell by cell.  The
    labels of the Series must be the columns of the frame. *)
Definition cmp_series (op : value → value → bool) (df : DataFrame)
    (series : list (string * value)) : outcome (Frame bool) :=
  if bool_decide (fcolumns df = dict_keys series)
  then Return (mkFrame (fcolumns df)
                 (map (λ r, (r.1, zip_with op r.2 (dict_values series))) (frows df)))
  else Raise ValueError.

(** [frame.all(axis=1)]: per row, whether every cell is true (true for a
    row without cells).  The result is a boolean Series over the rows of
    the frame, kept here in row order. *)
Definition all_axis1 (fr : Frame bool) : list bool :=
  map (λ r, forallb id r.2) (frows fr).

(** [df[mask]] and [df.loc[mask]] for such a boolean Series: the rows whose
    entry is true, with their labels. *)
Fixpoint select_rows {A} (rows : list (nat * list A)) (mask : list bool)
  : list (nat * list A) :=
  match rows, mask with
  | r :: rows', b :: mask' =>
      if b then r :: select_rows rows' mask' else select_rows rows' mask'
  | _, _ => []
  end.

Definition loc_mask {A} (df : Frame A) (mask : list bool) : Frame A :=
  mkFrame (fcolumns df) (select_rows (frows df) mask).

(** [df.loc[mask, kw] = v] for a scalar [v].  On an existing column the
    selected rows get [v].  A label that is no column enlarges the frame:
    a new last column holds [v] in the selected rows and nan in the others;
    a frame without rows refuses that with ValueError. *)
Definition loc_setitem (df : DataFrame) (mask : list bool) (kw : string)
    (v : value) : outcome DataFrame :=
  match col_pos kw (fcolumns df) with
  | Some p =>
      Return (mkFrame (fcolumns df)
                (zip_with (λ r (b : bool), if b then (r.1, <[p := v]> r.2) else r)
                   (frows df) mask))
  | None =>
      match frows df with
      | [] => Raise ValueError
      | _ =>
          Return (mkFrame (fcolumns df ++ [kw])
                    (zip_with (λ r (b : bool), (r.1, r.2 ++ [if b then v else VNaN]))
                       (frows df) mask))
      end
  end.

(** The cells of one column, top to bottom, and the same with labels. *)
Definition column_values (df : DataFrame) (c : string) : list value :=
  map (λ r, at_column (fcolumns df) r.2 c) (frows df).

Definition column_items (df : DataFrame) (c : string) : list (nat * value) :=
  map (λ r, (r.1, at_column (fcolumns df) r.2 c)) (frows df).

(** One row as a record. *)
Definition row_record (df : DataFrame) (r : nat * list value)
  : list (string * value) :=
  map (λ c, (c, at_column (fcolumns df) r.2 c)) (fcolumns df).

(** The shapes of [to_dict]. *)
Inductive orient : Type :=
| orient_dict
| orient_list
| orient_series
| orient_split
| orient_records
| orient_index.

Inductive table_dict : Type :=
| AsDict (d : list (string * list (nat * value)))
| AsList (d : list (string * list value))
| AsSeries (d : list (string * list (nat * value)))
| AsSplit (index : list nat) (columns : list string) (data : list (list value))
| AsRecords (l : list (list (string * value)))
| AsIndex (d : list (nat * list (string * value))).

(** [df.to_dict(orient)] *)
Definition to_dict (df : DataFrame) (o : orient) : table_dict :=
  match o with
  | orient_dict => AsDict (map (λ c, (c, column_items df c)) (fcolumns df))
  | orient_list => AsList (map (λ c, (c, column_values df c)) (fcolumns df))
  | orient_series => AsSeries (map (λ c, (c, column_items df c)) (fcolumns df))
  | orient_split => AsSplit (map fst (frows df)) (fcolumns df) (map snd (frows df))
  | orient_records => AsRecords (map (row_record df) (frows df))
  | orient_index => AsIndex (map (λ r, (r.1, row_record df r)) (frows df))
  end.

(** What a reduction hands back: a cell, or the object [numpy.nan] itself,
    which the test [value is not nan] of [max] recognises. *)
Inductive reduced : Type :=
| Got (v : value)
| NumpyNan.

Definition is_nan (v : value) : bool :=
  match v with VNaN => true | _ => false end.

Definition ints (l : list value) : list Z :=
  omap (λ v, match v with VInt z => Some z | _ => None end) l.

Definition strs (l : list value) : list string :=
  omap (λ v, match v with VStr s => Some s | _ => None end) l.

Definition str_max (a b : string) : string := if String.leb a b then b else a.

(** [series.max()], which skips nan.  A Series without entries reduces to
    [numpy.nan].  Numbers reduce to the largest one, strings to the last one
    in code-point order; strings next to numbers, or next to nan (which the
    reduction replaces by minus infinity), cannot be compared: TypeError.
    A Series that has entries, all of them nan, reduces to [numpy.nan] as
    the one without entries does. *)
Definition series_max (l : list value) : outcome reduced :=
  match l with
  | [] => Return NumpyNan
  | _ =>
      match ints l, strs l with
      | [], [] => Return NumpyNan
      | z :: zs, [] => Return (Got (VInt (fold_left Z.max zs z)))
      | [], s :: ss =>
          if existsb is_nan l then Raise TypeError
          else Return (Got (VStr (fold_left str_max ss s)))
      | _, _ => Raise TypeError
      end
  end.

(** [a.append(b, ignore_index=True)]: the rows of [a], then those of [b],
    relabelled 0, 1, ...; the columns of [a] followed by the new ones of
    [b]; nan where a row has no cell for a column.  Every cell is kept as
    it is (see [value] for the numbers of a column that gains nan). *)
Definition append_frames (a b : DataFrame) : DataFrame :=
  let cols := add_columns (fcolumns a) (fcolumns b) in
  let widen (df : DataFrame) :=
    map (λ r, map (at_column (fcolumns df) r.2) cols) (frows df) in
  mkFrame cols (imap (λ i cells, (i, cells)) (widen a ++ widen b)).

(** [df.replace(nan, '', regex=True)] *)
Definition replace_nan_by_empty (df : DataFrame) : DataFrame :=
  mkFrame (fcolumns df)
    (map (λ r, (r.1, map (λ v, if is_nan v then VStr "" else v) r.2)) (frows df)).

End Pandas.
Export Pandas.

(* ===================================================================== *)
(** * DataTable.py *)
(* ===================================================================== *)

Module Table.

(** The attributes of a DataTable object.  An attribute that has not been
    assigned yet is [None] here, and reading it raises AttributeError;
    [__path] holds Python's [None] or a path once assigned. *)
Record DataTable : Type := mkTable {
  _df : option DataFrame;
  __path : option (option string);
  __sep : option string;
  __keywords : option (gset string)
}.

(** A file: the text of a frame under a separator, or no text at all, as
    opening a file for writing leaves it. *)
Inductive file : Type :=
| Csv (sep : string) (df : DataFrame)
| Blank.

(** The state that a call acts on: the object, the dict objects of the
    caller (a query is passed by reference), and the files. *)
Record state : Type := mkState {
  self : DataTable;
  heap : list pydict;
  disk : gmap string file
}.

(** Computations that read and write the state and may raise; what was
    written before a raise stays written. *)
Definition M (A : Type) : Type := state → outcome A * state.

#[global] Instance M_ret : MRet M := λ A a s, (Return a, s).
#[global] Instance M_bind : MBind M := λ A B f m s,
  match m s with
  | (Return a, s') => f a s'
  | (Raise e, s') => (Raise e, s')
  end.

Definition raise {A} (e : exn) : M A := λ s, (Raise e, s).
Definition lift {A} (o : outcome A) : M A := λ s, (o, s).

(** [for x in l: body(x)] *)
Fixpoint for_each {A} (l : list A) (body : A → M unit) : M unit :=
  match l with
  | [] => mret tt
  | x :: l' => body x ;; for_each l' body
  end.

(** Reading and assigning attributes of [self]. *)
Definition attr {A} (field : DataTable → option A) : M A := λ s,
  (match field (self s) with
   | Some a => Return a
   | None => Raise AttributeError
   end, s).

Definition with_self (f : DataTable → DataTable) : M unit := λ s,
  (Return tt, mkState (f (self s)) (heap s) (disk s)).

Definition set_df (df : DataFrame) : M unit :=
  with_self (λ t, mkTable (Some df) (__path t) (__sep t) (__keywords t)).
Definition set_path (p : option string) : M unit :=
  with_self (λ t, mkTable (_df t) (Some p) (__sep t) (__keywords t)).
Definition set_sep (sep : string) : M unit :=
  with_self (λ t, mkTable (_df t) (__path t) (Some sep) (__keywords t)).
Definition set_keywords (kws : gset string) : M unit :=
  with_self (λ t, mkTable (_df t) (__path t) (__sep t) (Some kws)).

(** Dict objects.  A query argument is [None] or a reference; a reference
    under which the heap holds no dict stands for an object that is not a
    dict, and using it as one raises TypeError. *)
Definition new_dict : M nat := λ s,
  (Return (length (heap s)), mkState (self s) (heap s ++ [[]]) (disk s)).

Definition deref (r : nat) : M pydict := λ s,
  (match heap s !! r with
   | Some d => Return d
   | None => Raise TypeError
   end, s).

Definition arg_dict (query : option nat) : M pydict :=
  match query with
  | Some r => deref r
  | None => raise TypeError
  end.

(** [query[k] = v] on the dict object itself. *)
Definition setitem (r : nat) (k : string) (v : qentry) : M unit := λ s,
  match heap s !! r with
  | Some d => (Return tt, mkState (self s) (<[r := dict_set k v d]> (heap s)) (disk s))
  | None => (Raise TypeError, s)
  end.

(** [d[k]] *)
Definition subscript {V} (d : list (string * V)) (k : string) : M V :=
  lift (match dict_get k d with
        | Some v => Return v
        | None => Raise KeyError
        end).

(** [set(query)]: the keys of the dict. *)
Definition query_set (q : pydict) : gset string := list_to_set (dict_keys q).

(** [os.path.exists(p)] *)
Definition path_exists (p : string) : M bool := λ s,
  (Return (bool_decide (is_Some (disk s !! p))), s).

(** The separators that the writer of the [csv] module takes: the strings
    of one character (of one ASCII character here, as for the names). *)
Definition one_character (sep : string) : bool :=
  Nat.eqb (String.length sep) 1.

(** [df.to_csv(path_or_buf, sep=sep, index=False)]: with a path the text is
    written there and nothing is returned; with [None] the text is returned
    and nothing is written.  The engine opens the file and then builds the
    writer, which refuses with TypeError a separator that is not one
    character: the file is then left without text.  Failures of the file
    system are not modelled. *)
Definition to_csv (df : DataFrame) (path_or_buf : option string) (sep : string)
  : M (option file) :=
  match path_or_buf with
  | Some p => λ s,
      if one_character sep
      then (Return None, mkState (self s) (heap s) (<[p := Csv sep df]> (disk s)))
      else (Raise TypeError, mkState (self s) (heap s) (<[p := Blank]> (disk s)))
  | None =>
      if one_character sep then mret (Some (Csv sep df)) else raise TypeError
  end.

(** The argument of the constructor. *)
Inductive init_arg : Type :=
| FromPath (p : string)
| FromDict (table : list (string * list value))
| FromNothing.

(** The argument of [append], the object under [query['values']]: a dict
    from column names to lists of cells, or a list of records. *)
Inductive append_values : Type :=
| ColumnMajor (table : list (string * list value))
| RowMajor (records : list (list (string * value))).

(** [(df[state] OP pd.Series(state)).all(axis=1)], the expression that
    [delete] (with [!=]), [edit] and [__filter] (with [==]) evaluate.  The
    methods reach it with a dict only, see [validated_state_is_dict].  The
    frame is indexed first, which raises KeyError for a label that is not a
    column; then a set is refused by [pd.Series], and the comparison of a
    column with the Series of a [str] fails on the labels or on axis 1. *)
Definition state_mask (op : value → value → bool) (df : DataFrame)
    (state : qentry) : outcome (list bool) :=
  match state with
  | QMap m =>
      sub ← getitem_list df (dict_keys m);
      cmp ← cmp_series op sub m;
      mret (all_axis1 cmp)
  | QNames cs =>
      if forallb (λ c, bool_decide (c ∈ fcolumns df)) (elements cs)
      then Raise TypeError else Raise KeyError
  | QName c =>
      if bool_decide (c ∈ fcolumns df) then Raise ValueError else Raise KeyError
  | QOther => Raise KeyError
  end.

(** Iterating over an entry of a query: a dict yields its keys, a set its
    elements, a [str] its characters; another object is not iterable. *)
Definition iterate `{SetOrder} (entry : qentry) : outcome (list string) :=
  match entry with
  | QMap m => Return (dict_keys m)
  | QNames cs => Return (walk cs)
  | QName c => Return (chars c)
  | QOther => Raise TypeError
  end.

(** [entry[kw]] for a name [kw]: only a dict can be subscripted by it. *)
Definition item (entry : qentry) (kw : string) : outcome value :=
  match entry with
  | QMap m =>
      match dict_get kw m with
      | Some v => Return v
      | None => Raise KeyError
      end
  | _ => Raise TypeError
  end.

(** [set(columns)] for
    [columns = query[kw] if kw == 'columns' else list(query[kw].keys())];
    only a dict has [keys], and [set] walks its argument. *)
Definition named_columns `{SetOrder} (kw : string) (entry : qentry)
  : outcome (gset string) :=
  if String.eqb kw "columns"
  then list_to_set <$> iterate entry
  else match entry with
       | QMap m => Return (list_to_set (dict_keys m))
       | _ => Raise AttributeError
       end.

Section Methods.
(** [pd.read_csv(path, sep=sep)], the parser of the storage engine. *)
Context (read_csv : option string → string → gmap string file → outcome DataFrame).
(** The order in which the run walks its sets. *)
Context {order : SetOrder}.

(** [__load] (lines 41-44): read the file at [__path] with the separator
    [__sep]; with a [replace_nan], put the empty string for nan. *)
Definition __load (replace_nan : option value) : M unit :=
  path ← attr __path;
  sep ← attr __sep;
  df ← (λ s, (read_csv path sep (disk s), s));
  set_df df ;;
  match replace_nan with
  | Some _ => df ← attr _df; set_df (replace_nan_by_empty df)
  | None => mret tt
  end.

(** [__load_from_dict] (lines 46-51) *)
Definition __load_from_dict (table : list (string * list value)) : M unit :=
  df ← lift (from_dict table);
  set_df df.

(** [__init__] (lines 20-39).  For a path, [__load] runs before [__sep] is
    assigned; without argument, [__path] is not assigned. *)
Definition __init__ (path_or_dict : init_arg) (sep : string)
    (replace_nan : option value) : M unit :=
  match path_or_dict with
  | FromPath p =>
      there ← path_exists p;
      (if there : bool then mret tt else raise AssertionError) ;;
      set_path (Some p) ;;
      __load replace_nan
  | FromDict table =>
      __load_from_dict table ;;
      set_path None
  | FromNothing => set_df empty_frame
  end ;;
  set_sep sep ;;
  set_keywords {[ "columns"; "state"; "values" ]}.

(** [save] (lines 53-64): the path and the separator default to the
    attributes. *)
Definition save (path sep : option string) : M unit :=
  path ← match path with
         | None => attr __path
         | Some p => mret (Some p)
         end;
  sep ← match sep with
        | None => attr __sep
        | Some x => mret x
        end;
  df ← attr _df;
  to_csv df path sep ;;
  mret tt.

(** [__filter] (lines 204-205) *)
Definition __filter (state : qentry) : M DataFrame :=
  df ← attr _df;
  mask ← lift (state_mask py_eq df state);
  mret (loc_mask df mask).

(** [__query_validation] (lines 207-225): the query must be a dict; its
    keys are checked against the keywords with [are_contained]; the keys of
    [must_have] must be there; and for every keyword in the query the
    columns it names are checked against those of the frame with
    [are_contained]. *)
Definition __query_validation (query : option nat)
    (must_have : option (gset string)) : M unit :=
  q ← arg_dict query;
  keywords ← attr __keywords;
  (if are_contained (query_set q) keywords then mret tt else raise ValueError) ;;
  match must_have with
  | Some mh =>
      lift (assertion
              (bool_decide (list_to_set (extract_match (query_set q) mh) = mh)))
  | None => mret tt
  end ;;
  for_each (extract_match (query_set q) keywords) (λ kw,
    entry ← subscript q kw;
    columns ← lift (named_columns kw entry);
    df ← attr _df;
    if are_contained columns (list_to_set (fcolumns df))
    then mret tt else raise ValueError).

(** [get] (lines 81-116).  A query that is [None] becomes a new dict; a
    query without ['state'] gets the empty one, assigned on the dict object
    that was passed. *)
Definition get (query : option nat) (dict_type : orient) : M table_dict :=
  query ← match query with
          | None => new_dict
          | Some r => mret r
          end;
  q ← deref query;
  (if dict_contains "state" q then mret tt
   else setitem query "state" (QMap [])) ;;
  __query_validation (Some query) (Some {[ "state" ]}) ;;
  q ← deref query;
  state ← subscript q "state";
  table ← __filter state;
  table ← (if dict_contains "columns" q
           then columns ← subscript q "columns";
                table ← lift (getitem table columns);
                mret match table with
                     | SSeries s => to_frame s
                     | SFrame f => f
                     end
           else mret table);
  mret (to_dict table dict_type).

(** [delete] (lines 118-132).  The flag [save] is a [bool] here, so the
    TypeError of line 125 does not arise; likewise in [edit] and [append]. *)
Definition delete (query : option nat) (save_flag : bool) : M unit :=
  __query_validation query (Some {[ "state" ]}) ;;
  q ← arg_dict query;
  df ← attr _df;
  state ← subscript q "state";
  mask ← lift (state_mask py_ne df state);
  set_df (loc_mask df mask) ;;
  if save_flag then save None None else mret tt.

(** [edit] (lines 134-153): for every key of ['values'], in the order of
    the dict, the mask is computed anew on the frame as it is by then. *)
Definition edit (query : option nat) (save_flag : bool) : M unit :=
  __query_validation query (Some {[ "state"; "values" ]}) ;;
  q ← arg_dict query;
  state ← subscript q "state";
  values ← subscript q "values";
  kws ← lift (iterate values);
  for_each kws (λ kw,
    v ← lift (item values kw);
    df ← attr _df;
    mask ← lift (state_mask py_eq df state);
    df ← lift (loc_setitem df mask kw v);
    set_df df) ;;
  if save_flag then save None None else mret tt.

(** [append] (lines 155-173).  It reads [query['values']] and nothing else
    of the query, and does not validate; [values] is that entry, [None]
    when the query lacks the key. *)
Definition append (values : option append_values) (save_flag : bool) : M unit :=
  df ← attr _df;
  values ← lift (match values with
                 | Some v => Return v
                 | None => Raise KeyError
                 end);
  other ← lift (match values with
                | ColumnMajor table => from_dict table
                | RowMajor records => Return (from_records records)
                end);
  set_df (append_frames df other) ;;
  if save_flag then save None None else mret tt.

(** [value if value is not nan else 0] *)
Definition or_zero (reduction : reduced) : value :=
  match reduction with
  | Got v => v
  | NumpyNan => VInt 0
  end.

(** The loop of [max]:
    [for col in table.columns: value = table[col].max();
     max_values[col] = value if value is not nan else 0] *)
Fixpoint max_loop (table : DataFrame) (cols : list string)
    (max_values : list (string * value)) : outcome (list (string * value)) :=
  match cols with
  | [] => Return max_values
  | col :: cols' =>
      value ← series_max (column_values table col);
      max_loop table cols' (dict_set col (or_zero value) max_values)
  end.

(** [max] (lines 175-198).  [max_values] is a dict, so the closing
    [0 if max_values is nan else max_values] returns it.  A ['columns'] that
    is one name selects a Series, which has no [columns]. *)
Definition max (query : option nat) : M (list (string * value)) :=
  r ← match query with
      | Some r => mret r
      | None => raise TypeError
      end;
  q ← deref r;
  (if dict_contains "state" q then mret tt
   else setitem r "state" (QMap [])) ;;
  __query_validation query (Some {[ "columns" ]}) ;;
  q ← deref r;
  state ← subscript q "state";
  table ← __filter state;
  table ← (if dict_contains "columns" q
           then columns ← subscript q "columns";
                lift (getitem table columns)
           else mret (SFrame table));
  match table with
  | SSeries _ => raise AttributeError
  | SFrame table => lift (max_loop table (fcolumns table) [])
  end.

(** The property [columns]. *)
Definition columns : M (list string) :=
  df ← attr _df;
  mret (fcolumns df).

(** The property [query_keys]. *)
Definition query_keys : M (gset string) := attr __keywords.

End Methods.

End Table.
Export Table.

(* ===================================================================== *)
(** * Vocabulary of the statements *)
(* ===================================================================== *)

(** A computation keeps a part [f] of the state: whatever it returns or
    raises, that part is afterwards what it was before. *)
Definition keeps {X A} (f : state → X) (m : M A) : Prop :=
  ∀ s, f (m s).2 = f s.

(** A computation never raises [e]. *)
Definition avoids {A} (e : exn) (m : M A) : Prop :=
  ∀ s, (m s).1 ≠ Raise e.

(** A computation preserves an invariant of the state, returning or
    raising. *)
Definition preserves {A} (I : state → Prop) (m : M A) : Prop :=
  ∀ s, I s → I (m s).2.

(** A row meets a state predicate under a comparison [op]: [op] holds
    between the cell and the required value for every condition. *)
Definition row_meets (op : value → value → bool) (cols : list string)
    (m : list (string * value)) (r : nat * list value) : bool :=
  forallb (λ kv, op (at_column cols r.2 kv.1) kv.2) m.

(** A table built in memory with the separator [sep]: [__path] is Python's
    [None], and the frame and the separator are in place. *)
Definition from_memory (sep : string) (t : DataTable) : Prop :=
  __path t = Some None ∧ is_Some (_df t) ∧ __sep t = Some sep.

(** The frame of the table has the columns [cols]. *)
Definition has_columns (cols : list string) (s : state) : Prop :=
  ∃ df, _df (self s) = Some df ∧ fcolumns df = cols.

(** The default of the parameter [dict_type] of [get]. *)
Definition default_dict_type : orient := orient_list.

(** The example table of the specification. *)
Definition animals : list (string * list value) :=
  [("animal", [VStr "dog"; VStr "cat"; VStr "dog"]);
   ("color", [VStr "red"; VStr "black"; VStr "black"])].

(** A new object before [__init__] has run, with the caller's dicts. *)
Definition blank (h : list pydict) : state :=
  mkState (mkTable None None None None) h ∅.

(** [DataTable(table)] next to one dict object [q] of the caller; the
    constructor does not read files for a dict. *)
Definition table_of (table : list (string * list value)) (q : pydict) : state :=
  (__init__ (λ _ _ _, Raise KeyError) (FromDict table) ";" None (blank [q])).2.

Definition animals_table (q : pydict) : state := table_of animals q.

(** A table with one column that holds a string and a number. *)
Definition mixed : list (string * list value) :=
  [("x", [VStr "a"; VInt 1])].

(** A table of names and ages, one age missing. *)
Definition ages : list (string * list value) :=
  [("name", [VStr "ann"; VStr "bob"; VStr "cy"]);
   ("age", [VInt 31; VNaN; VInt 47])].

(** The state predicate of a query: the dict under ['state'], and the empty
    dict, which [get] and [max] put there, for a query without that key. *)
Definition state_of (q : pydict) (m : list (string * value)) : Prop :=
  match dict_get "state" q with
  | Some entry => entry = QMap m
  | None => m = []
  end.

(** The cells of column [c] in the rows that meet the state [m]. *)
Definition selected_values (df : DataFrame) (m : list (string * value))
    (c : string) : list value :=
  map (λ r, at_column (fcolumns df) r.2 c)
    (List.filter (row_meets py_eq (fcolumns df) m) (frows df)).

(** Cells that can be ordered among themselves: numbers, with or without
    empty cells between them, or strings without empty cells. *)
Definition comparable (l : list value) : Prop :=
  strs l = [] ∨ (ints l = [] ∧ ∀ v, v ∈ l → v ≠ VNaN).

(** The natural order: numbers by size, strings by code points. *)
Definition value_le (a b : value) : Prop :=
  match a, b with
  | VInt x, VInt y => (x ≤ y)%Z
  | VStr s, VStr t => String.leb s t = true
  | _, _ => False
  end.

(** [top] is the maximum of the cells [l]: one of them, not empty, and at
    least every cell that is not empty. *)
Definition is_maximum (top : value) (l : list value) : Prop :=
  top ∈ l ∧ top ≠ VNaN ∧ ∀ w, w ∈ l → w ≠ VNaN → value_le w top.

(* ===================================================================== *)
(** * Python strings, and the rest of utils.py *)
(* ===================================================================== *)

Module Text.

(** Line feed, carriage return and the double quote. *)
Definition LF : ascii := ascii_of_nat 10.
Definition CR : ascii := ascii_of_nat 13.
Definition DQ : ascii := ascii_of_nat 34.

Definition str (c : ascii) : string := String c EmptyString.

(** [sub in s] *)
Fixpoint str_in (sub s : string) : bool :=
  String.prefix sub s
  || match s with
     | EmptyString => false
     | String _ s' => str_in sub s'
     end.

(** [s.replace(old, new)] for a non-empty [old]: the occurrences are found
    from the left and do not overlap; [skip] counts the characters of an
    occurrence that are still to be passed over. *)
Fixpoint replace_from (old new : string) (skip : nat) (s : string) : string :=
  match s with
  | EmptyString => EmptyString
  | String c s' =>
      match skip with
      | S k => replace_from old new k s'
      | O =>
          if String.prefix old s
          then String.append new (replace_from old new (String.length old - 1) s')
          else String c (replace_from old new O s')
      end
  end.

(** [s.replace('', new)]: [new] before every character and at the end. *)
Fixpoint between (new s : string) : string :=
  match s with
  | EmptyString => new
  | String c s' => String.append new (String c (between new s'))
  end.

(** [s.replace(old, new)] *)
Definition replace (old new s : string) : string :=
  match old with
  | EmptyString => between new s
  | _ => replace_from old new 0 s
  end.

(** [s[-1]], which raises IndexError on the empty string ([None] here). *)
Fixpoint last_char (s : string) : option ascii :=
  match s with
  | EmptyString => None
  | String c EmptyString => Some c
  | String _ s' => last_char s'
  end.

(** [s[:-1]] *)
Fixpoint drop_last (s : string) : string :=
  match s with
  | EmptyString => EmptyString
  | String c EmptyString => EmptyString
  | String c s' => String c (drop_last s')
  end.

(** The characters of a string. *)
Fixpoint letters (s : string) : list ascii :=
  match s with
  | EmptyString => []
  | String c s' => c :: letters s'
  end.

End Text.
Export Text.

Module Paths.

(** [normalize_path] (utils.py, lines 31-36).  [None] stands for the
    IndexError of [path[-1]], the only exception it can raise. *)
Definition normalize_path (path : string) : option string :=
  let path := if str_in "\" path then replace "\" "/" path else path in
  match last_char path with
  | None => None
  | Some c => Some (if Ascii.eqb c "/" then drop_last path else path)
  end.

(** Files of text, as [open] in text mode with its default [newline=None]
    reads and writes them.  On writing, every line feed becomes the line
    separator of the platform; on reading, a carriage return with or
    without a line feed after it becomes one line feed.  A file is kept as
    the characters it holds.  Directories, permissions and the encoding of
    characters are not modelled: writing always succeeds. *)
Section TextFiles.
(** [os.linesep] *)
Context (linesep : string).

Definition write_text (content : string) : string :=
  replace (str LF) linesep content.

Fixpoint read_text (raw : string) : string :=
  match raw with
  | EmptyString => EmptyString
  | String c raw' =>
      if Ascii.eqb c CR
      then match raw' with
           | String c' raw'' =>
               if Ascii.eqb c' LF then String LF (read_text raw'')
               else String LF (read_text raw')
           | EmptyString => String LF EmptyString
           end
      else String c (read_text raw')
  end.

(** [new_file] (utils.py, lines 21-23): mode ['w+'] creates the file or
    empties it, then the content is written. *)
Definition new_file (path content : string) (files : gmap string string)
  : gmap string string :=
  <[path := write_text content]> files.

(** [read_file] (utils.py, lines 26-28); [None] stands for the
    FileNotFoundError of a path without file. *)
Definition read_file (path : string) (files : gmap string string) : option string :=
  read_text <$> files !! path.

End TextFiles.

End Paths.
Export Paths.

Module Rendering.

Section ToString.
(** The text that [to_csv] returns for a frame and a separator when it is
    given no path. *)
Context (render : file → string).

(** [to_string] (DataTable.py, lines 66-79).  The result is [None] for the
    IndexError of [text[-1]] on an empty text. *)
Definition to_string (sep : option string) : M (option string) :=
  sep ← match sep with
        | None => attr __sep
        | Some x => mret x
        end;
  df ← attr _df;
  text ← to_csv df None sep;
  let text := match text with
              | Some f => render f
              | None => EmptyString
              end in
  let text := replace (str CR +:+ str LF) (str LF) (replace (str DQ) "" text) in
  mret match last_char text with
       | None => None
       | Some c => Some (if Ascii.eqb c LF then drop_last text else text)
       end.

End ToString.

(** The default of the parameter [sep] of [to_string]. *)
Definition default_sep : option string := Some ";".

End Rendering.
Export Rendering.

(* ===================================================================== *)
(** * More vocabulary *)
(* ===================================================================== *)

(** The entries that validation lets through: under a recognised key other
    than ['columns'] a dict, and under ['columns'], when it is recognised,
    an object that can be walked. *)
Definition entries_pass (kws : gset string) (q : pydict) : Prop :=
  (∀ kw entry, kw ∈ kws → kw ≠ "columns" → dict_get kw q = Some entry →
               ∃ m, entry = QMap m)
  ∧ ("columns" ∈ kws → dict_get "columns" q ≠ Some QOther).

(** The rows of a frame that meet a state predicate, as a frame. *)
Definition selected (df : DataFrame) (m : list (string * value)) : DataFrame :=
  mkFrame (fcolumns df)
    (List.filter (row_meets py_eq (fcolumns df) m) (frows df)).

(** A frame cut down to the columns [cs], in that order. *)
Definition projected (df : DataFrame) (cs : list string) : DataFrame :=
  mkFrame cs (map (λ r, (r.1, map (at_column (fcolumns df) r.2) cs)) (frows df)).

(** What a query asks for: the rows that meet its state, cut down to its
    columns when it names some, in the order in which their set is
    walked. *)
Definition answer `{SetOrder} (df : DataFrame) (m : list (string * value))
    (columns : option (gset string)) : DataFrame :=
  match columns with
  | None => selected df m
  | Some cs => projected (selected df m) (walk cs)
  end.

(** The ['columns'] of a query: none, or a set of columns of the frame. *)
Definition columns_of (q : pydict) (df : DataFrame)
    (columns : option (gset string)) : Prop :=
  match dict_get "columns" q with
  | None => columns = None
  | Some entry =>
      ∃ cs, entry = QNames cs ∧ columns = Some cs
            ∧ ∀ c, c ∈ cs → c ∈ fcolumns df
  end.

(** The numbers that every numeric type of the engine holds exactly: the
    integers up to 2^53 in size.  On these the model, which keeps every
    number as it is, and the engine, which may keep it as a float, agree. *)
Definition exact (v : value) : Prop :=
  match v with
  | VInt z => (Z.abs z ≤ 2 ^ 53)%Z
  | _ => True
  end.

(** Every row of the frame has one cell per column. *)
Definition wf_frame (df : DataFrame) : Prop :=
  ∀ r, r ∈ frows df → length r.2 = length (fcolumns df).

(** A row [row'] is [row] after the values [vm] were assigned for the keys
    [dn] under the state [m]: the same label, as many cells, and under
    every column the cell of [row], or the value of [vm] for that column
    when [row] meets the state and the column is among [dn]. *)
Definition edited_on (dn : list string) (cols : list string)
    (m vm : list (string * value)) (row row' : nat * list value) : Prop :=
  row'.1 = row.1
  ∧ length row'.2 = length row.2
  ∧ ∀ c, at_column cols row'.2 c
         = if row_meets py_eq cols m row && bool_decide (c ∈ dn)
           then default (at_column cols row.2 c) (dict_get c vm)
           else at_column cols row.2 c.

(** A query that paints the cats white. *)
Definition paint_cats : pydict :=
  [("state", QMap [("animal", VStr "cat")]);
   ("values", QMap [("color", VStr "white")])].

(** A call that has done its work and then fails with AttributeError:
    what was returned becomes the raise, in the state reached; a raise
    stays as it is. *)
Definition then_fails (x : outcome unit * state) : outcome unit * state :=
  match x with
  | (Return _, s') => (Raise AttributeError, s')
  | (Raise e, s') => (Raise e, s')
  end.

(** The same with another exception in the place of AttributeError. *)
Definition then_raises (e : exn) (x : outcome unit * state)
  : outcome unit * state :=
  match x with
  | (Return _, s') => (Raise e, s')
  | (Raise e', s') => (Raise e', s')
  end.

(** What the closing [save()] of a mutating call makes of the call on a
    table built in memory with the separator [sep]: nothing when the writer
    takes the separator, and a TypeError in the place of the return when it
    does not. *)
Definition after_save (sep : string) (x : outcome unit * state)
  : outcome unit * state :=
  if one_character sep then x else then_raises TypeError x.

(** The example table under a separator of two characters. *)
Definition wide_table (q : pydict) : state :=
  (__init__ (λ _ _ _, Raise KeyError) (FromDict animals) ";;" None (blank [q])).2.

(** A query that gives the cats a size, a column the example lacks. *)
Definition size_cats : pydict :=
  [("state", QMap [("animal", VStr "cat")]);
   ("values", QMap [("size", VInt 3)])].

(** A table built without argument, next to one dict of the caller. *)
Definition empty_table (q : pydict) : state :=
  (__init__ (λ _ _ _, Raise KeyError) FromNothing ";" None (blank [q])).2.

(** A query on the example table used by the witnesses. *)
Definition dogs : pydict := [("state", QMap [("animal", VStr "dog")])].

(** The frame of the example table. *)
Definition animals_frame : DataFrame :=
  mkFrame ["animal"; "color"]
    [(0%nat, [VStr "dog"; VStr "red"]);
     (1%nat, [VStr "cat"; VStr "black"]);
     (2%nat, [VStr "dog"; VStr "black"])].

(* ===================================================================== *)
(** * The properties, for every order in which the run walks its sets *)
(* ===================================================================== *)

(** The entries of a concrete query pass, under the three keywords. *)
Ltac entries_pass_here :=
  split;
  [ let kw := fresh "kw" in
    let entry := fresh "entry" in
    let Hkw := fresh "Hkw" in
    let Hne := fresh "Hne" in
    intros kw entry Hkw Hne;
    rewrite !elem_of_union, !elem_of_singleton in Hkw;
    destruct Hkw as [[-> | ->] | ->]; simpl;
    first [congruence | intros [= <-]; eexists; reflexivity]
  | intros _; simpl; discriminate ].

(** The keys that a method requires are in a concrete query. *)
Ltac keys_here :=
  let x := fresh "x" in
  let Hx := fresh "Hx" in
  intros x Hx; unfold query_set; apply elem_of_list_to_set;
  rewrite ?elem_of_union, !elem_of_singleton in Hx;
  repeat (destruct Hx as [Hx | Hx]); subst x; simpl;
  repeat first [by left | right].

Section Properties.
Context {order : SetOrder}.

(** Whatever the order, a walk meets the elements of the set, each once. *)
Lemma elem_of_walk (X : gset string) x : x ∈ walk X ↔ x ∈ X.
Proof. by rewrite (walk_elements X), elem_of_elements. Qed.

Lemma NoDup_walk (X : gset string) : NoDup (walk X).
Proof. rewrite (walk_elements X). apply NoDup_elements. Qed.

Lemma walk_singleton (x : string) : walk {[ x ]} = [x].
Proof.
  apply Permutation_singleton_r. by rewrite (walk_elements _), elements_singleton.
Qed.

Lemma walk_empty : walk (∅ : gset string) = [].
Proof. apply Permutation_nil_r. by rewrite (walk_elements _), elements_empty. Qed.

(* ===================================================================== *)
(** * utils.py: [are_contained] compares an intersection with itself *)
(* ===================================================================== *)

Lemma extract_match_set (s1 s2 : gset string) :
  list_to_set (extract_match s1 s2) =@{gset string} s1 ∩ s2.
Proof.
  apply set_eq. intros x. unfold extract_match.
  rewrite elem_of_list_to_set, list_elem_of_filter, elem_of_walk,
    elem_of_intersection.
  tauto.
Qed.

Lemma are_contained_true (s1 s2 : gset string) : are_contained s1 s2 = true.
Proof.
  unfold are_contained. apply bool_decide_eq_true.
  rewrite !extract_match_set. apply set_eq. intros x.
  rewrite !elem_of_intersection. tauto.
Qed.

(* ===================================================================== *)
(** * Frame rules of the monad *)
(* ===================================================================== *)

Section Keeps.
Context {X : Type} (f : state → X).

Lemma keeps_ret {A} (a : A) : keeps f (mret a).
Proof. by intros s. Qed.

Lemma keeps_raise {A} (e : exn) : keeps f (raise (A:=A) e).
Proof. by intros s. Qed.

Lemma keeps_lift {A} (o : outcome A) : keeps f (lift o).
Proof. by intros s. Qed.

Lemma keeps_bind {A B} (m : M A) (k : A → M B) :
  keeps f m → (∀ a, keeps f (k a)) → keeps f (m ≫= k).
Proof.
  intros Hm Hk s. unfold mbind, M_bind.
  specialize (Hm s). destruct (m s) as [[a|e] s']; simpl in *.
  - by rewrite Hk.
  - done.
Qed.

Lemma keeps_attr {A} (field : DataTable → option A) : keeps f (attr field).
Proof. by intros s. Qed.

Lemma keeps_deref r : keeps f (deref r).
Proof. by intros s. Qed.

Lemma keeps_arg_dict query : keeps f (arg_dict query).
Proof. destruct query; [apply keeps_deref | apply keeps_raise]. Qed.

Lemma keeps_subscript {V} (d : list (string * V)) k : keeps f (subscript d k).
Proof. apply keeps_lift. Qed.

Lemma keeps_path_exists p : keeps f (path_exists p).
Proof. by intros s. Qed.

Lemma keeps_for_each {A} (l : list A) (body : A → M unit) :
  (∀ a, keeps f (body a)) → keeps f (for_each l body).
Proof.
  intros Hb. induction l as [|a l IH]; simpl.
  - apply keeps_ret.
  - apply keeps_bind; [apply Hb | intros _; apply IH].
Qed.
End Keeps.

Create HintDb keeps.
#[local] Hint Resolve keeps_ret keeps_raise keeps_lift keeps_attr keeps_deref
  keeps_arg_dict keeps_subscript keeps_path_exists : keeps.

(** Step through a computation built from binds, branches and loops. *)
Ltac keeps_auto :=
  repeat first
    [ solve [eauto with keeps]
    | apply keeps_bind; [| intro]
    | apply keeps_for_each; intro
    | match goal with
      | |- keeps _ (match ?x with _ => _ end) => destruct x
      end ].

(** Validation only reads. *)
Lemma validation_keeps {X} (f : state → X) query must_have :
  keeps f (__query_validation query must_have).
Proof. unfold __query_validation. keeps_auto. Qed.

Lemma filter_keeps {X} (f : state → X) st : keeps f (__filter st).
Proof. unfold __filter. keeps_auto. Qed.

(** Assignments to the caller's dicts leave the object and the files. *)
Lemma new_dict_keeps_self : keeps self new_dict.
Proof. by intros s. Qed.
Lemma new_dict_keeps_disk : keeps disk new_dict.
Proof. by intros s. Qed.
Lemma setitem_keeps_self r k v : keeps self (setitem r k v).
Proof. intros s. unfold setitem. by destruct (heap s !! r). Qed.
Lemma setitem_keeps_disk r k v : keeps disk (setitem r k v).
Proof. intros s. unfold setitem. by destruct (heap s !! r). Qed.

#[local] Hint Resolve validation_keeps filter_keeps new_dict_keeps_self
  new_dict_keeps_disk setitem_keeps_self setitem_keeps_disk : keeps.

(** C8.  [get] leaves the object as it was: the frame (rows and columns),
    the path, the separator and the keywords after the call are those
    before it, for every query and output shape, whether the call returns
    or raises. *)
Theorem get_keeps_table (query : option nat) (dict_type : orient) (s : state) :
  self (get query dict_type s).2 = self s.
Proof.
  revert s. change (keeps self (get query dict_type)).
  unfold get. keeps_auto.
Qed.

(* ===================================================================== *)
(** * Running a computation step by step *)
(* ===================================================================== *)

Lemma bind_return {A B} (m : M A) (k : A → M B) s a s' :
  m s = (Return a, s') → (m ≫= k) s = k a s'.
Proof. intros E. unfold mbind, M_bind. by rewrite E. Qed.

Lemma bind_raise {A B} (m : M A) (k : A → M B) s e s' :
  m s = (Raise e, s') → (m ≫= k) s = (Raise e, s').
Proof. intros E. unfold mbind, M_bind. by rewrite E. Qed.

Lemma deref_lookup s r q : heap s !! r = Some q → deref r s = (Return q, s).
Proof. intros E. unfold deref. by rewrite E. Qed.

Lemma setitem_lookup s r q k v :
  heap s !! r = Some q →
  setitem r k v s
  = (Return tt, mkState (self s) (<[r := dict_set k v q]> (heap s)) (disk s)).
Proof. intros E. unfold setitem. by rewrite E. Qed.

Lemma attr_some {A} (field : DataTable → option A) s a :
  field (self s) = Some a → attr field s = (Return a, s).
Proof. intros E. unfold attr. by rewrite E. Qed.

Lemma subscript_some {V} (d : list (string * V)) k v s :
  dict_get k d = Some v → subscript d k s = (Return v, s).
Proof. intros E. unfold subscript, lift. by rewrite E. Qed.

(** Assigning a key that the dict lacks appends the binding. *)
Lemma dict_set_fresh {V} k (v : V) d :
  dict_contains k d = false → dict_set k v d = d ++ [(k, v)].
Proof.
  unfold dict_contains. induction d as [|[k' v'] d IH]; simpl; [done|].
  destruct (String.eqb k k'); [done|].
  intros E. by rewrite IH.
Qed.

Lemma dict_get_set_eq {V} k (v : V) d : dict_get k (dict_set k v d) = Some v.
Proof.
  induction d as [|[k' v'] d IH]; simpl.
  - by rewrite String.eqb_refl.
  - destruct (String.eqb k k') eqn:E; simpl.
    + by rewrite String.eqb_refl.
    + by rewrite E.
Qed.

Lemma dict_get_set_ne {V} k k' (v : V) d :
  k ≠ k' → dict_get k' (dict_set k v d) = dict_get k' d.
Proof.
  intros Hne. induction d as [|[k0 v0] d IH]; simpl.
  - destruct (String.eqb_spec k' k); [congruence | done].
  - destruct (String.eqb_spec k k0) as [->|]; simpl.
    + destruct (String.eqb_spec k' k0); [congruence | done].
    + by rewrite IH.
Qed.

(** What follows the assignment of ['state'] in [get] and in [max] does not
    touch the caller's dicts. *)
Ltac keeps_rest f :=
  match goal with
  | |- context [(?m ?s).2] =>
      let K := fresh "K" in
      assert (K : keeps f m) by keeps_auto;
      rewrite (K s); clear K
  end.

(** C10.  A query dict passed without the key ['state'] is changed by [get]
    and by [max]: the dict object of the caller holds one more binding
    afterwards, ['state'] to an empty dict, appended after its other
    bindings, whether validation then accepts the query or the call raises;
    so the argument seen after the call is not the one passed in. *)
Theorem query_argument_gains_state (s : state) (r : nat)
    (q : pydict) (dict_type : orient) :
  heap s !! r = Some q →
  dict_contains "state" q = false →
  heap (get (Some r) dict_type s).2 !! r = Some (q ++ [("state", QMap [])])
  ∧ heap (max (Some r) s).2 !! r = Some (q ++ [("state", QMap [])])
  ∧ q ++ [("state", QMap [])] ≠ q.
Proof.
  intros Hq Hc.
  assert (Hlt : (r < length (heap s))%nat) by (by eapply lookup_lt_Some).
  repeat split.
  - unfold get.
    erewrite bind_return by reflexivity.
    erewrite bind_return by (by apply deref_lookup).
    rewrite Hc.
    erewrite bind_return by (by apply setitem_lookup).
    keeps_rest heap. simpl.
    rewrite list_lookup_insert_eq by done.
    by rewrite dict_set_fresh.
  - unfold max.
    erewrite bind_return by reflexivity.
    erewrite bind_return by (by apply deref_lookup).
    rewrite Hc.
    erewrite bind_return by (by apply setitem_lookup).
    keeps_rest heap. simpl.
    rewrite list_lookup_insert_eq by done.
    by rewrite dict_set_fresh.
  - intros E. apply (f_equal length) in E. rewrite length_app in E.
    simpl in E. lia.
Qed.

(* ===================================================================== *)
(** * Validation: what it checks and what it lets through *)
(* ===================================================================== *)

Section Avoids.
Context (e : exn).

Lemma avoids_ret {A} (a : A) : avoids e (mret a).
Proof. by intros s. Qed.

Lemma avoids_raise {A} (e' : exn) : e' ≠ e → avoids e (raise (A:=A) e').
Proof. intros Hne s. simpl. congruence. Qed.

Lemma avoids_lift {A} (o : outcome A) : o ≠ Raise e → avoids e (lift o).
Proof. by intros Hne s. Qed.

Lemma avoids_bind {A B} (m : M A) (k : A → M B) :
  avoids e m → (∀ a, avoids e (k a)) → avoids e (m ≫= k).
Proof.
  intros Hm Hk s. unfold mbind, M_bind.
  specialize (Hm s). destruct (m s) as [[a|e'] s'].
  - apply Hk.
  - simpl in *. intros [= ->]. by apply Hm.
Qed.

Lemma avoids_for_each {A} (l : list A) (body : A → M unit) :
  (∀ a, avoids e (body a)) → avoids e (for_each l body).
Proof.
  intros Hb. induction l as [|a l IH]; simpl.
  - apply avoids_ret.
  - apply avoids_bind; [apply Hb | intros _; apply IH].
Qed.
End Avoids.

Lemma avoids_attr {A} e (field : DataTable → option A) :
  e ≠ AttributeError → avoids e (attr field).
Proof. intros Hne s. unfold attr. simpl. destruct (field (self s)); congruence. Qed.

Lemma avoids_arg_dict e query : e ≠ TypeError → avoids e (arg_dict query).
Proof.
  intros Hne s. destruct query as [r|]; simpl; [|congruence].
  unfold deref. simpl. destruct (heap s !! r); congruence.
Qed.

Lemma avoids_subscript {V} e (d : list (string * V)) k :
  e ≠ KeyError → avoids e (subscript d k).
Proof. intros Hne s. unfold subscript, lift. simpl. destruct (dict_get k d); congruence. Qed.

(** Whatever the query and the table, validation does not raise
    ValueError: both of its ValueError branches are guarded by
    [are_contained], which is always true. *)
Lemma validation_avoids_ValueError query must_have :
  avoids ValueError (__query_validation query must_have).
Proof.
  unfold __query_validation.
  apply avoids_bind; [by apply avoids_arg_dict | intros q].
  apply avoids_bind; [by apply avoids_attr | intros kws].
  rewrite are_contained_true.
  apply avoids_bind; [apply avoids_ret | intros _].
  apply avoids_bind.
  { destruct must_have as [mh|]; [|apply avoids_ret].
    apply avoids_lift. unfold assertion. by case_match. }
  intros _. apply avoids_for_each. intros kw.
  apply avoids_bind; [by apply avoids_subscript | intros entry].
  apply avoids_bind.
  { apply avoids_lift. unfold named_columns.
    destruct (String.eqb kw "columns"); by destruct entry. }
  intros cols. apply avoids_bind; [by apply avoids_attr | intros df].
  rewrite are_contained_true. apply avoids_ret.
Qed.

Lemma for_each_returns {A} (l : list A) (body : A → M unit) s :
  (∀ a, a ∈ l → body a s = (Return tt, s)) →
  for_each l body s = (Return tt, s).
Proof.
  induction l as [|a l IH]; intros Hb; simpl; [done|].
  erewrite bind_return by (apply Hb; left).
  apply IH. intros b Hb'. apply Hb. by right.
Qed.

Lemma dict_get_keys {V} k (d : list (string * V)) :
  k ∈ dict_keys d → is_Some (dict_get k d).
Proof.
  induction d as [|[k' v] d IH]; simpl.
  - by intros ?%elem_of_nil.
  - intros [->|Hin]%elem_of_cons.
    + rewrite String.eqb_refl. by eexists.
    + destruct (String.eqb k k'); [by eexists | by apply IH].
Qed.

Lemma dict_get_in_keys {V} k (d : list (string * V)) v :
  dict_get k d = Some v → k ∈ dict_keys d.
Proof.
  induction d as [|[k' v'] d IH]; simpl; [done|].
  destruct (String.eqb_spec k k') as [->|]; [by left | right; by apply IH].
Qed.

(** Validation returns when the required keys are there and the entries
    under the recognised keys pass. *)
Lemma validation_returns s r q kws df mh :
  heap s !! r = Some q →
  __keywords (self s) = Some kws →
  _df (self s) = Some df →
  mh ⊆ query_set q →
  entries_pass kws q →
  __query_validation (Some r) (Some mh) s = (Return tt, s).
Proof.
  intros Hq Hk Hdf Hmh [Hshape Hcol]. unfold __query_validation.
  erewrite bind_return by (simpl; by apply deref_lookup).
  erewrite bind_return by (by apply attr_some).
  rewrite are_contained_true.
  erewrite bind_return by reflexivity.
  erewrite bind_return; cycle 1.
  { unfold lift. rewrite bool_decide_eq_true_2; [reflexivity|].
    rewrite extract_match_set. apply set_eq. intros x.
    rewrite elem_of_intersection. split; [tauto|]. intros Hx. split; [|done].
    by apply Hmh. }
  apply for_each_returns. intros kw Hkw.
  unfold extract_match in Hkw.
  apply list_elem_of_filter in Hkw as [Hkws Hkq].
  apply elem_of_walk in Hkq. unfold query_set in Hkq.
  apply elem_of_list_to_set in Hkq.
  destruct (dict_get_keys _ _ Hkq) as [entry Hentry].
  erewrite bind_return by (by apply subscript_some).
  assert (∃ cols, named_columns kw entry = Return cols) as [cols Hcols].
  { unfold named_columns. destruct (String.eqb_spec kw "columns") as [->|Hne].
    - destruct entry; try (by eexists). by destruct (Hcol Hkws).
    - destruct (Hshape kw entry Hkws Hne Hentry) as [m ->]. by eexists. }
  erewrite bind_return by (unfold lift; by rewrite Hcols).
  erewrite bind_return by (by apply attr_some).
  by rewrite are_contained_true.
Qed.

(** Putting the empty state into a query, as [get] and [max] do, leaves
    its entries passing. *)
Lemma entries_pass_with_state kws q :
  entries_pass kws q → entries_pass kws (dict_set "state" (QMap []) q).
Proof.
  intros [Hd Hc]. split.
  - intros kw entry Hkw Hne.
    destruct (decide (kw = "state")) as [->|Hns].
    + rewrite dict_get_set_eq. intros [= <-]. by eexists.
    + rewrite dict_get_set_ne by done. by apply Hd.
  - intros Hkw. rewrite dict_get_set_ne by done. by apply Hc.
Qed.

Lemma entries_pass_state_only kws m : entries_pass kws [("state", QMap m)].
Proof.
  split.
  - intros kw entry _ _. simpl. destruct (String.eqb kw "state"); [|done].
    intros [= <-]. by eexists.
  - done.
Qed.

(* ===================================================================== *)
(** * The row mask of a state predicate *)
(* ===================================================================== *)

Lemma getitem_list_returns (df : DataFrame) keys :
  (∀ k, k ∈ keys → k ∈ fcolumns df) →
  getitem_list df keys
  = Return (mkFrame keys
              (map (λ r, (r.1, map (at_column (fcolumns df) r.2) keys)) (frows df))).
Proof.
  intros Hin. unfold getitem_list.
  replace (forallb _ keys) with true; [done|].
  symmetry. apply forallb_forall. intros k Hk.
  apply bool_decide_eq_true. apply Hin. by apply list_elem_of_In.
Qed.

Lemma getitem_list_raises (df : DataFrame) keys k :
  k ∈ keys → k ∉ fcolumns df → getitem_list df keys = Raise KeyError.
Proof.
  intros Hk Hno. unfold getitem_list.
  destruct (forallb _ keys) eqn:E; [|done].
  rewrite forallb_forall in E.
  specialize (E k (proj1 (list_elem_of_In _ _) Hk)).
  by apply bool_decide_eq_true in E.
Qed.

Lemma row_mask op cols cells (m : list (string * value)) :
  forallb id (zip_with op (map (at_column cols cells) (dict_keys m)) (dict_values m))
  = forallb (λ kv, op (at_column cols cells kv.1) kv.2) m.
Proof.
  induction m as [|[k v] m IH]; simpl; [done|].
  by rewrite IH.
Qed.

(** The mask of a dict over columns of the frame: row by row, whether every
    condition holds under the comparison. *)
Lemma state_mask_dict op (df : DataFrame) m :
  (∀ k, k ∈ dict_keys m → k ∈ fcolumns df) →
  state_mask op df (QMap m)
  = Return (map (row_meets op (fcolumns df) m) (frows df)).
Proof.
  intros Hin. unfold state_mask.
  rewrite (getitem_list_returns df (dict_keys m) Hin). simpl.
  unfold cmp_series. simpl. rewrite bool_decide_eq_true_2 by done. simpl.
  f_equal. unfold all_axis1. simpl. rewrite !map_map.
  apply map_ext. intros r. simpl. apply row_mask.
Qed.

Lemma state_mask_unknown_column op (df : DataFrame) m k :
  k ∈ dict_keys m → k ∉ fcolumns df →
  state_mask op df (QMap m) = Raise KeyError.
Proof.
  intros Hk Hno. unfold state_mask.
  by rewrite (getitem_list_raises df (dict_keys m) k).
Qed.

Lemma select_rows_map {A} (f : nat * list A → bool) rows :
  select_rows rows (map f rows) = List.filter f rows.
Proof.
  induction rows as [|r rows IH]; simpl; [done|].
  rewrite IH. by destruct (f r).
Qed.

(** [__filter] selects the rows that meet every condition of the state. *)
Lemma filter_returns s (df : DataFrame) m :
  _df (self s) = Some df →
  (∀ k, k ∈ dict_keys m → k ∈ fcolumns df) →
  __filter (QMap m) s
  = (Return (mkFrame (fcolumns df)
               (List.filter (row_meets py_eq (fcolumns df) m) (frows df))), s).
Proof.
  intros Hdf Hin. unfold __filter.
  erewrite bind_return by (by apply attr_some).
  erewrite bind_return by (unfold lift; by rewrite state_mask_dict).
  unfold loc_mask. by rewrite select_rows_map.
Qed.

(** [delete] keeps the rows that fail every condition of the state: its
    mask is the conjunction of the inequalities.  A row that meets one
    condition is dropped, and with an empty state every row is kept. *)
Lemma delete_keeps_rows_failing_every_condition s r q kws (df : DataFrame) m :
  heap s !! r = Some q →
  __keywords (self s) = Some kws →
  _df (self s) = Some df →
  dict_get "state" q = Some (QMap m) →
  entries_pass kws q →
  (∀ k, k ∈ dict_keys m → k ∈ fcolumns df) →
  delete (Some r) false s
  = (Return tt,
     mkState
       (mkTable
          (Some (mkFrame (fcolumns df)
                   (List.filter (row_meets py_ne (fcolumns df) m) (frows df))))
          (__path (self s)) (__sep (self s)) (__keywords (self s)))
       (heap s) (disk s)).
Proof.
  intros Hq Hk Hdf Hst Hshape Hin. unfold delete.
  erewrite bind_return; cycle 1.
  { eapply validation_returns; try done.
    intros x ->%elem_of_singleton. unfold query_set.
    apply elem_of_list_to_set. by eapply dict_get_in_keys. }
  erewrite bind_return by (simpl; by apply deref_lookup).
  erewrite bind_return by (by apply attr_some).
  erewrite bind_return by (by apply subscript_some).
  erewrite bind_return by (unfold lift; by rewrite state_mask_dict).
  unfold loc_mask. rewrite select_rows_map. reflexivity.
Qed.

(** Meeting a non-empty state and failing all of its conditions exclude
    each other. *)
Lemma meets_and_fails cols m r :
  m ≠ [] → row_meets py_ne cols m r = true → row_meets py_eq cols m r = false.
Proof.
  destruct m as [|[k v] m]; [done|]. intros _. unfold row_meets, py_ne. simpl.
  by destruct (py_eq (at_column cols r.2 k) v).
Qed.

(** So after [delete] with a non-empty state no remaining row meets that
    state; with the empty state all rows remain and all of them meet it. *)
Lemma no_row_meets_deleted_state cols m (rows : list (nat * list value)) :
  m ≠ [] →
  List.filter (row_meets py_eq cols m) (List.filter (row_meets py_ne cols m) rows)
  = [].
Proof.
  intros Hm. induction rows as [|r rows IH]; simpl; [done|].
  destruct (row_meets py_ne cols m r) eqn:E; simpl; [|done].
  by rewrite (meets_and_fails cols m r Hm E).
Qed.

(* ===================================================================== *)
(** * Saving a table that has no path *)
(* ===================================================================== *)

Section Preserves.
Context (I : state → Prop).

Lemma preserves_bind {A B} (m : M A) (k : A → M B) :
  preserves I m → (∀ a, preserves I (k a)) → preserves I (m ≫= k).
Proof.
  intros Hm Hk s Hs. unfold mbind, M_bind.
  specialize (Hm s Hs). destruct (m s) as [[a|e] s']; simpl in *.
  - by apply Hk.
  - done.
Qed.

Lemma preserves_for_each {A} (l : list A) (body : A → M unit) :
  (∀ a, preserves I (body a)) → preserves I (for_each l body).
Proof.
  intros Hb. induction l as [|a l IH]; simpl.
  - by intros s.
  - apply preserves_bind; [apply Hb | intros _; apply IH].
Qed.

Lemma keeps_preserves {A} (m : M A) : keeps id m → preserves I m.
Proof. intros K s Hs. specialize (K s). simpl in K. by rewrite K. Qed.

(** Two continuations that agree on the states of the invariant give the
    same computation after a prefix that preserves it. *)
Lemma bind_agree {A B} (m : M A) (k1 k2 : A → M B) s :
  preserves I m → I s →
  (∀ a s1, I s1 → k1 a s1 = k2 a s1) →
  (m ≫= k1) s = (m ≫= k2) s.
Proof.
  intros Hm Hs Hk. unfold mbind, M_bind.
  specialize (Hm s Hs). destruct (m s) as [[a|e] s1]; simpl in *.
  - by apply Hk.
  - done.
Qed.
End Preserves.

Lemma set_df_from_memory sep df :
  preserves (λ s, from_memory sep (self s)) (set_df df).
Proof.
  intros s (Hp & _ & Hs). unfold from_memory. simpl.
  split; [done|]. split; [by eexists | done].
Qed.

Ltac preserves_auto :=
  repeat first
    [ apply keeps_preserves; solve [keeps_auto]
    | apply set_df_from_memory
    | apply preserves_bind; [| intro]
    | apply preserves_for_each; intro
    | match goal with
      | |- preserves _ (match ?x with _ => _ end) => destruct x
      end ].

(** With [__path] being [None], [save()] hands [None] to [to_csv], which
    renders the text and writes nothing: the state, files included, is what
    it was, and the call returns unless the writer refuses the separator. *)
Lemma save_from_memory s sep :
  from_memory sep (self s) →
  save None None s
  = (if one_character sep then Return tt else Raise TypeError, s).
Proof.
  intros (Hp & [df Hdf] & Hsep). unfold save.
  erewrite bind_return by (by apply attr_some).
  erewrite bind_return by (by apply attr_some).
  erewrite bind_return by (by apply attr_some).
  unfold to_csv. by destruct (one_character sep).
Qed.

Lemma bind_after_save {A} sep (I : state → Prop) (m : M A)
    (k1 k2 : A → M unit) s :
  preserves I m → I s →
  (∀ a s1, I s1 → k1 a s1 = after_save sep (k2 a s1)) →
  (m ≫= k1) s = after_save sep ((m ≫= k2) s).
Proof.
  intros Hm Hs Hk. unfold mbind, M_bind.
  specialize (Hm s Hs). destruct (m s) as [[a|e] s1]; simpl in *.
  - by apply Hk.
  - unfold after_save. by destruct (one_character sep).
Qed.

Lemma save_after_nothing s sep :
  from_memory sep (self s) →
  save None None s = after_save sep (Return tt, s).
Proof.
  intros Hs. rewrite (save_from_memory s sep Hs).
  unfold after_save. by destruct (one_character sep).
Qed.

Ltac save_step sep :=
  apply (bind_after_save sep (λ s, from_memory sep (self s)));
  [ preserves_auto | assumption | intros ? ? ? ].

Lemma keeps_preserves_on {X A} (f : state → X) (P : X → Prop) (m : M A) :
  keeps f m → preserves (λ s, P (f s)) m.
Proof. intros K s Hs. by rewrite (K s). Qed.

Lemma bind_then_fails {A} (I : state → Prop) (m : M A) (k1 k2 : A → M unit) s :
  preserves I m → I s →
  (∀ a s1, I s1 → k1 a s1 = then_fails (k2 a s1)) →
  (m ≫= k1) s = then_fails ((m ≫= k2) s).
Proof.
  intros Hm Hs Hk. unfold mbind, M_bind.
  specialize (Hm s Hs). destruct (m s) as [[a|e] s1]; simpl in *.
  - by apply Hk.
  - done.
Qed.

Lemma set_df_keeps_path df : keeps (λ s, __path (self s)) (set_df df).
Proof. by intros s. Qed.

Lemma save_without_attribute s :
  __path (self s) = None → save None None s = (Raise AttributeError, s).
Proof.
  intros Hp. unfold save. erewrite bind_raise; [done|].
  unfold attr. by rewrite Hp.
Qed.

Ltac fails_step :=
  apply (bind_then_fails (λ s, __path (self s) = None));
  [ apply (keeps_preserves_on (λ s, __path (self s)) (λ p, p = None));
    repeat first
      [ apply set_df_keeps_path
      | solve [eauto with keeps]
      | apply keeps_bind; [| intro]
      | apply keeps_for_each; intro
      | match goal with
        | |- keeps _ (match ?x with _ => _ end) => destruct x
        end ]
  | assumption
  | intros ? ? ? ].

(** C5, as the code has it.  What [save()] without a path does depends on
    how the table was built.  On a table built without argument [__path]
    was never assigned: [save()] raises AttributeError and changes nothing,
    and [delete], [edit] and [append] with the save flag true do all that
    they do with the flag false and then raise AttributeError where that
    call would have returned.  On a table built from a dict [__path] is
    [None]: [save()] hands it to the writer, which renders the text and
    writes no file, so the call returns and changes nothing, and the
    mutating calls with the flag true do exactly what they do with the flag
    false; unless the separator of the table is not one character, which
    the writer refuses with TypeError, in the place of the return. *)
Theorem save_without_location (s : state) :
  (__path (self s) = None →
   save None None s = (Raise AttributeError, s)
   ∧ (∀ query, delete query true s = then_fails (delete query false s))
   ∧ (∀ query, edit query true s = then_fails (edit query false s))
   ∧ (∀ values, append values true s = then_fails (append values false s)))
  ∧ (∀ sep, from_memory sep (self s) →
     save None None s
     = (if one_character sep then Return tt else Raise TypeError, s)
     ∧ (∀ query, delete query true s = after_save sep (delete query false s))
     ∧ (∀ query, edit query true s = after_save sep (edit query false s))
     ∧ (∀ values, append values true s = after_save sep (append values false s))).
Proof.
  split.
  - intros Hs. split; [by apply save_without_attribute|].
    split; [|split].
    + intros query. unfold delete. do 6 fails_step.
      simpl. by apply save_without_attribute.
    + intros query. unfold edit. do 6 fails_step.
      simpl. by apply save_without_attribute.
    + intros values. unfold append. do 4 fails_step.
      simpl. by apply save_without_attribute.
  - intros sep Hs. split; [by apply save_from_memory|].
    split; [|split].
    + intros query. unfold delete. do 6 (save_step sep).
      by apply save_after_nothing.
    + intros query. unfold edit. do 6 (save_step sep).
      by apply save_after_nothing.
    + intros values. unfold append. do 4 (save_step sep).
      by apply save_after_nothing.
Qed.

(** The constructor, for a dict, leaves [__path] at [None]. *)
Lemma init_from_dict_from_memory read_csv table sep replace_nan s s' :
  __init__ read_csv (FromDict table) sep replace_nan s = (Return tt, s') →
  from_memory sep (self s').
Proof.
  unfold __init__, __load_from_dict, mbind, M_bind, lift. simpl.
  destruct (from_dict table) as [df|e]; simpl; [|done].
  intros [= <-]. unfold from_memory. simpl. split; [done|]. split; [by eexists | done].
Qed.

(** The constructor, for a dict, does not call the parser. *)
Lemma init_from_dict_ignores_files read_csv read_csv' table sep replace_nan s :
  __init__ read_csv (FromDict table) sep replace_nan s
  = __init__ read_csv' (FromDict table) sep replace_nan s.
Proof. reflexivity. Qed.

(** The constructor, for a path, never returns: [__load] reads [__sep],
    which is assigned only after the call of [__load]. *)
Lemma init_from_path_never_returns read_csv p sep replace_nan h dk :
  let s := mkState (mkTable None None None None) h dk in
  (__init__ read_csv (FromPath p) sep replace_nan s).1 = Raise AssertionError
  ∨ (__init__ read_csv (FromPath p) sep replace_nan s).1 = Raise AttributeError.
Proof.
  simpl. unfold __init__, mbind, M_bind, path_exists. simpl.
  destruct (bool_decide _); simpl; [by right | by left].
Qed.

(** The constructor, without argument, does not assign [__path], and
    [save()] then raises AttributeError. *)
Lemma save_on_empty_table_raises read_csv sep replace_nan h dk :
  let s := (__init__ read_csv FromNothing sep replace_nan
              (mkState (mkTable None None None None) h dk)).2 in
  (save None None s).1 = Raise AttributeError.
Proof. reflexivity. Qed.

(* ===================================================================== *)
(** * The maximum of a column *)
(* ===================================================================== *)

Lemma string_leb_refl a : String.leb a a = true.
Proof. destruct (String.leb_total a a); done. Qed.

Lemma string_compare_trans a b c :
  String.compare a b ≠ Gt → String.compare b c ≠ Gt → String.compare a c ≠ Gt.
Proof.
  revert b c. induction a as [|x a IH]; intros [|y b] [|z c]; simpl; try done.
  unfold Ascii.compare.
  destruct (N.compare_spec (N_of_ascii x) (N_of_ascii y)) as [Exy|Lxy|Gxy];
    destruct (N.compare_spec (N_of_ascii y) (N_of_ascii z)) as [Eyz|Lyz|Gyz];
    try done.
  - rewrite Exy, Eyz, N.compare_refl. apply IH.
  - rewrite Exy. intros _ _. by rewrite (proj2 (N.compare_lt_iff _ _) Lyz).
  - rewrite <- Eyz. intros _ _. by rewrite (proj2 (N.compare_lt_iff _ _) Lxy).
  - intros _ _.
    by rewrite (proj2 (N.compare_lt_iff _ _) (N.lt_trans _ _ _ Lxy Lyz)).
Qed.

Lemma string_leb_trans a b c :
  String.leb a b = true → String.leb b c = true → String.leb a c = true.
Proof.
  unfold String.leb. intros Hab Hbc.
  pose proof (string_compare_trans a b c) as T.
  destruct (String.compare a b); destruct (String.compare b c);
    destruct (String.compare a c); try done; exfalso; by apply T.
Qed.

(** Folding a maximum over a list gives one of the elements, at least as
    large as all of them. *)
Section FoldMax.
Context {T : Type} (le : T → T → Prop) (mx : T → T → T).
Context (le_refl : ∀ a, le a a).
Context (le_trans : ∀ a b c, le a b → le b c → le a c).
Context (mx_l : ∀ a b, le a (mx a b)) (mx_r : ∀ a b, le b (mx a b)).
Context (mx_case : ∀ a b, mx a b = a ∨ mx a b = b).

Lemma fold_max_member x l : fold_left mx l x ∈ x :: l.
Proof.
  revert x. induction l as [|y l IH]; intros x; simpl; [by left|].
  specialize (IH (mx x y)). apply elem_of_cons in IH as [E|Hin].
  - rewrite E. destruct (mx_case x y) as [->| ->]; [by left | right; by left].
  - right. by right.
Qed.

Lemma fold_max_start x l : le x (fold_left mx l x).
Proof.
  revert x. induction l as [|y l IH]; intros x; simpl; [done|].
  eapply le_trans; [apply mx_l | apply IH].
Qed.

Lemma fold_max_bound x l w : w ∈ x :: l → le w (fold_left mx l x).
Proof.
  revert x. induction l as [|y l IH]; intros x; simpl.
  - intros [->|Hin%elem_of_nil]%elem_of_cons; done.
  - intros [->|[->|Hin]%elem_of_cons]%elem_of_cons.
    + eapply le_trans; [apply mx_l | apply fold_max_start].
    + eapply le_trans; [apply mx_r | apply fold_max_start].
    + apply IH. by right.
Qed.
End FoldMax.

Lemma ints_member z (l : list value) : z ∈ ints l ↔ VInt z ∈ l.
Proof.
  unfold ints. rewrite list_elem_of_omap. split.
  - intros (v & Hv & E). destruct v; by simplify_eq.
  - intros Hin. by exists (VInt z).
Qed.

Lemma strs_member t (l : list value) : t ∈ strs l ↔ VStr t ∈ l.
Proof.
  unfold strs. rewrite list_elem_of_omap. split.
  - intros (v & Hv & E). destruct v; by simplify_eq.
  - intros Hin. by exists (VStr t).
Qed.

Lemma str_max_case a b : str_max a b = a ∨ str_max a b = b.
Proof. unfold str_max. destruct (String.leb a b); auto. Qed.

Lemma str_max_l a b : String.leb a (str_max a b) = true.
Proof.
  unfold str_max. destruct (String.leb a b) eqn:E; [done|].
  apply string_leb_refl.
Qed.

Lemma str_max_r a b : String.leb b (str_max a b) = true.
Proof.
  unfold str_max. destruct (String.leb a b) eqn:E; [apply string_leb_refl|].
  destruct (String.leb_total a b); [congruence | done].
Qed.

(** [series.max()] on comparable cells: it returns; [numpy.nan] when no
    cell is there or all cells are empty, and the maximum when some cell is
    not empty. *)
Lemma series_max_comparable l :
  comparable l →
  ∃ red, series_max l = Return red
    ∧ ((∀ v, v ∈ l → v = VNaN) → red = NumpyNan)
    ∧ (∀ v, v ∈ l → v ≠ VNaN → ∃ top, red = Got top ∧ is_maximum top l).
Proof.
  intros Hc. destruct l as [|v0 l0] eqn:El.
  { exists NumpyNan. repeat split; try done. by intros v ?%elem_of_nil. }
  cbv beta iota delta [series_max]. rewrite <- El in Hc |- *.
  destruct (ints l) as [|z zs] eqn:Ei; destruct (strs l) as [|t ts] eqn:Es.
  - (* nothing but nan *)
    eexists. split; [done|]. split; [done|].
    intros v Hv Hne. exfalso. destruct v as [z|t|]; [| |done].
    + apply ints_member in Hv. rewrite Ei in Hv. by apply elem_of_nil in Hv.
    + apply strs_member in Hv. rewrite Es in Hv. by apply elem_of_nil in Hv.
  - (* strings *)
    destruct Hc as [Hc|[_ Hnn]]; [congruence|].
    replace (existsb is_nan l) with false; cycle 1.
    { symmetry. apply not_true_is_false. intros Hex.
      apply existsb_exists in Hex as (v & Hv & Hnan).
      apply (Hnn v); [by apply list_elem_of_In | by destruct v]. }
    eexists. split; [done|]. split.
    + intros Hall. exfalso.
      assert (VStr t ∈ l) as Hin by (apply strs_member; rewrite Es; by left).
      by specialize (Hall _ Hin).
    + intros _ _ _. eexists. split; [done|]. repeat split; [|done|].
      * apply strs_member. rewrite Es.
        apply (fold_max_member str_max str_max_case).
      * intros w Hw Hne. destruct w as [z|u|]; [| |done].
        -- apply ints_member in Hw. rewrite Ei in Hw. by apply elem_of_nil in Hw.
        -- simpl. apply strs_member in Hw. rewrite Es in Hw.
           by apply (fold_max_bound (λ a b, String.leb a b = true) str_max
                       string_leb_refl string_leb_trans str_max_l str_max_r).
  - (* numbers *)
    eexists. split; [done|]. split.
    + intros Hall. exfalso.
      assert (VInt z ∈ l) as Hin by (apply ints_member; rewrite Ei; by left).
      by specialize (Hall _ Hin).
    + intros _ _ _. eexists. split; [done|]. repeat split; [|done|].
      * apply ints_member. rewrite Ei.
        apply (fold_max_member Z.max).
        intros a b. destruct (Z.max_spec a b) as [[_ ->]|[_ ->]]; auto.
      * intros w Hw Hne. destruct w as [y|u|]; [| |done].
        -- simpl. apply ints_member in Hw. rewrite Ei in Hw.
           apply (fold_max_bound Z.le Z.max Z.le_refl Z.le_trans
                    Z.le_max_l Z.le_max_r). done.
        -- apply strs_member in Hw. rewrite Es in Hw. by apply elem_of_nil in Hw.
  - (* numbers next to strings *)
    destruct Hc as [Hc|[Hc _]]; congruence.
Qed.

(** Reading a column of the projection of a row is reading it in the row. *)
Lemma at_column_projection cols cells keys c :
  c ∈ keys →
  at_column keys (map (at_column cols cells) keys) c = at_column cols cells c.
Proof.
  unfold at_column at 1. unfold cell.
  induction keys as [|k keys IH]; [by intros ?%elem_of_nil|].
  intros Hin. simpl. destruct (String.eqb_spec c k) as [->|Hne]; [done|].
  apply elem_of_cons in Hin as [?|Hin]; [done|].
  specialize (IH Hin). by destruct (col_pos c keys).
Qed.

(** The loop of [max] returns when every reduction does, and then binds
    every column to its reduction, with 0 for [numpy.nan]. *)
Lemma max_loop_returns table cols acc :
  (∀ c, c ∈ cols → ∃ red, series_max (column_values table c) = Return red) →
  ∃ res, max_loop table cols acc = Return res
    ∧ ∀ c red, series_max (column_values table c) = Return red →
        (c ∈ cols → dict_get c res = Some (or_zero red))
        ∧ (c ∉ cols → dict_get c res = dict_get c acc).
Proof.
  revert acc. induction cols as [|col cols IH]; intros acc Hret; simpl.
  - exists acc. split; [done|]. intros c red _. split; [by intros ?%elem_of_nil | done].
  - destruct (Hret col) as [red0 Hred0]; [by left|]. rewrite Hred0. simpl.
    destruct (IH (dict_set col (or_zero red0) acc)) as (res & Hres & Hall).
    { intros c Hc. apply Hret. by right. }
    exists res. split; [done|]. intros c red Hred.
    destruct (Hall c red Hred) as [Hin Hout]. split.
    + intros Hc. destruct (decide (c ∈ cols)) as [Hc'|Hc']; [by apply Hin|].
      apply elem_of_cons in Hc as [->|?]; [|done].
      rewrite (Hout Hc'). rewrite dict_get_set_eq. congruence.
    + intros Hc. apply not_elem_of_cons in Hc as [Hne Hc'].
      rewrite (Hout Hc'). by apply dict_get_set_ne.
Qed.

Lemma max_keeps_table query : keeps self (max query).
Proof. unfold max. keeps_auto. Qed.

Lemma dict_contains_get {V} k (d : list (string * V)) v :
  dict_get k d = Some v → dict_contains k d = true.
Proof. unfold dict_contains. by intros ->. Qed.

(** [max] on a query without ['state'] is [max] on the query with the
    empty state in place. *)
Lemma max_without_state s r q :
  heap s !! r = Some q →
  dict_contains "state" q = false →
  max (Some r) s
  = max (Some r)
      (mkState (self s) (<[r := dict_set "state" (QMap []) q]> (heap s)) (disk s)).
Proof.
  intros Hq Hc.
  assert (Hlt : (r < length (heap s))%nat) by (by eapply lookup_lt_Some).
  unfold max.
  erewrite bind_return by reflexivity.
  erewrite bind_return by (by apply deref_lookup).
  rewrite Hc.
  erewrite bind_return by (by apply setitem_lookup).
  symmetry.
  erewrite bind_return by reflexivity.
  erewrite bind_return
    by (apply deref_lookup; simpl; by apply list_lookup_insert_eq).
  rewrite (dict_contains_get "state" _ (QMap [])) by apply dict_get_set_eq.
  erewrite bind_return by reflexivity.
  reflexivity.
Qed.

(** [max] on a query with its state in place. *)
Lemma max_with_state s r q kws (df : DataFrame) cs m :
  heap s !! r = Some q →
  __keywords (self s) = Some kws →
  _df (self s) = Some df →
  dict_get "columns" q = Some (QNames cs) →
  dict_get "state" q = Some (QMap m) →
  entries_pass kws q →
  (∀ c, c ∈ cs → c ∈ fcolumns df) →
  (∀ k, k ∈ dict_keys m → k ∈ fcolumns df) →
  (∀ c, c ∈ cs → comparable (selected_values df m c)) →
  ∃ res, (max (Some r) s).1 = Return res
    ∧ ∀ c, c ∈ cs →
        ∃ red, series_max (selected_values df m c) = Return red
               ∧ dict_get c res = Some (or_zero red).
Proof.
  intros Hq Hk Hdf Hcols Hst Hshape Hcs Hm Hcmp.
  set (rows := List.filter (row_meets py_eq (fcolumns df) m) (frows df)).
  set (table := mkFrame (walk cs)
                  (map (λ r : nat * list value,
                          (r.1, map (at_column (fcolumns df) r.2) (walk cs)))
                     rows)).
  assert (Hval : ∀ c, c ∈ cs → column_values table c = selected_values df m c).
  { intros c Hc. unfold column_values, selected_values, table. simpl.
    rewrite map_map. apply map_ext. intros row. simpl.
    apply at_column_projection. by apply elem_of_walk. }
  destruct (max_loop_returns table (walk cs) []) as (res & Hres & Hall).
  { intros c Hc%elem_of_walk. rewrite (Hval c Hc).
    destruct (series_max_comparable _ (Hcmp c Hc)) as (red & Hred & _).
    by exists red. }
  exists res. split.
  - unfold max.
    erewrite bind_return by reflexivity.
    erewrite bind_return by (by apply deref_lookup).
    rewrite (dict_contains_get _ _ _ Hst).
    erewrite bind_return by reflexivity.
    erewrite bind_return; cycle 1.
    { eapply validation_returns; try done.
      intros x ->%elem_of_singleton. unfold query_set.
      apply elem_of_list_to_set. by eapply dict_get_in_keys. }
    erewrite bind_return by (by apply deref_lookup).
    erewrite bind_return by (by apply subscript_some).
    erewrite bind_return by (by apply filter_returns).
    rewrite (dict_contains_get _ _ _ Hcols).
    erewrite bind_return; cycle 1.
    { erewrite bind_return by (by apply subscript_some).
      unfold lift, getitem.
      rewrite getitem_list_returns; [reflexivity|].
      intros c Hc%elem_of_walk. simpl. by apply Hcs. }
    simpl. unfold lift. fold rows. fold table. by rewrite Hres.
  - intros c Hc.
    destruct (series_max_comparable _ (Hcmp c Hc)) as (red & Hred & _).
    exists red. split; [done|].
    apply (Hall c red); [by rewrite Hval | by apply elem_of_walk].
Qed.

(** C4, as the code has it.  Take a [max] query whose ['columns'] is a set
    of columns of the table, whose state (the dict under ['state'], or the
    empty one when the key is absent) names columns of the table, and whose
    other recognised entries are dicts; and let the selected cells of every
    requested column be comparable: numbers, possibly with empty cells, or
    strings only.  Then [max] returns, leaves the table as it was, and for
    every requested column:
    - if no row is selected, or the selected cells are all empty, the
      result binds the column to the number 0;
    - otherwise it binds the column to the maximum of the selected cells in
      the natural order, empty cells skipped. *)
Theorem max_of_comparable_columns (s : state) (r : nat)
    (q : pydict) (kws : gset string) (df : DataFrame) (cs : gset string)
    (m : list (string * value)) :
  heap s !! r = Some q →
  __keywords (self s) = Some kws →
  _df (self s) = Some df →
  dict_get "columns" q = Some (QNames cs) →
  state_of q m →
  (∀ kw entry, kw ∈ kws → kw ≠ "columns" → dict_get kw q = Some entry →
               ∃ m', entry = QMap m') →
  (∀ c, c ∈ cs → c ∈ fcolumns df) →
  (∀ k, k ∈ dict_keys m → k ∈ fcolumns df) →
  (∀ c, c ∈ cs → comparable (selected_values df m c)) →
  ∃ res, (max (Some r) s).1 = Return res
    ∧ self (max (Some r) s).2 = self s
    ∧ ∀ c, c ∈ cs →
        let vals := selected_values df m c in
        ((∀ v, v ∈ vals → v = VNaN) → dict_get c res = Some (VInt 0))
        ∧ (∀ v, v ∈ vals → v ≠ VNaN →
           ∃ top, dict_get c res = Some top ∧ is_maximum top vals).
Proof.
  intros Hq Hk Hdf Hcols Hst Hdicts Hcs Hm Hcmp.
  assert (Hshape : entries_pass kws q).
  { split; [done|]. intros _. by rewrite Hcols. }
  assert (∃ res, (max (Some r) s).1 = Return res
            ∧ ∀ c, c ∈ cs →
                ∃ red, series_max (selected_values df m c) = Return red
                       ∧ dict_get c res = Some (or_zero red))
    as (res & Hres & Hall).
  { unfold state_of in Hst. destruct (dict_get "state" q) as [entry|] eqn:Est.
    - subst entry. by eapply max_with_state.
    - subst m.
      assert (Hc : dict_contains "state" q = false)
        by (unfold dict_contains; by rewrite Est).
      assert (Hlt : (r < length (heap s))%nat) by (by eapply lookup_lt_Some).
      rewrite (max_without_state s r q Hq Hc).
      eapply (max_with_state _ r (dict_set "state" (QMap []) q) kws df cs []);
        simpl; try done.
      + by apply list_lookup_insert_eq.
      + by rewrite dict_get_set_ne.
      + apply dict_get_set_eq.
      + by apply entries_pass_with_state. }
  exists res. split; [done|]. split; [apply max_keeps_table|].
  intros c Hc vals.
  destruct (Hall c Hc) as (red & Hred & Hget).
  destruct (series_max_comparable _ (Hcmp c Hc))
    as (red' & Hred' & Hnone & Hsome).
  assert (red' = red) as -> by congruence.
  rewrite Hget. split.
  - intros Hall'. by rewrite (Hnone Hall').
  - intros v Hv Hne. destruct (Hsome v Hv Hne) as (top & -> & Htop).
    by exists top.
Qed.

(* ===================================================================== *)
(** * What a validated query looks like *)
(* ===================================================================== *)

Lemma bind_returned {A B} (m : M A) (k : A → M B) s b :
  ((m ≫= k) s).1 = Return b →
  ∃ a s1, m s = (Return a, s1) ∧ (k a s1).1 = Return b.
Proof.
  unfold mbind, M_bind. destruct (m s) as [[a|e] s1]; simpl; [|done].
  intros E. by exists a, s1.
Qed.

Lemma for_each_returned {A} (l : list A) (body : A → M unit) s :
  (∀ a, keeps id (body a)) →
  (for_each l body s).1 = Return tt →
  ∀ a, a ∈ l → (body a s).1 = Return tt.
Proof.
  intros Hk. induction l as [|x l IH]; simpl; [by intros _ a ?%elem_of_nil|].
  intros (u & s1 & Ex & Erest)%bind_returned a Ha.
  assert (s1 = s) as ->.
  { pose proof (Hk x s) as K. rewrite Ex in K. exact K. }
  apply elem_of_cons in Ha as [->|Ha].
  - rewrite Ex. by destruct u.
  - by apply IH.
Qed.

(** Once validation has returned, the entry under every recognised key
    other than ['columns'], ['state'] among them, is a dict: for anything
    else [.keys()] has raised AttributeError. *)
Lemma validated_state_is_dict s r q kws must_have kw entry :
  heap s !! r = Some q →
  __keywords (self s) = Some kws →
  kw ∈ kws → kw ≠ "columns" →
  dict_get kw q = Some entry →
  (__query_validation (Some r) must_have s).1 = Return tt →
  ∃ m, entry = QMap m.
Proof.
  intros Hq Hk Hkw Hne Hentry. unfold __query_validation.
  erewrite bind_return by (simpl; by apply deref_lookup).
  erewrite bind_return by (by apply attr_some).
  rewrite are_contained_true.
  erewrite bind_return by reflexivity.
  intros (u & s1 & Ea & Eloop)%bind_returned.
  assert (s1 = s) as ->.
  { destruct must_have; unfold lift, mret, M_ret in Ea; by injection Ea. }
  eapply (for_each_returned _ _ s) in Eloop; cycle 1.
  { intros a. keeps_auto. }
  { unfold extract_match. apply list_elem_of_filter. split; [exact Hkw|].
    apply elem_of_walk. unfold query_set. apply elem_of_list_to_set.
    by eapply dict_get_in_keys. }
  simpl in Eloop.
  erewrite bind_return in Eloop by (by apply subscript_some).
  unfold named_columns in Eloop.
  destruct (String.eqb_spec kw "columns"); [done|].
  destruct entry as [c|cs|m|]; [done|done| |done]. by exists m.
Qed.

(** And the entry under ['columns'], when the key is recognised, is one
    that can be walked: for another [set] has raised TypeError. *)
Lemma validation_returned_columns s r q kws must_have :
  heap s !! r = Some q →
  __keywords (self s) = Some kws →
  "columns" ∈ kws →
  dict_get "columns" q = Some QOther →
  (__query_validation (Some r) must_have s).1 ≠ Return tt.
Proof.
  intros Hq Hk Hkw Hentry. unfold __query_validation.
  erewrite bind_return by (simpl; by apply deref_lookup).
  erewrite bind_return by (by apply attr_some).
  rewrite are_contained_true.
  erewrite bind_return by reflexivity.
  intros (u & s1 & Ea & Eloop)%bind_returned.
  assert (s1 = s) as ->.
  { destruct must_have; unfold lift, mret, M_ret in Ea; by injection Ea. }
  eapply (for_each_returned _ _ s) in Eloop; cycle 1.
  { intros a. keeps_auto. }
  { unfold extract_match. apply list_elem_of_filter. split; [exact Hkw|].
    apply elem_of_walk. unfold query_set. apply elem_of_list_to_set.
    by eapply dict_get_in_keys. }
  simpl in Eloop.
  erewrite bind_return in Eloop by (by apply subscript_some).
  done.
Qed.

(* ===================================================================== *)
(** * [edit] on columns that the table has *)
(* ===================================================================== *)

Lemma col_pos_member c cols : c ∈ cols → is_Some (col_pos c cols).
Proof.
  induction cols as [|c' cols IH]; [by intros ?%elem_of_nil|].
  intros Hin. simpl. destruct (String.eqb_spec c c') as [->|Hne]; [by eexists|].
  apply elem_of_cons in Hin as [?|Hin]; [done|].
  destruct (IH Hin) as [p ->]. by eexists.
Qed.

Lemma for_each_preserves_members {A} I (l : list A) (body : A → M unit) :
  (∀ a, a ∈ l → preserves I (body a)) → preserves I (for_each l body).
Proof.
  induction l as [|a l IH]; intros Hb; simpl; [by intros s|].
  apply preserves_bind; [apply Hb; by left|].
  intros _. apply IH. intros b Hb'. apply Hb. by right.
Qed.

Lemma save_keeps_table path sep : keeps self (save path sep).
Proof.
  unfold save. keeps_auto.
  all: intros s; unfold to_csv; destruct a; by destruct (one_character _).
Qed.

(** One step of the loop of [edit], for a column of the table, leaves the
    columns as they are. *)
Lemma edit_step_keeps_columns cols state values kw :
  kw ∈ cols →
  preserves (has_columns cols)
    (v ← lift (item values kw);
     df ← attr _df;
     mask ← lift (state_mask py_eq df state);
     df ← lift (loc_setitem df mask kw v);
     set_df df).
Proof.
  intros Hkw s (df & Hdf & Hcols). unfold mbind, M_bind, lift, attr. simpl.
  destruct (item values kw) as [v|e]; simpl; [|by exists df].
  rewrite Hdf. simpl.
  destruct (state_mask py_eq df state) as [mask|e]; simpl; [|by exists df].
  unfold loc_setitem. rewrite <- Hcols in Hkw.
  destruct (col_pos_member _ _ Hkw) as [p ->]. simpl.
  eexists. split; [reflexivity|]. done.
Qed.

(** When the keys of ['values'] are columns of the table, [edit] leaves the
    list of columns as it is, returning or raising. *)
Lemma edit_keeps_known_columns s r q m cols save_flag :
  heap s !! r = Some q →
  dict_get "values" q = Some (QMap m) →
  (∀ k, k ∈ dict_keys m → k ∈ cols) →
  has_columns cols s →
  has_columns cols (edit (Some r) save_flag s).2.
Proof.
  intros Hq Hv Hin Hs. unfold edit.
  destruct (__query_validation (Some r) (Some {[ "state"; "values" ]}) s)
    as [[[]|e] s1] eqn:Ev.
  2: { erewrite bind_raise by done. simpl.
       pose proof (validation_keeps id (Some r) (Some {[ "state"; "values" ]}) s) as K.
       rewrite Ev in K. simpl in K. by subst. }
  assert (s1 = s) as ->.
  { pose proof (validation_keeps id (Some r) (Some {[ "state"; "values" ]}) s) as K.
    by rewrite Ev in K. }
  erewrite bind_return by done.
  erewrite bind_return by (simpl; by apply deref_lookup).
  destruct (dict_get "state" q) as [state|] eqn:Est; cycle 1.
  { erewrite bind_raise; [done|]. unfold subscript, lift. by rewrite Est. }
  erewrite bind_return by (by apply subscript_some).
  erewrite bind_return by (by apply subscript_some).
  erewrite bind_return by reflexivity.
  match goal with
  | |- has_columns cols (?m s).2 =>
      assert (P : preserves (has_columns cols) m); [|by apply P]
  end.
  apply preserves_bind.
  - apply for_each_preserves_members. intros kw Hkw.
    apply edit_step_keeps_columns. by apply Hin.
  - intros _. destruct save_flag; [|by intros s'].
    intros s' (df & Hdf & Hc). unfold has_columns.
    rewrite save_keeps_table. by exists df.
Qed.

(* ===================================================================== *)
(** * utils.py: matching, and paths *)
(* ===================================================================== *)

(** [extract_match] of two sets lists their common elements, each once. *)
Theorem extract_match_is_intersection (set1 set2 : gset string) :
  NoDup (extract_match set1 set2)
  ∧ ∀ x, x ∈ extract_match set1 set2 ↔ x ∈ set1 ∧ x ∈ set2.
Proof.
  unfold extract_match. split.
  - apply NoDup_filter, NoDup_walk.
  - intros x. rewrite list_elem_of_filter, elem_of_walk. tauto.
Qed.

Lemma prefix_one a c s : String.prefix (str a) (String c s) = Ascii.eqb a c.
Proof.
  unfold str. simpl. destruct (ascii_dec a c) as [->|Hne].
  - rewrite Ascii.eqb_refl. by destruct s.
  - by rewrite (proj2 (Ascii.eqb_neq a c) Hne).
Qed.

Lemma letters_app s t : letters (String.append s t) = letters s ++ letters t.
Proof. induction s as [|c s IH]; simpl; [done|]. by rewrite IH. Qed.

(** Replacing one character by a string, character by character. *)
Lemma letters_replace_one a new s :
  letters (replace (str a) new s)
  = concat (map (λ c, if Ascii.eqb a c then letters new else [c]) (letters s)).
Proof.
  unfold replace, str. fold (str a).
  induction s as [|c s IH]; simpl; [done|].
  change (String.length (str a) - 1)%nat with 0%nat.
  pose proof (prefix_one a c s) as P. simpl in P. unfold str in P. simpl in P.
  rewrite P. destruct (Ascii.eqb a c).
  - by rewrite letters_app, IH.
  - simpl. by rewrite IH.
Qed.

Lemma str_in_one a s : str_in (str a) s = true ↔ a ∈ letters s.
Proof.
  induction s as [|c s IH]; simpl.
  - split; [done | by intros ?%elem_of_nil].
  - pose proof (prefix_one a c s) as P. simpl in P. rewrite P.
    rewrite orb_true_iff, IH, elem_of_cons.
    destruct (Ascii.eqb_spec a c); split; intros [?|?]; auto; done.
Qed.

Lemma letters_drop_last s x : x ∈ letters (drop_last s) → x ∈ letters s.
Proof.
  induction s as [|c s IH]; simpl; [done|].
  destruct s as [|c' s']; [by intros ?%elem_of_nil|].
  intros [->|Hin]%elem_of_cons; [by left|]. right. by apply IH.
Qed.

Lemma last_char_none s : last_char s = None ↔ s = EmptyString.
Proof.
  induction s as [|c s IH]; simpl; [done|].
  destruct s as [|c' s']; [done|]. split; [|done].
  intros E. apply IH in E. done.
Qed.

Lemma letters_nil s : letters s = [] ↔ s = EmptyString.
Proof. destruct s; simpl; split; done. Qed.

Lemma letters_inj s t : letters s = letters t → s = t.
Proof.
  revert t. induction s as [|c s IH]; intros [|d t]; simpl; try done.
  intros [= -> E]. by rewrite (IH t E).
Qed.

Lemma drop_last_shorter s :
  s ≠ EmptyString → String.length (drop_last s) < String.length s.
Proof.
  induction s as [|c s IH]; [done|]. intros _.
  destruct s as [|c' s']; simpl; [lia|].
  simpl in IH. specialize (IH ltac:(done)). lia.
Qed.

Lemma map_absent (a b : ascii) l :
  a ∉ l → map (λ c, if Ascii.eqb a c then b else c) l = l.
Proof.
  induction l as [|c l IH]; simpl; [done|].
  intros [Hne Hno]%not_elem_of_cons.
  rewrite IH by done. by rewrite (proj2 (Ascii.eqb_neq a c)) by done.
Qed.

(** The separators of a path after the replacement of [normalize_path]. *)
Lemma slashed_letters path :
  letters (if str_in "\" path then replace "\" "/" path else path)
  = map (λ c, if Ascii.eqb "\" c then "/"%char else c) (letters path).
Proof.
  destruct (str_in "\" path) eqn:E.
  - change "\" with (str "\"). rewrite letters_replace_one.
    induction (letters path) as [|c l IH]; [done|].
    cbn [map concat]. destruct (Ascii.eqb "\" c); simpl; f_equal; exact IH.
  - assert (Hno : "\"%char ∉ letters path).
    { intros Hin. apply (str_in_one "\" path) in Hin.
      change (str "\") with "\" in Hin. congruence. }
    symmetry. by apply map_absent.
Qed.

(** After the replacement of [normalize_path] no backslash is left. *)
Lemma slashed_without_backslash (path : string) :
  "\"%char ∉ letters (if str_in "\" path then replace "\" "/" path else path).
Proof.
  rewrite slashed_letters. intros (c & E & _)%list_elem_of_fmap.
  destruct (Ascii.eqb_spec "\" c); [done | congruence].
Qed.

(** The path that [normalize_path] returns holds no backslash. *)
Theorem normalize_path_has_no_backslash (path result : string) :
  normalize_path path = Some result → "\"%char ∉ letters result.
Proof.
  unfold normalize_path.
  pose proof (slashed_without_backslash path) as Hp.
  destruct (last_char _) as [c|]; [|done].
  intros [= <-]. destruct (Ascii.eqb c "/"); [|done].
  intros Hin. by apply Hp, letters_drop_last.
Qed.

(** [normalize_path] raises, with IndexError, on the empty path and on no
    other. *)
Theorem normalize_path_raises_only_on_empty (path : string) :
  normalize_path path = None ↔ path = EmptyString.
Proof.
  unfold normalize_path.
  pose proof (slashed_letters path) as L.
  set (p := if str_in "\" path then replace "\" "/" path else path) in *.
  destruct (last_char p) as [c|] eqn:E.
  - split; [done|]. intros ->. by vm_compute in E.
  - split; [|done]. intros _. apply last_char_none in E.
    rewrite E in L. simpl in L. symmetry in L.
    apply letters_nil. by apply map_eq_nil in L.
Qed.

(** [normalize_path] gives a path back as it is exactly when the path is
    not empty, holds no backslash and does not end with a slash. *)
Theorem normalize_path_fixes_normal_paths (path : string) :
  normalize_path path = Some path
  ↔ path ≠ EmptyString ∧ ("\"%char ∉ letters path)
    ∧ last_char path ≠ Some "/"%char.
Proof.
  split.
  - intros E.
    assert (Hno : "\"%char ∉ letters path).
    { pose proof (slashed_without_backslash path) as Hp.
      unfold normalize_path in E.
      set (p := if str_in "\" path then replace "\" "/" path else path) in *.
      destruct (last_char p) as [c|]; [|done].
      injection E as E. destruct (Ascii.eqb c "/").
      - intros Hin. apply Hp, letters_drop_last. by rewrite E.
      - by rewrite E in Hp. }
    split; [|split].
    + intros ->. by vm_compute in E.
    + exact Hno.
    + unfold normalize_path in E.
      assert (str_in "\" path = false) as Hin.
      { apply not_true_is_false. intros H.
        by apply (str_in_one "\" path) in H. }
      rewrite Hin in E. intros Hl. rewrite Hl in E. simpl in E.
      injection E as E.
      assert (path ≠ EmptyString) as Hne by (intros ->; done).
      pose proof (drop_last_shorter path Hne) as Hlt. rewrite E in Hlt. lia.
  - intros (Hne & Hno & Hl). unfold normalize_path.
    assert (str_in "\" path = false) as ->.
    { apply not_true_is_false. intros H.
      by apply (str_in_one "\" path) in H. }
    destruct (last_char path) as [c|] eqn:E.
    + destruct (Ascii.eqb_spec c "/") as [->|]; [done | done].
    + by apply last_char_none in E.
Qed.

Lemma last_char_letters s : last_char s = last (letters s).
Proof.
  induction s as [|c s IH]; simpl; [done|].
  destruct s as [|c' s']; [done|]. rewrite IH. done.
Qed.

Lemma letters_drop_last_removelast s :
  letters (drop_last s) = removelast (letters s).
Proof.
  induction s as [|c s IH]; simpl; [done|].
  destruct s as [|c' s']; [done|]. simpl in *. by rewrite IH.
Qed.

(** [normalize_path] takes one slash off the end and no more: a path that
    ends with two slashes comes back ending with one, so a second call
    would change it again. *)
Theorem normalize_path_strips_one_slash (path : string) :
  ∃ result, normalize_path (String.append path "//") = Some result
            ∧ last_char result = Some "/"%char.
Proof.
  unfold normalize_path.
  pose proof (slashed_letters (String.append path "//")) as L.
  set (p := if str_in "\" (String.append path "//")
            then replace "\" "/" (String.append path "//")
            else String.append path "//") in *.
  set (l := map (λ c, if Ascii.eqb "\" c then "/"%char else c) (letters path)).
  assert (L' : letters p = l ++ ["/"%char; "/"%char]).
  { rewrite L, letters_app, map_app. reflexivity. }
  assert (El : last_char p = Some "/"%char).
  { rewrite last_char_letters, L'. by rewrite last_app. }
  rewrite El. rewrite Ascii.eqb_refl. eexists. split; [done|].
  rewrite last_char_letters, letters_drop_last_removelast, L'.
  rewrite removelast_app by done. by rewrite last_app.
Qed.

(* ===================================================================== *)
(** * utils.py: writing a file and reading it back *)
(* ===================================================================== *)

Lemma concat_singletons (l : list ascii) (f : ascii → list ascii) :
  (∀ c, c ∈ l → f c = [c]) → concat (map f l) = l.
Proof.
  induction l as [|c l IH]; simpl; [done|].
  intros H. rewrite (H c) by (by left). simpl. f_equal.
  apply IH. intros d Hd. apply H. by right.
Qed.

(** Writing with the line feed as separator stores the content as it is. *)
Lemma write_text_lf content : write_text (str LF) content = content.
Proof.
  apply letters_inj. unfold write_text. rewrite letters_replace_one.
  apply concat_singletons. intros c _.
  destruct (Ascii.eqb_spec LF c) as [<-|]; done.
Qed.

Lemma read_text_plain s : CR ∉ letters s → read_text s = s.
Proof.
  induction s as [|c s IH]; simpl; [done|].
  intros [Hne Hno]%not_elem_of_cons.
  rewrite (proj2 (Ascii.eqb_neq c CR)) by done. by rewrite IH.
Qed.

Lemma write_text_crlf_cons c s :
  write_text (str CR +:+ str LF) (String c s)
  = if Ascii.eqb LF c
    then String CR (String LF (write_text (str CR +:+ str LF) s))
    else String c (write_text (str CR +:+ str LF) s).
Proof.
  unfold write_text, replace. simpl.
  pose proof (prefix_one LF c s) as P. unfold str in P. simpl in P.
  rewrite P. by destruct (Ascii.eqb LF c).
Qed.

Lemma read_write_crlf s :
  CR ∉ letters s → read_text (write_text (str CR +:+ str LF) s) = s.
Proof.
  induction s as [|c s IH]; [done|].
  intros [Hne Hno]%not_elem_of_cons. rewrite write_text_crlf_cons.
  destruct (Ascii.eqb_spec LF c) as [<-|Hlf].
  - simpl. by rewrite IH.
  - cbn [read_text]. rewrite (proj2 (Ascii.eqb_neq c CR)) by done.
    by rewrite IH.
Qed.

(** What is read never holds a carriage return. *)
Lemma read_text_has_no_cr raw : CR ∉ letters (read_text raw).
Proof.
  assert (∀ (n : nat) raw, (String.length raw <= n)%nat →
                           CR ∉ letters (read_text raw)) as H.
  { clear raw. induction n as [|n IH]; intros raw Hlen.
    - destruct raw; [simpl; by intros ?%elem_of_nil | simpl in Hlen; lia].
    - destruct raw as [|c raw']; [simpl; by intros ?%elem_of_nil|].
      simpl in Hlen. cbn [read_text].
      destruct (Ascii.eqb_spec c CR) as [->|Hne].
      + destruct raw' as [|c' raw''].
        * simpl. by intros [?|?%elem_of_nil]%elem_of_cons.
        * simpl in Hlen. destruct (Ascii.eqb c' LF); cbn [letters];
            (intros [?|Hin]%elem_of_cons; [done|]);
            revert Hin; apply IH; simpl; lia.
      + cbn [letters]. intros [?|Hin]%elem_of_cons; [done|].
        revert Hin. apply IH. lia. }
  by apply (H (String.length raw)).
Qed.

(** Reading a file after [new_file] has written it gives the content
    written exactly when the content holds no carriage return, on a
    platform whose line separator is the line feed or carriage return and
    line feed. *)
Theorem read_file_after_new_file (linesep path content : string)
    (files : gmap string string) :
  linesep = str LF ∨ linesep = str CR +:+ str LF →
  read_file path (new_file linesep path content files) = Some content
  ↔ CR ∉ letters content.
Proof.
  intros Hsep. unfold read_file, new_file. rewrite lookup_insert_eq. simpl.
  split.
  - intros [= E]. rewrite <- E. apply read_text_has_no_cr.
  - intros Hno. f_equal. destruct Hsep as [-> | ->].
    + rewrite write_text_lf. by apply read_text_plain.
    + by apply read_write_crlf.
Qed.

(* ===================================================================== *)
(** * What validation decides *)
(* ===================================================================== *)

(** A loop whose steps leave the state either returns or raises what its
    first failing step raises. *)
Lemma for_each_outcome {A} (l : list A) (body : A → M unit) s :
  (∀ a, a ∈ l → body a s = (Return tt, s) ∨ ∃ e, body a s = (Raise e, s)) →
  for_each l body s = (Return tt, s)
  ∨ ∃ a e, a ∈ l ∧ body a s = (Raise e, s) ∧ for_each l body s = (Raise e, s).
Proof.
  induction l as [|a l IH]; intros Hb; simpl; [by left|].
  destruct (Hb a) as [E|[e E]]; [by left| |].
  - erewrite bind_return by done.
    destruct IH as [IH|(b & e & Hin & Eb & IH)].
    + intros b Hb'. apply Hb. by right.
    + by left.
    + right. exists b, e. split; [by right | done].
  - right. exists a, e. split; [by left|]. split; [done|].
    by erewrite bind_raise.
Qed.

(** What [set(columns)] raises, and on which entries. *)
Lemma named_columns_raises kw entry e :
  named_columns kw entry = Raise e →
  (kw = "columns" ∧ entry = QOther ∧ e = TypeError)
  ∨ (kw ≠ "columns" ∧ (∀ m, entry ≠ QMap m) ∧ e = AttributeError).
Proof.
  unfold named_columns. destruct (String.eqb_spec kw "columns") as [->|Hne].
  - destruct entry; simpl; try done. intros [= <-]. by left.
  - destruct entry; try done; intros [= <-]; right; by repeat split.
Qed.

Lemma must_have_present (q : pydict) (mh : gset string) :
  list_to_set (extract_match (query_set q) mh) = mh ↔ mh ⊆ query_set q.
Proof.
  rewrite extract_match_set. split.
  - intros E x Hx. rewrite <- E in Hx. by apply elem_of_intersection in Hx as [? _].
  - intros Hsub. apply set_eq. intros x. rewrite elem_of_intersection.
    split; [tauto|]. intros Hx. split; [by apply Hsub | done].
Qed.

Lemma validation_without_keys s r q kws must_have :
  heap s !! r = Some q →
  __keywords (self s) = Some kws →
  ¬ must_have ⊆ query_set q →
  __query_validation (Some r) (Some must_have) s = (Raise AssertionError, s).
Proof.
  intros Hq Hk Hsub. unfold __query_validation.
  erewrite bind_return by (simpl; by apply deref_lookup).
  erewrite bind_return by (by apply attr_some).
  rewrite are_contained_true.
  erewrite bind_return by reflexivity.
  erewrite bind_raise; [done|].
  unfold lift. rewrite bool_decide_eq_false_2; [done|].
  by rewrite must_have_present.
Qed.

(** With the required keys in place validation returns, or raises what
    [set(columns)] raises on an entry under a recognised key. *)
Lemma validation_with_keys s r q kws df must_have :
  heap s !! r = Some q →
  __keywords (self s) = Some kws →
  _df (self s) = Some df →
  must_have ⊆ query_set q →
  __query_validation (Some r) (Some must_have) s = (Return tt, s)
  ∨ ∃ kw entry e, kw ∈ kws ∧ dict_get kw q = Some entry
                  ∧ named_columns kw entry = Raise e
                  ∧ __query_validation (Some r) (Some must_have) s = (Raise e, s).
Proof.
  intros Hq Hk Hdf Hsub. unfold __query_validation.
  erewrite bind_return by (simpl; by apply deref_lookup).
  erewrite bind_return by (by apply attr_some).
  rewrite are_contained_true.
  erewrite bind_return by reflexivity.
  erewrite bind_return; cycle 1.
  { unfold lift. rewrite bool_decide_eq_true_2; [done|].
    by rewrite must_have_present. }
  match goal with
  | |- for_each ?l ?body s = _ ∨ _ =>
      destruct (for_each_outcome l body s) as [E|(kw & e & Hkw & Ekw & E)]
  end.
  - intros kw Hkw.
    unfold extract_match in Hkw.
    apply list_elem_of_filter in Hkw as [Hkws Hkq].
    apply elem_of_walk in Hkq. unfold query_set in Hkq.
    apply elem_of_list_to_set in Hkq.
    destruct (dict_get_keys _ _ Hkq) as [entry Hentry].
    erewrite bind_return by (by apply subscript_some).
    destruct (named_columns kw entry) as [cols|e] eqn:En.
    + left. erewrite bind_return by reflexivity.
      erewrite bind_return by (by apply attr_some).
      by rewrite are_contained_true.
    + right. exists e. erewrite bind_raise; [done | reflexivity].
  - by left.
  - right.
    unfold extract_match in Hkw.
    apply list_elem_of_filter in Hkw as [Hkws Hkq].
    apply elem_of_walk in Hkq. unfold query_set in Hkq.
    apply elem_of_list_to_set in Hkq.
    destruct (dict_get_keys _ _ Hkq) as [entry Hentry].
    exists kw, entry, e. split; [done|]. split; [done|]. split; [|done].
    erewrite bind_return in Ekw by (by apply subscript_some).
    destruct (named_columns kw entry) as [cols|e'] eqn:En.
    + erewrite bind_return in Ekw by reflexivity.
      erewrite bind_return in Ekw by (by apply attr_some).
      by rewrite are_contained_true in Ekw.
    + erewrite bind_raise in Ekw by reflexivity. congruence.
Qed.

(** With the required keys in place validation does not raise
    AssertionError. *)
Lemma validation_passes_assertion s r q kws df must_have :
  heap s !! r = Some q →
  __keywords (self s) = Some kws →
  _df (self s) = Some df →
  must_have ⊆ query_set q →
  (__query_validation (Some r) (Some must_have) s).1 ≠ Raise AssertionError.
Proof.
  intros Hq Hk Hdf Hsub.
  destruct (validation_with_keys s r q kws df must_have Hq Hk Hdf Hsub)
    as [-> | (kw & entry & e & _ & _ & En & ->)]; [done|].
  simpl. by destruct (named_columns_raises kw entry e En)
    as [(_ & _ & ->)|(_ & _ & ->)].
Qed.

(** Validation of a query that is a dict changes nothing and ends in one of
    four ways.  It raises AssertionError exactly when a required key is
    missing.  It returns exactly when the required keys are there, every
    entry under a recognised key other than ['columns'] is a dict, and the
    entry under ['columns'] can be walked.  Otherwise it raises
    AttributeError, and then an entry that should be a dict is none, or
    TypeError, and then the entry under ['columns'] cannot be walked; where
    both faults are there, the order in which the run walks the keys
    decides.  Keys outside the keywords and column names outside the table
    play no part. *)
Theorem validation_checks (s : state) (r : nat) (q : pydict)
    (kws : gset string) (df : DataFrame) (must_have : gset string) :
  heap s !! r = Some q →
  __keywords (self s) = Some kws →
  _df (self s) = Some df →
  let v := __query_validation (Some r) (Some must_have) s in
  v.2 = s
  ∧ (v.1 = Return tt ∨ v.1 = Raise AssertionError
     ∨ v.1 = Raise AttributeError ∨ v.1 = Raise TypeError)
  ∧ (v.1 = Raise AssertionError ↔ ¬ must_have ⊆ query_set q)
  ∧ (v.1 = Return tt ↔ must_have ⊆ query_set q ∧ entries_pass kws q)
  ∧ (v.1 = Raise AttributeError →
     ∃ kw entry, kw ∈ kws ∧ kw ≠ "columns" ∧ dict_get kw q = Some entry
                 ∧ ∀ m, entry ≠ QMap m)
  ∧ (v.1 = Raise TypeError →
     "columns" ∈ kws ∧ dict_get "columns" q = Some QOther).
Proof.
  intros Hq Hk Hdf v.
  assert (Hs : v.2 = s) by apply (validation_keeps id).
  split; [done|].
  destruct (decide (must_have ⊆ query_set q)) as [Hsub|Hsub]; cycle 1.
  { unfold v. rewrite (validation_without_keys s r q kws must_have) by done.
    simpl. split; [auto|]. split; [done|].
    split; [split; [done | by intros [? _]]|]. by split. }
  destruct (validation_with_keys s r q kws df must_have Hq Hk Hdf Hsub)
    as [Ho | (kw & entry & e & Hkw & Hentry & En & Ho)]; fold v in Ho.
  - rewrite Ho. simpl. split; [auto|]. split; [by split|].
    split; [|by split].
    split; [|done]. intros _. split; [done|]. split.
    + intros kw entry Hkw Hne Hentry.
      eapply (validated_state_is_dict s r q kws (Some must_have) kw entry);
        try done.
      fold v. by rewrite Ho.
    + intros Hkw Hcol.
      apply (validation_returned_columns s r q kws (Some must_have)
               Hq Hk Hkw Hcol).
      fold v. by rewrite Ho.
  - rewrite Ho. simpl.
    destruct (named_columns_raises kw entry e En)
      as [(-> & -> & ->)|(Hne & Hno & ->)].
    + split; [auto|]. split; [by split|]. split; [|by split].
      split; [done|]. intros [_ [_ Hcol]]. by destruct (Hcol Hkw).
    + split; [auto|]. split; [by split|]. split; [|split; [|done]].
      * split; [done|]. intros [_ [Hd _]].
        destruct (Hd kw entry Hkw Hne Hentry) as [m ->]. by destruct (Hno m).
      * intros _. by exists kw, entry.
Qed.

(* ===================================================================== *)
(** * Required keys *)
(* ===================================================================== *)

Lemma key_in_query k (q : pydict) : k ∈ query_set q ↔ dict_contains k q = true.
Proof.
  unfold query_set, dict_contains. rewrite elem_of_list_to_set. split.
  - intros [v ->]%dict_get_keys. done.
  - destruct (dict_get k q) as [v|] eqn:E; [|done]. intros _.
    by eapply dict_get_in_keys.
Qed.

Lemma state_mask_errors op df st e :
  state_mask op df st = Raise e → e = KeyError ∨ e = ValueError ∨ e = TypeError.
Proof.
  unfold state_mask. destruct st as [c|cs|m|].
  - destruct (bool_decide _); intros [= <-]; auto.
  - destruct (forallb _ _); intros [= <-]; auto.
  - unfold getitem_list. destruct (forallb _ _); simpl; [|intros [= <-]; auto].
    unfold cmp_series. simpl. destruct (bool_decide _); simpl; [done|].
    intros [= <-]. auto.
  - intros [= <-]. auto.
Qed.

Lemma getitem_errors df key e : getitem df key = Raise e → e = KeyError.
Proof.
  unfold getitem, getitem_list. destruct key as [c|cs|m|].
  - destruct (bool_decide _); [done | by intros [= <-]].
  - destruct (forallb _ _); simpl; [done | by intros [= <-]].
  - destruct (forallb _ _); simpl; [done | by intros [= <-]].
  - by intros [= <-].
Qed.

Lemma filter_avoids_AssertionError st : avoids AssertionError (__filter st).
Proof.
  unfold __filter. apply avoids_bind; [by apply avoids_attr | intros df].
  apply avoids_bind; [|intros mask; apply avoids_ret].
  apply avoids_lift. intros E.
  by destruct (state_mask_errors _ _ _ _ E) as [?|[?|?]].
Qed.

Lemma bind_avoid {A B} (m : M A) (k : A → M B) s e :
  (m s).1 ≠ Raise e → (∀ a, avoids e (k a)) → ((m ≫= k) s).1 ≠ Raise e.
Proof.
  intros Hm Hk. unfold mbind, M_bind.
  destruct (m s) as [[a|e'] s1]; simpl in *.
  - apply Hk.
  - intros [= ->]. by apply Hm.
Qed.

(** What [get] does after validation cannot raise AssertionError. *)
Lemma get_rest_avoids_AssertionError r dict_type :
  avoids AssertionError
    (q ← deref r;
     state ← subscript q "state";
     table ← __filter state;
     table ← (if dict_contains "columns" q
              then columns ← subscript q "columns";
                   table ← lift (getitem table columns);
                   mret match table with
                        | SSeries s => to_frame s
                        | SFrame f => f
                        end
              else mret table);
     mret (to_dict table dict_type)).
Proof.
  apply avoids_bind.
  { intros s. unfold deref. simpl. by destruct (heap s !! r). }
  intros q. apply avoids_bind; [by apply avoids_subscript | intros st].
  apply avoids_bind; [apply filter_avoids_AssertionError | intros table].
  apply avoids_bind; [|intros t; apply avoids_ret].
  destruct (dict_contains "columns" q); [|apply avoids_ret].
  apply avoids_bind; [by apply avoids_subscript | intros cols].
  apply avoids_bind; [|intros t; apply avoids_ret].
  apply avoids_lift. intros E. by apply getitem_errors in E.
Qed.

(** A required key that the query lacks makes [delete], [edit] and [max]
    raise AssertionError, with the table as it was ([max] has by then put
    ['state'] into the query).  [get] never raises AssertionError: the one
    key it requires, ['state'], is put into the query before validation. *)
Theorem required_keys (s : state) (r : nat) (q : pydict)
    (kws : gset string) (df : DataFrame) (save_flag : bool)
    (dict_type : orient) :
  heap s !! r = Some q →
  __keywords (self s) = Some kws →
  _df (self s) = Some df →
  (dict_contains "state" q = false →
   delete (Some r) save_flag s = (Raise AssertionError, s))
  ∧ (dict_contains "state" q = false ∨ dict_contains "values" q = false →
     edit (Some r) save_flag s = (Raise AssertionError, s))
  ∧ (dict_contains "columns" q = false →
     (max (Some r) s).1 = Raise AssertionError
     ∧ self (max (Some r) s).2 = self s)
  ∧ (get (Some r) dict_type s).1 ≠ Raise AssertionError.
Proof.
  intros Hq Hk Hdf.
  assert (Hlt : (r < length (heap s))%nat) by (by eapply lookup_lt_Some).
  split; [|split; [|split]].
  - intros Hc. unfold delete. erewrite bind_raise; [done|].
    eapply validation_without_keys; try done.
    intros Hsub. specialize (Hsub "state").
    rewrite key_in_query, Hc in Hsub. by specialize (Hsub ltac:(set_solver)).
  - intros Hc. unfold edit. erewrite bind_raise; [done|].
    eapply validation_without_keys; try done.
    intros Hsub. destruct Hc as [Hc|Hc].
    + specialize (Hsub "state").
      rewrite key_in_query, Hc in Hsub. by specialize (Hsub ltac:(set_solver)).
    + specialize (Hsub "values").
      rewrite key_in_query, Hc in Hsub. by specialize (Hsub ltac:(set_solver)).
  - intros Hc. split; [|apply max_keeps_table].
    unfold max.
    erewrite bind_return by reflexivity.
    erewrite bind_return by (by apply deref_lookup).
    destruct (dict_contains "state" q) eqn:Est.
    + erewrite bind_return by reflexivity.
      erewrite bind_raise; [done|].
      eapply validation_without_keys; try done.
      intros Hsub. specialize (Hsub "columns").
      rewrite key_in_query, Hc in Hsub. by specialize (Hsub ltac:(set_solver)).
    + erewrite bind_return by (by apply setitem_lookup).
      erewrite bind_raise; [done|].
      eapply validation_without_keys; simpl; try done.
      { by apply list_lookup_insert_eq. }
      intros Hsub. specialize (Hsub "columns").
      rewrite key_in_query in Hsub. unfold dict_contains in Hsub, Hc.
      rewrite dict_get_set_ne in Hsub by done.
      destruct (dict_get "columns" q); [done|].
      by specialize (Hsub ltac:(set_solver)).
  - unfold get.
    erewrite bind_return by reflexivity.
    erewrite bind_return by (by apply deref_lookup).
    destruct (dict_contains "state" q) eqn:Est.
    + erewrite bind_return by reflexivity.
      apply bind_avoid; [|intros _; apply get_rest_avoids_AssertionError].
      apply (validation_passes_assertion s r q kws df {[ "state" ]}); try done.
      intros x ->%elem_of_singleton. by apply key_in_query.
    + erewrite bind_return by (by apply setitem_lookup).
      apply bind_avoid; [|intros _; apply get_rest_avoids_AssertionError].
      match goal with
      | |- (__query_validation _ _ ?s1).1 ≠ _ =>
          apply (validation_passes_assertion s1 r (dict_set "state" (QMap []) q)
                   kws df {[ "state" ]}); simpl; try done
      end.
      * by apply list_lookup_insert_eq.
      * intros x ->%elem_of_singleton. apply key_in_query.
        unfold dict_contains. by rewrite dict_get_set_eq.
Qed.

(* ===================================================================== *)
(** * What [get] returns *)
(* ===================================================================== *)

Lemma get_keeps_self_state dict_type query : keeps self (get query dict_type).
Proof. unfold get. keeps_auto. Qed.

Lemma get_without_state dict_type s r q :
  heap s !! r = Some q →
  dict_contains "state" q = false →
  get (Some r) dict_type s
  = get (Some r) dict_type
      (mkState (self s) (<[r := dict_set "state" (QMap []) q]> (heap s)) (disk s)).
Proof.
  intros Hq Hc.
  assert (Hlt : (r < length (heap s))%nat) by (by eapply lookup_lt_Some).
  unfold get.
  erewrite bind_return by reflexivity.
  erewrite bind_return by (by apply deref_lookup).
  rewrite Hc.
  erewrite bind_return by (by apply setitem_lookup).
  symmetry.
  erewrite bind_return by reflexivity.
  erewrite bind_return
    by (apply deref_lookup; simpl; by apply list_lookup_insert_eq).
  rewrite (dict_contains_get "state" _ (QMap [])) by apply dict_get_set_eq.
  erewrite bind_return by reflexivity.
  reflexivity.
Qed.

Lemma get_with_state dict_type s r q kws (df : DataFrame) m columns :
  heap s !! r = Some q →
  __keywords (self s) = Some kws →
  _df (self s) = Some df →
  dict_get "state" q = Some (QMap m) →
  columns_of q df columns →
  entries_pass kws q →
  (∀ k, k ∈ dict_keys m → k ∈ fcolumns df) →
  get (Some r) dict_type s = (Return (to_dict (answer df m columns) dict_type), s).
Proof.
  intros Hq Hk Hdf Hst Hcols Hshape Hm. unfold get.
  erewrite bind_return by reflexivity.
  erewrite bind_return by (by apply deref_lookup).
  rewrite (dict_contains_get _ _ _ Hst).
  erewrite bind_return by reflexivity.
  erewrite bind_return; cycle 1.
  { eapply validation_returns; try done.
    intros x ->%elem_of_singleton. apply key_in_query.
    by eapply dict_contains_get. }
  erewrite bind_return by (by apply deref_lookup).
  erewrite bind_return by (by apply subscript_some).
  erewrite bind_return by (by apply filter_returns).
  unfold columns_of in Hcols.
  destruct (dict_get "columns" q) as [entry|] eqn:Ec.
  - destruct Hcols as (cs & -> & -> & Hcs).
    rewrite (dict_contains_get _ _ _ Ec).
    erewrite bind_return; cycle 1.
    { erewrite bind_return by (by apply subscript_some).
      erewrite bind_return; [reflexivity|].
      unfold lift, getitem. rewrite getitem_list_returns; [reflexivity|].
      intros c Hc%elem_of_walk. simpl. by apply Hcs. }
    reflexivity.
  - subst columns. unfold dict_contains. rewrite Ec.
    erewrite bind_return by reflexivity. reflexivity.
Qed.

(* ===================================================================== *)
(** * The scenarios of the specification, run on the code *)
(* ===================================================================== *)

(** [max] on a query with its state in place and a set of columns of the
    table: the loop runs over the projection of the selected rows. *)
Lemma max_runs s r q kws (df : DataFrame) cs m :
  heap s !! r = Some q →
  __keywords (self s) = Some kws →
  _df (self s) = Some df →
  dict_get "columns" q = Some (QNames cs) →
  dict_get "state" q = Some (QMap m) →
  entries_pass kws q →
  (∀ c, c ∈ cs → c ∈ fcolumns df) →
  (∀ k, k ∈ dict_keys m → k ∈ fcolumns df) →
  max (Some r) s
  = (max_loop (projected (selected df m) (walk cs)) (walk cs) [], s).
Proof.
  intros Hq Hk Hdf Hcols Hst Hshape Hcs Hm. unfold max.
  erewrite bind_return by reflexivity.
  erewrite bind_return by (by apply deref_lookup).
  rewrite (dict_contains_get _ _ _ Hst).
  erewrite bind_return by reflexivity.
  erewrite bind_return; cycle 1.
  { eapply validation_returns; try done.
    intros x ->%elem_of_singleton. unfold query_set.
    apply elem_of_list_to_set. by eapply dict_get_in_keys. }
  erewrite bind_return by (by apply deref_lookup).
  erewrite bind_return by (by apply subscript_some).
  erewrite bind_return by (by apply filter_returns).
  rewrite (dict_contains_get _ _ _ Hcols).
  erewrite bind_return; cycle 1.
  { erewrite bind_return by (by apply subscript_some).
    unfold lift, getitem.
    rewrite getitem_list_returns; [reflexivity|].
    intros c Hc%elem_of_walk. simpl. by apply Hcs. }
  reflexivity.
Qed.

(** The same when the set names a column that the table lacks. *)
Lemma max_unknown_column s r q kws (df : DataFrame) cs m c :
  heap s !! r = Some q →
  __keywords (self s) = Some kws →
  _df (self s) = Some df →
  dict_get "columns" q = Some (QNames cs) →
  dict_get "state" q = Some (QMap m) →
  entries_pass kws q →
  (∀ k, k ∈ dict_keys m → k ∈ fcolumns df) →
  c ∈ cs → c ∉ fcolumns df →
  max (Some r) s = (Raise KeyError, s).
Proof.
  intros Hq Hk Hdf Hcols Hst Hshape Hm Hc Hno. unfold max.
  erewrite bind_return by reflexivity.
  erewrite bind_return by (by apply deref_lookup).
  rewrite (dict_contains_get _ _ _ Hst).
  erewrite bind_return by reflexivity.
  erewrite bind_return; cycle 1.
  { eapply validation_returns; try done.
    intros x ->%elem_of_singleton. unfold query_set.
    apply elem_of_list_to_set. by eapply dict_get_in_keys. }
  erewrite bind_return by (by apply deref_lookup).
  erewrite bind_return by (by apply subscript_some).
  erewrite bind_return by (by apply filter_returns).
  rewrite (dict_contains_get _ _ _ Hcols).
  erewrite bind_raise; [done|].
  erewrite bind_return by (by apply subscript_some).
  unfold lift, getitem.
  rewrite (getitem_list_raises _ (walk cs) c); [done | by apply elem_of_walk | done].
Qed.

(** C9.  On the table with columns animal and color and the rows
    (dog, red), (cat, black), (dog, black), [get] with state
    [{animal: 'dog'}] and columns [{'color'}] under the default output
    shape returns [{color: ['red', 'black']}]: a dict from the one selected
    column to the list of its cells. *)
Theorem get_dog_colors :
  (get (Some 0%nat) default_dict_type
     (animals_table [("state", QMap [("animal", VStr "dog")]);
                     ("columns", QNames {[ "color" ]})])).1
  = Return (AsList [("color", [VStr "red"; VStr "black"])]).
Proof.
  erewrite (get_with_state default_dict_type _ 0
              [("state", QMap [("animal", VStr "dog")]);
               ("columns", QNames {[ "color" ]})]
              {[ "columns"; "state"; "values" ]} animals_frame
              [("animal", VStr "dog")] (Some {[ "color" ]})).
  2-5: reflexivity.
  - unfold answer. rewrite walk_singleton. vm_compute. reflexivity.
  - unfold columns_of. cbn [dict_get String.eqb Ascii.eqb Bool.eqb].
    exists {[ "color" ]}. split; [done|]. split; [done|].
    intros c ->%elem_of_singleton. right. by left.
  - entries_pass_here.
  - intros k [->|?%elem_of_nil]%elem_of_cons; [by left | done].
Qed.

(** C1, on the code.  A query with the top-level key foo is accepted by all
    four validating methods: [get] returns every row, [delete] and [edit]
    return, [max] returns the maxima; none raises ValueError. *)
Theorem unknown_key_is_accepted :
  (get (Some 0%nat) orient_list
     (animals_table [("foo", QName "x")])).1
  = Return (AsList [("animal", [VStr "dog"; VStr "cat"; VStr "dog"]);
                    ("color", [VStr "red"; VStr "black"; VStr "black"])])
  ∧ (delete (Some 0%nat) false
       (animals_table [("foo", QName "x"); ("state", QMap [])])).1
    = Return tt
  ∧ (edit (Some 0%nat) false
       (animals_table [("foo", QName "x"); ("state", QMap []);
                       ("values", QMap [])])).1
    = Return tt
  ∧ (max (Some 0%nat)
       (animals_table [("foo", QName "x");
                       ("columns", QNames {[ "color" ]})])).1
    = Return [("color", VStr "red")].
Proof.
  split; [|split; [|split]].
  - erewrite (get_without_state orient_list _ 0 [("foo", QName "x")]).
    2-3: reflexivity.
    erewrite (get_with_state orient_list _ 0
                [("foo", QName "x"); ("state", QMap [])]
                {[ "columns"; "state"; "values" ]} animals_frame [] None).
    2-6: reflexivity.
    + vm_compute. reflexivity.
    + entries_pass_here.
    + by intros k ?%elem_of_nil.
  - erewrite (delete_keeps_rows_failing_every_condition _ 0
                [("foo", QName "x"); ("state", QMap [])]
                {[ "columns"; "state"; "values" ]} animals_frame []).
    2-5: reflexivity.
    + reflexivity.
    + entries_pass_here.
    + by intros k ?%elem_of_nil.
  - unfold edit. erewrite bind_return; cycle 1.
    { eapply (validation_returns _ 0 _ _ animals_frame);
        [reflexivity | reflexivity | reflexivity | keys_here | entries_pass_here]. }
    vm_compute. reflexivity.
  - erewrite (max_without_state _ 0
                [("foo", QName "x"); ("columns", QNames {[ "color" ]})]).
    2-3: reflexivity.
    erewrite (max_runs _ 0
                [("foo", QName "x"); ("columns", QNames {[ "color" ]});
                 ("state", QMap [])]
                {[ "columns"; "state"; "values" ]} animals_frame
                {[ "color" ]} []).
    2-6: reflexivity.
    + rewrite walk_singleton. vm_compute. reflexivity.
    + entries_pass_here.
    + intros c ->%elem_of_singleton. right. by left.
    + by intros k ?%elem_of_nil.
Qed.

(** C2, on the code.  [delete] with the state
    [{animal: 'dog', color: 'red'}] leaves only (cat, black): the row
    (dog, black), which meets the first condition and fails the second, is
    dropped with the row (dog, red) that meets both. *)
Theorem delete_drops_partial_matches :
  let s := delete (Some 0%nat) false
             (animals_table [("state", QMap [("animal", VStr "dog");
                                             ("color", VStr "red")])]) in
  s.1 = Return tt
  ∧ _df (self s.2)
    = Some (mkFrame ["animal"; "color"] [(1%nat, [VStr "cat"; VStr "black"])]).
Proof.
  erewrite (delete_keeps_rows_failing_every_condition _ 0
              [("state", QMap [("animal", VStr "dog"); ("color", VStr "red")])]
              {[ "columns"; "state"; "values" ]} animals_frame
              [("animal", VStr "dog"); ("color", VStr "red")]).
  2-5: reflexivity.
  - split; reflexivity.
  - entries_pass_here.
  - intros k Hk. repeat (apply elem_of_cons in Hk as [->|Hk]).
    + by left.
    + right. by left.
    + by apply elem_of_nil in Hk.
Qed.

(** C3, on the code.  [edit] with values [{size: 3}], a column that the
    table does not have, is not rejected: it returns, and the table has the
    new column size afterwards, with 3 in the row that the state selects
    and nan in the others. *)
Theorem edit_adds_a_column :
  let s := edit (Some 0%nat) false
             (animals_table [("state", QMap [("animal", VStr "cat")]);
                             ("values", QMap [("size", VInt 3)])]) in
  s.1 = Return tt
  ∧ _df (self s.2)
    = Some (mkFrame ["animal"; "color"; "size"]
              [(0%nat, [VStr "dog"; VStr "red"; VNaN]);
               (1%nat, [VStr "cat"; VStr "black"; VInt 3]);
               (2%nat, [VStr "dog"; VStr "black"; VNaN])]).
Proof.
  unfold edit. erewrite bind_return; cycle 1.
  { eapply (validation_returns _ 0 _ _ animals_frame);
      [reflexivity | reflexivity | reflexivity | keys_here | entries_pass_here]. }
  split; vm_compute; reflexivity.
Qed.

(** C6, on the code.  Column names that the table does not have pass
    validation.  Under ['values'] they go unnoticed by [get], which
    returns every row; under ['state'] or ['columns'] the call raises only
    when the frame is indexed, and then KeyError, not ValueError. *)
Theorem unknown_column_passes_validation :
  (__query_validation (Some 0%nat) (Some {[ "state" ]})
     (animals_table [("state", QMap [("weight", VInt 1)]);
                     ("columns", QNames {[ "height" ]})])).1
  = Return tt
  ∧ (get (Some 0%nat) orient_list
       (animals_table [("values", QMap [("weight", VInt 1)])])).1
    = Return (AsList [("animal", [VStr "dog"; VStr "cat"; VStr "dog"]);
                      ("color", [VStr "red"; VStr "black"; VStr "black"])])
  ∧ (delete (Some 0%nat) false
       (animals_table [("state", QMap [("weight", VInt 1)])])).1
    = Raise KeyError
  ∧ (max (Some 0%nat)
       (animals_table [("columns", QNames {[ "height" ]})])).1
    = Raise KeyError.
Proof.
  split; [|split; [|split]].
  - erewrite (validation_returns _ 0 _ _ animals_frame);
      [reflexivity | reflexivity | reflexivity | reflexivity
      | keys_here | entries_pass_here].
  - erewrite (get_without_state orient_list _ 0
                [("values", QMap [("weight", VInt 1)])]).
    2-3: reflexivity.
    erewrite (get_with_state orient_list _ 0
                [("values", QMap [("weight", VInt 1)]); ("state", QMap [])]
                {[ "columns"; "state"; "values" ]} animals_frame [] None).
    2-6: reflexivity.
    + vm_compute. reflexivity.
    + entries_pass_here.
    + by intros k ?%elem_of_nil.
  - unfold delete. erewrite bind_return; cycle 1.
    { eapply (validation_returns _ 0 _ _ animals_frame);
        [reflexivity | reflexivity | reflexivity | keys_here | entries_pass_here]. }
    vm_compute. reflexivity.
  - erewrite (max_without_state _ 0 [("columns", QNames {[ "height" ]})]).
    2-3: reflexivity.
    erewrite (max_unknown_column _ 0
                [("columns", QNames {[ "height" ]}); ("state", QMap [])]
                {[ "columns"; "state"; "values" ]} animals_frame
                {[ "height" ]} [] "height").
    2-6: reflexivity.
    + reflexivity.
    + entries_pass_here.
    + by intros k ?%elem_of_nil.
    + by apply elem_of_singleton.
    + intros Hin. repeat (apply elem_of_cons in Hin as [?|Hin]; [done|]).
      by apply elem_of_nil in Hin.
Qed.

(** C7, on the code.  [delete] with the empty state, which every row
    meets, drops no row, and [get] with the same state on the result still
    returns the three rows. *)
Theorem delete_all_then_get_finds_rows :
  let s := delete (Some 0%nat) false (animals_table [("state", QMap [])]) in
  s.1 = Return tt
  ∧ (get (Some 0%nat) orient_records s.2).1
    = Return (AsRecords
                [[("animal", VStr "dog"); ("color", VStr "red")];
                 [("animal", VStr "cat"); ("color", VStr "black")];
                 [("animal", VStr "dog"); ("color", VStr "black")]]).
Proof.
  erewrite (delete_keeps_rows_failing_every_condition _ 0
              [("state", QMap [])]
              {[ "columns"; "state"; "values" ]} animals_frame []).
  2-5: reflexivity.
  - split; [reflexivity|]. cbn [snd].
    erewrite (get_with_state orient_records _ 0 [("state", QMap [])]
                {[ "columns"; "state"; "values" ]}
                (mkFrame ["animal"; "color"]
                   (List.filter (row_meets py_ne ["animal"; "color"] [])
                      (frows animals_frame))) [] None).
    2-6: reflexivity.
    + vm_compute. reflexivity.
    + entries_pass_here.
    + by intros k ?%elem_of_nil.
  - entries_pass_here.
  - by intros k ?%elem_of_nil.
Qed.

(** [get] returns the rows of the table whose cells equal the required
    value for every key of the state, in the order of the table and with
    their labels, cut down to the columns of the query when it names a set
    of them, which come in the order in which the run walks that set, in
    the output shape asked for; and the table stays as it was.  The query
    may lack ['state']: then every row is returned. *)
Theorem get_returns_matching_rows (dict_type : orient) (s : state) (r : nat)
    (q : pydict) (kws : gset string) (df : DataFrame)
    (m : list (string * value)) (columns : option (gset string)) :
  heap s !! r = Some q →
  __keywords (self s) = Some kws →
  _df (self s) = Some df →
  state_of q m →
  columns_of q df columns →
  entries_pass kws q →
  (∀ k, k ∈ dict_keys m → k ∈ fcolumns df) →
  (get (Some r) dict_type s).1 = Return (to_dict (answer df m columns) dict_type)
  ∧ self (get (Some r) dict_type s).2 = self s.
Proof.
  intros Hq Hk Hdf Hst Hcols Hshape Hm.
  split; [|apply (get_keeps_self_state dict_type (Some r) s)].
  unfold state_of in Hst. destruct (dict_get "state" q) as [entry|] eqn:Est.
  - subst entry. by erewrite get_with_state.
  - subst m.
    assert (Hc : dict_contains "state" q = false)
      by (unfold dict_contains; by rewrite Est).
    assert (Hlt : (r < length (heap s))%nat) by (by eapply lookup_lt_Some).
    rewrite (get_without_state dict_type s r q Hq Hc).
    erewrite (get_with_state dict_type _ r (dict_set "state" (QMap []) q) kws df []);
      simpl; try done.
    + by apply list_lookup_insert_eq.
    + apply dict_get_set_eq.
    + unfold columns_of in *. by rewrite dict_get_set_ne.
    + by apply entries_pass_with_state.
Qed.

Lemma filter_all op cols (rows : list (nat * list value)) :
  List.filter (row_meets op cols []) rows = rows.
Proof. induction rows as [|r rows IH]; simpl; [done|]. by rewrite IH. Qed.

Lemma selected_all (df : DataFrame) : selected df [] = df.
Proof. unfold selected. rewrite filter_all. by destruct df. Qed.

(** [get] on a dict that was just made, the last one of the heap. *)
Lemma get_on_new_dict (dict_type : orient) (s : state)
    (kws : gset string) (df : DataFrame) :
  __keywords (self s) = Some kws →
  _df (self s) = Some df →
  get (Some (length (heap s))) dict_type
    (mkState (self s) (heap s ++ [[]]) (disk s))
  = (Return (to_dict df dict_type),
     mkState (self s) (heap s ++ [[("state", QMap [])]]) (disk s)).
Proof.
  intros Hk Hdf.
  assert (Hn : (heap s ++ [[]]) !! length (heap s) = Some ([] : pydict)).
  { rewrite lookup_app_r by done. by rewrite Nat.sub_diag. }
  rewrite (get_without_state dict_type
             (mkState (self s) (heap s ++ [[]]) (disk s))
             (length (heap s)) [] Hn eq_refl).
  simpl.
  assert (Hins : <[length (heap s) := [("state", QMap [])]]> (heap s ++ [[]])
                 = heap s ++ [[("state", QMap [])]]).
  { rewrite insert_app_r_alt by done. by rewrite Nat.sub_diag. }
  rewrite Hins.
  erewrite (get_with_state dict_type _ (length (heap s)) [("state", QMap [])]
              kws df [] None); simpl; try done.
  - by rewrite selected_all.
  - rewrite lookup_app_r by done. by rewrite Nat.sub_diag.
  - apply entries_pass_state_only.
  - by intros k ?%elem_of_nil.
Qed.

(** [get()] without a query returns the whole table in the shape asked
    for.  The dict it works on is a new one, holding ['state'] only; the
    dicts of the caller, the table and the files stay as they were. *)
Theorem get_without_query (dict_type : orient) (s : state)
    (kws : gset string) (df : DataFrame) :
  __keywords (self s) = Some kws →
  _df (self s) = Some df →
  get None dict_type s
  = (Return (to_dict df dict_type),
     mkState (self s) (heap s ++ [[("state", QMap [])]]) (disk s)).
Proof.
  intros Hk Hdf.
  transitivity (get (Some (length (heap s))) dict_type
                  (mkState (self s) (heap s ++ [[]]) (disk s))).
  - reflexivity.
  - by apply (get_on_new_dict dict_type s kws df).
Qed.

(** A state that names a column outside the table makes [delete], [get]
    and [max] raise KeyError, from the frame, with the table, the query and
    the files as they were. *)
Theorem unknown_state_column (s : state) (r : nat)
    (q : pydict) (kws : gset string) (df : DataFrame)
    (m : list (string * value)) (k : string) (save_flag : bool)
    (dict_type : orient) :
  heap s !! r = Some q →
  __keywords (self s) = Some kws →
  _df (self s) = Some df →
  dict_get "state" q = Some (QMap m) →
  entries_pass kws q →
  k ∈ dict_keys m → k ∉ fcolumns df →
  delete (Some r) save_flag s = (Raise KeyError, s)
  ∧ get (Some r) dict_type s = (Raise KeyError, s)
  ∧ (dict_contains "columns" q = true →
     max (Some r) s = (Raise KeyError, s)).
Proof.
  intros Hq Hk Hdf Hst Hshape Hin Hno.
  assert (Hf : __filter (QMap m) s = (Raise KeyError, s)).
  { unfold __filter. erewrite bind_return by (by apply attr_some).
    erewrite bind_raise; [done|]. unfold lift.
    by rewrite (state_mask_unknown_column py_eq df m k). }
  split; [|split].
  - unfold delete.
    erewrite bind_return; cycle 1.
    { eapply validation_returns; try done.
      intros x ->%elem_of_singleton. apply key_in_query.
      by eapply dict_contains_get. }
    erewrite bind_return by (simpl; by apply deref_lookup).
    erewrite bind_return by (by apply attr_some).
    erewrite bind_return by (by apply subscript_some).
    erewrite bind_raise; [done|]. unfold lift.
    by rewrite (state_mask_unknown_column py_ne df m k).
  - unfold get.
    erewrite bind_return by reflexivity.
    erewrite bind_return by (by apply deref_lookup).
    rewrite (dict_contains_get _ _ _ Hst).
    erewrite bind_return by reflexivity.
    erewrite bind_return; cycle 1.
    { eapply validation_returns; try done.
      intros x ->%elem_of_singleton. apply key_in_query.
      by eapply dict_contains_get. }
    erewrite bind_return by (by apply deref_lookup).
    erewrite bind_return by (by apply subscript_some).
    by erewrite bind_raise.
  - intros Hc. unfold max.
    erewrite bind_return by reflexivity.
    erewrite bind_return by (by apply deref_lookup).
    rewrite (dict_contains_get _ _ _ Hst).
    erewrite bind_return by reflexivity.
    erewrite bind_return; cycle 1.
    { eapply validation_returns; try done.
      intros x ->%elem_of_singleton. by apply key_in_query. }
    erewrite bind_return by (by apply deref_lookup).
    erewrite bind_return by (by apply subscript_some).
    by erewrite bind_raise.
Qed.

(* ===================================================================== *)
(** * What [delete] leaves *)
(* ===================================================================== *)

Lemma save_keeps_heap path sep : keeps heap (save path sep).
Proof.
  unfold save. keeps_auto.
  all: intros s; unfold to_csv; destruct a; by destruct (one_character _).
Qed.

Lemma fails_all_is_meets_none cols m (row : nat * list value) :
  row_meets py_ne cols m row
  = negb (existsb (λ kv, py_eq (at_column cols row.2 kv.1) kv.2) m).
Proof.
  unfold row_meets, py_ne. induction m as [|[k v] m IH]; simpl; [done|].
  rewrite IH. by rewrite negb_orb.
Qed.

Lemma delete_state s r q kws (df : DataFrame) m save_flag :
  heap s !! r = Some q →
  __keywords (self s) = Some kws →
  _df (self s) = Some df →
  dict_get "state" q = Some (QMap m) →
  entries_pass kws q →
  (∀ k, k ∈ dict_keys m → k ∈ fcolumns df) →
  self (delete (Some r) save_flag s).2
  = mkTable
      (Some (mkFrame (fcolumns df)
               (List.filter (row_meets py_ne (fcolumns df) m) (frows df))))
      (__path (self s)) (__sep (self s)) (__keywords (self s))
  ∧ heap (delete (Some r) save_flag s).2 = heap s.
Proof.
  intros Hq Hk Hdf Hst Hshape Hin. unfold delete.
  erewrite bind_return; cycle 1.
  { eapply validation_returns; try done.
    intros x ->%elem_of_singleton. apply key_in_query.
    by eapply dict_contains_get. }
  erewrite bind_return by (simpl; by apply deref_lookup).
  erewrite bind_return by (by apply attr_some).
  erewrite bind_return by (by apply subscript_some).
  erewrite bind_return by (unfold lift; by rewrite state_mask_dict).
  erewrite bind_return by reflexivity.
  unfold loc_mask. rewrite select_rows_map.
  destruct save_flag; [|done].
  by rewrite save_keeps_table, save_keeps_heap.
Qed.

(** [delete] drops the rows that meet at least one condition of the state
    and keeps the others, in their order and with their labels; the columns
    and the other attributes stay, and so does the query.  This holds
    whatever the save flag, also when saving raises afterwards. *)
Theorem delete_drops_rows_meeting_any_condition (s : state) (r : nat)
    (q : pydict) (kws : gset string) (df : DataFrame)
    (m : list (string * value)) (save_flag : bool) :
  heap s !! r = Some q →
  __keywords (self s) = Some kws →
  _df (self s) = Some df →
  dict_get "state" q = Some (QMap m) →
  entries_pass kws q →
  (∀ k, k ∈ dict_keys m → k ∈ fcolumns df) →
  self (delete (Some r) save_flag s).2
  = mkTable
      (Some (mkFrame (fcolumns df)
               (List.filter
                  (λ row, negb (existsb
                                  (λ kv, py_eq (at_column (fcolumns df) row.2 kv.1) kv.2)
                                  m))
                  (frows df))))
      (__path (self s)) (__sep (self s)) (__keywords (self s))
  ∧ heap (delete (Some r) save_flag s).2 = heap s.
Proof.
  intros Hq Hk Hdf Hst Hshape Hin.
  destruct (delete_state s r q kws df m save_flag) as [-> ->]; try done.
  split; [|done]. do 3 f_equal.
  apply filter_ext. intros row. apply fails_all_is_meets_none.
Qed.

(** After [delete] with a state that has at least one key, [get] with the
    same query finds no row: it returns the shape of a table without rows,
    over the columns of the table or over those that the query names, in
    the order in which the run walks their set.  (With the empty state
    [delete] drops nothing.) *)
Theorem delete_then_get_finds_nothing (s : state) (r : nat) (q : pydict)
    (kws : gset string) (df : DataFrame) (m : list (string * value))
    (columns : option (gset string)) (save_flag : bool) (dict_type : orient) :
  heap s !! r = Some q →
  __keywords (self s) = Some kws →
  _df (self s) = Some df →
  dict_get "state" q = Some (QMap m) →
  columns_of q df columns →
  entries_pass kws q →
  (∀ k, k ∈ dict_keys m → k ∈ fcolumns df) →
  m ≠ [] →
  (get (Some r) dict_type (delete (Some r) save_flag s).2).1
  = Return (to_dict (match columns with
                     | None => mkFrame (fcolumns df) []
                     | Some cs => mkFrame (walk cs) []
                     end) dict_type).
Proof.
  intros Hq Hk Hdf Hst Hcols Hshape Hin Hm.
  destruct (delete_state s r q kws df m save_flag) as [Hself Hheap]; try done.
  set (s' := (delete (Some r) save_flag s).2) in *.
  set (df' := mkFrame (fcolumns df)
                (List.filter (row_meets py_ne (fcolumns df) m) (frows df))) in *.
  rewrite (get_with_state dict_type s' r q kws df' m columns).
  - simpl. f_equal. f_equal. unfold answer, selected, df'. simpl.
    rewrite no_row_meets_deleted_state by done. by destruct columns.
  - by rewrite Hheap.
  - by rewrite Hself.
  - by rewrite Hself.
  - done.
  - done.
  - done.
  - done.
Qed.

(* ===================================================================== *)
(** * What [edit] writes *)
(* ===================================================================== *)

Lemma col_pos_lookup c cols p : col_pos c cols = Some p → cols !! p = Some c.
Proof.
  revert p. induction cols as [|c' cols IH]; intros p; simpl; [done|].
  destruct (String.eqb_spec c c') as [->|Hne]; [by intros [= <-]|].
  destruct (col_pos c cols) as [p'|]; simpl; [|done].
  intros [= <-]. simpl. by apply IH.
Qed.

Lemma at_column_insert cols cells kw p v c :
  col_pos kw cols = Some p →
  (p < length cells)%nat →
  at_column cols (<[p := v]> cells) c
  = if String.eqb c kw then v else at_column cols cells c.
Proof.
  intros Hp Hlt. unfold at_column, cell.
  destruct (String.eqb_spec c kw) as [->|Hne].
  - rewrite Hp. simpl. by rewrite list_lookup_insert_eq.
  - destruct (col_pos c cols) as [p'|] eqn:Hp'; simpl; [|done].
    rewrite list_lookup_insert_ne; [done|].
    intros <-. apply col_pos_lookup in Hp, Hp'. congruence.
Qed.

Lemma zip_with_map {A B C} (f : A → B → C) (g : A → B) l :
  zip_with f l (map g l) = map (λ x, f x (g x)) l.
Proof. induction l as [|x l IH]; simpl; [done|]. by rewrite IH. Qed.

Lemma row_meets_same op cols m (row row' : nat * list value) :
  (∀ k, k ∈ dict_keys m → at_column cols row'.2 k = at_column cols row.2 k) →
  row_meets op cols m row' = row_meets op cols m row.
Proof.
  unfold row_meets. induction m as [|[k v] m IH]; simpl; [done|].
  intros H. rewrite (H k) by (by left). f_equal. apply IH.
  intros k' Hk'. apply H. by right.
Qed.

Lemma Forall2_map_r {A B C} (P : A → C → Prop) (f : B → C) l k :
  Forall2 (λ x y, P x (f y)) l k → Forall2 P l (map f k).
Proof. induction 1; simpl; by constructor. Qed.

(** One assignment of the loop of [edit] on rows that are as the keys done
    so far have left them. *)
Lemma edit_row_step dn cols m vm kw v p (row row' : nat * list value) :
  col_pos kw cols = Some p →
  dict_get kw vm = Some v →
  length row.2 = length cols →
  (∀ k, k ∈ dict_keys m → k ∉ dn) →
  edited_on dn cols m vm row row' →
  edited_on (dn ++ [kw]) cols m vm row
    (if row_meets py_eq cols m row' then (row'.1, <[p := v]> row'.2) else row').
Proof.
  intros Hp Hv Hlen Hdis (Hl & Hn & Hc).
  assert (Hsame : row_meets py_eq cols m row' = row_meets py_eq cols m row).
  { apply row_meets_same. intros k Hk. rewrite Hc.
    rewrite (bool_decide_eq_false_2 (k ∈ dn)) by (by apply Hdis).
    by rewrite andb_false_r. }
  rewrite Hsame. destruct (row_meets py_eq cols m row) eqn:Em.
  - split; [done|]. split; [simpl; by rewrite length_insert|].
    intros c. simpl.
    assert (p < length row'.2)%nat as Hlt.
    { rewrite Hn, Hlen. apply lookup_lt_Some with kw. by apply col_pos_lookup. }
    rewrite (at_column_insert cols row'.2 kw p v c Hp Hlt), Hc, Em. simpl.
    destruct (String.eqb_spec c kw) as [->|Hne].
    + rewrite bool_decide_eq_true_2 by (apply elem_of_app; right; by left).
      by rewrite Hv.
    + destruct (decide (c ∈ dn)) as [Hin|Hin].
      * rewrite !bool_decide_eq_true_2; [done | | done].
        apply elem_of_app. by left.
      * rewrite !bool_decide_eq_false_2; [done | | done].
        intros [?|[?|?%elem_of_nil]%elem_of_cons]%elem_of_app; done.
  - split; [done|]. split; [done|]. intros c. by rewrite Hc, Em.
Qed.

(** The loop of [edit] over keys that are columns outside the state. *)
Lemma edit_loop cols (rows : list (nat * list value)) m vm ks :
  ∀ dn s (df : DataFrame),
    _df (self s) = Some df →
    fcolumns df = cols →
    Forall2 (λ row row', length row.2 = length cols
                         ∧ edited_on dn cols m vm row row') rows (frows df) →
    (∀ k, k ∈ dict_keys m → k ∈ cols) →
    (∀ k, k ∈ dict_keys m → k ∉ dn ++ ks) →
    (∀ k, k ∈ ks → k ∈ cols ∧ k ∈ dict_keys vm) →
    ∃ df', for_each ks
             (λ kw, v ← lift (item (QMap vm) kw);
                    df ← attr _df;
                    mask ← lift (state_mask py_eq df (QMap m));
                    df ← lift (loc_setitem df mask kw v);
                    set_df df) s
           = (Return tt,
              mkState (mkTable (Some df') (__path (self s)) (__sep (self s))
                         (__keywords (self s))) (heap s) (disk s))
           ∧ fcolumns df' = cols
           ∧ Forall2 (λ row row', length row.2 = length cols
                                  ∧ edited_on (dn ++ ks) cols m vm row row')
               rows (frows df').
Proof.
  induction ks as [|kw ks IH]; intros dn s df Hdf Hcols Hrows Hm Hdis Hks.
  - exists df. simpl. rewrite app_nil_r. split; [|done].
    unfold mret, M_ret. destruct s as [[d p sp kw] h dk]. simpl in *. by subst.
  - destruct (Hks kw) as [Hkc Hkv]; [by left|].
    destruct (col_pos_member kw cols Hkc) as [p Hp].
    destruct (dict_get_keys kw vm Hkv) as [v Hv].
    set (df1 := mkFrame cols
                  (map (λ r, if row_meets py_eq cols m r
                             then (r.1, <[p := v]> r.2) else r) (frows df))).
    set (s1 := mkState (mkTable (Some df1) (__path (self s)) (__sep (self s))
                          (__keywords (self s))) (heap s) (disk s)).
    assert (Hstep : (v ← lift (item (QMap vm) kw);
                     df ← attr _df;
                     mask ← lift (state_mask py_eq df (QMap m));
                     df ← lift (loc_setitem df mask kw v);
                     set_df df) s = (Return tt, s1)).
    { erewrite bind_return by (unfold lift, item; by rewrite Hv).
      erewrite bind_return by (by apply attr_some).
      erewrite bind_return; cycle 1.
      { unfold lift. rewrite state_mask_dict; [done|].
        intros k Hk. rewrite Hcols. by apply Hm. }
      erewrite bind_return; cycle 1.
      { unfold lift, loc_setitem. rewrite Hcols, Hp.
        by rewrite zip_with_map. }
      reflexivity. }
    destruct (IH (dn ++ [kw]) s1 df1) as (df' & Hloop & Hc' & Hr'); try done.
    + unfold df1. simpl. apply Forall2_map_r.
      eapply Forall2_impl; [exact Hrows|].
      intros row row' [Hlen Hrr]. split; [done|].
      apply (edit_row_step dn cols m vm kw v p row row'); try done.
      intros k Hk Hd. apply (Hdis k Hk). apply elem_of_app. by left.
    + intros k Hk. rewrite <- app_assoc. by apply Hdis.
    + intros k Hk. apply Hks. by right.
    + exists df'. rewrite <- app_assoc in Hr'.
      split; [|by split]. simpl for_each.
      erewrite bind_return by exact Hstep. exact Hloop.
Qed.

Lemma dict_get_outside_keys {V} k (d : list (string * V)) :
  k ∉ dict_keys d → dict_get k d = None.
Proof.
  intros Hno. destruct (dict_get k d) as [v|] eqn:E; [|done].
  exfalso. apply Hno. by eapply dict_get_in_keys.
Qed.

(** [edit] with values for columns of the table that the state does not
    mention: every row keeps its label and its place; a row that meets the
    state gets the new value under every column of ['values'] and keeps its
    other cells; a row that does not meet the state keeps all its cells;
    the columns stay as they are.  This is what the table holds after the
    call whatever the save flag; and with the flag false the call
    returns. *)
Theorem edit_assigns_values_to_matching_rows (s : state) (r : nat)
    (q : pydict) (kws : gset string) (df : DataFrame)
    (m vm : list (string * value)) (save_flag : bool) :
  heap s !! r = Some q →
  __keywords (self s) = Some kws →
  _df (self s) = Some df →
  dict_get "state" q = Some (QMap m) →
  dict_get "values" q = Some (QMap vm) →
  entries_pass kws q →
  wf_frame df →
  (∀ k, k ∈ dict_keys m → k ∈ fcolumns df) →
  (∀ k, k ∈ dict_keys vm → k ∈ fcolumns df ∧ k ∉ dict_keys m) →
  ∃ df', _df (self (edit (Some r) save_flag s).2) = Some df'
    ∧ fcolumns df' = fcolumns df
    ∧ Forall2
        (λ row row',
           row'.1 = row.1
           ∧ ∀ c, at_column (fcolumns df) row'.2 c
                  = if row_meets py_eq (fcolumns df) m row
                    then default (at_column (fcolumns df) row.2 c) (dict_get c vm)
                    else at_column (fcolumns df) row.2 c)
        (frows df) (frows df')
    ∧ (save_flag = false → (edit (Some r) save_flag s).1 = Return tt).
Proof.
  intros Hq Hk Hdf Hst Hv Hshape Hwf Hm Hvm.
  destruct (edit_loop (fcolumns df) (frows df) m vm (dict_keys vm) [] s df)
    as (df' & Hloop & Hcols & Hrows); try done.
  { apply Forall_Forall2_diag. apply Forall_forall. intros row Hrow.
    split; [by apply Hwf|]. split; [done|]. split; [done|].
    intros c. by rewrite andb_false_r. }
  { intros k Hk' Hk''. simpl in Hk''. by destruct (Hvm k Hk''). }
  { intros k Hk'. destruct (Hvm k Hk'). done. }
  exists df'.
  assert (Hrun : edit (Some r) save_flag s
                 = (if save_flag then save None None else mret tt)
                     (mkState (mkTable (Some df') (__path (self s)) (__sep (self s))
                                 (__keywords (self s))) (heap s) (disk s))).
  { unfold edit.
    erewrite bind_return; cycle 1.
    { eapply validation_returns; try done.
      intros x [->%elem_of_singleton | ->%elem_of_singleton]%elem_of_union;
        apply key_in_query; by eapply dict_contains_get. }
    erewrite bind_return by (simpl; by apply deref_lookup).
    erewrite bind_return by (by apply subscript_some).
    erewrite bind_return by (by apply subscript_some).
    erewrite bind_return by reflexivity.
    erewrite bind_return by exact Hloop.
    reflexivity. }
  rewrite Hrun. split; [|split; [done|split]].
  - destruct save_flag; [by rewrite save_keeps_table | done].
  - eapply Forall2_impl; [exact Hrows|].
    intros row row' (_ & Hl & _ & Hc). split; [done|].
    intros c. rewrite Hc. simpl.
    destruct (row_meets py_eq (fcolumns df) m row); [|done]. simpl.
    destruct (decide (c ∈ dict_keys vm)) as [Hin|Hin].
    + by rewrite bool_decide_eq_true_2.
    + rewrite bool_decide_eq_false_2 by done.
      by rewrite dict_get_outside_keys.
  - by intros ->.
Qed.

(** [edit] with a value for a column that the table lacks is not refused.
    On a table with rows the column is added as the last one, holding the
    value in the rows that meet the state and nan in the others; on a table
    without rows the call raises ValueError, from the frame, and the table
    stays as it was. *)
Theorem edit_adds_unknown_column (s : state) (r : nat) (q : pydict)
    (kws : gset string) (df : DataFrame) (m : list (string * value))
    (k : string) (v : value) (save_flag : bool) :
  heap s !! r = Some q →
  __keywords (self s) = Some kws →
  _df (self s) = Some df →
  dict_get "state" q = Some (QMap m) →
  dict_get "values" q = Some (QMap [(k, v)]) →
  entries_pass kws q →
  (∀ k', k' ∈ dict_keys m → k' ∈ fcolumns df) →
  k ∉ fcolumns df →
  (frows df ≠ [] →
   _df (self (edit (Some r) save_flag s).2)
   = Some (mkFrame (fcolumns df ++ [k])
             (map (λ row, (row.1, row.2 ++ [if row_meets py_eq (fcolumns df) m row
                                            then v else VNaN]))
                (frows df))))
  ∧ (frows df = [] → edit (Some r) save_flag s = (Raise ValueError, s)).
Proof.
  intros Hq Hk Hdf Hst Hv Hshape Hm Hno.
  assert (Hpos : col_pos k (fcolumns df) = None).
  { destruct (col_pos k (fcolumns df)) as [p|] eqn:E; [|done].
    exfalso. apply Hno. apply list_elem_of_lookup. exists p.
    by apply col_pos_lookup. }
  assert (Hval : __query_validation (Some r) (Some {[ "state"; "values" ]}) s
                 = (Return tt, s)).
  { eapply validation_returns; try done.
    intros x [->%elem_of_singleton | ->%elem_of_singleton]%elem_of_union;
      apply key_in_query; by eapply dict_contains_get. }
  split.
  - intros Hrows. unfold edit.
    erewrite bind_return by exact Hval.
    erewrite bind_return by (simpl; by apply deref_lookup).
    erewrite bind_return by (by apply subscript_some).
    erewrite bind_return by (by apply subscript_some).
    erewrite bind_return by reflexivity.
    erewrite bind_return; cycle 1.
    { cbn [dict_keys map fst for_each].
      erewrite bind_return; cycle 1.
      { erewrite bind_return by (unfold lift; simpl; by rewrite String.eqb_refl).
        erewrite bind_return by (by apply attr_some).
        erewrite bind_return by (unfold lift; by rewrite state_mask_dict).
        erewrite bind_return; cycle 1.
        { unfold lift, loc_setitem. rewrite Hpos.
          destruct (frows df) eqn:E; [done|]. rewrite <- E.
          by rewrite zip_with_map. }
        reflexivity. }
      reflexivity. }
    destruct save_flag; [by rewrite save_keeps_table | done].
  - intros Hrows. unfold edit.
    erewrite bind_return by exact Hval.
    erewrite bind_return by (simpl; by apply deref_lookup).
    erewrite bind_return by (by apply subscript_some).
    erewrite bind_return by (by apply subscript_some).
    erewrite bind_return by reflexivity.
    erewrite bind_raise; [done|].
    cbn [dict_keys map fst for_each].
    erewrite bind_raise; [done|].
    erewrite bind_return by (unfold lift; simpl; by rewrite String.eqb_refl).
    erewrite bind_return by (by apply attr_some).
    erewrite bind_return by (unfold lift; by rewrite state_mask_dict).
    erewrite bind_raise; [done|].
    unfold lift, loc_setitem. by rewrite Hpos, Hrows.
Qed.

(* ===================================================================== *)
(** * Saving: explicit paths, and tables without [__path] *)
(* ===================================================================== *)

(** On a table whose [__path] was never assigned (one built without
    argument), [save()] without a path raises AttributeError and changes
    nothing; and [delete], [edit] and [append] called with the save flag
    true do all that they do with the flag false and then raise
    AttributeError where that call would have returned: the change to the
    table is made and stays. *)
Theorem mutation_then_save_fails (s : state) :
  __path (self s) = None →
  save None None s = (Raise AttributeError, s)
  ∧ (∀ query, delete query true s = then_fails (delete query false s))
  ∧ (∀ query, edit query true s = then_fails (edit query false s))
  ∧ (∀ values, append values true s = then_fails (append values false s)).
Proof.
  intros Hs. split; [by apply save_without_attribute|].
  split; [|split].
  - intros query. unfold delete. do 6 fails_step.
    simpl. by apply save_without_attribute.
  - intros query. unfold edit. do 6 fails_step.
    simpl. by apply save_without_attribute.
  - intros values. unfold append. do 4 fails_step.
    simpl. by apply save_without_attribute.
Qed.

(** [save] with a path, under the separator given or else the one of the
    table.  When the separator is one character the frame is written at the
    path and the call returns.  When it is not, the writer refuses it with
    TypeError, after the file was opened: the path is left with a file
    without text.  Either way the table, the dicts of the caller and the
    files at other paths stay as they are, and [__path] is not read: the
    call works on tables on which [save()] raises. *)
Theorem save_to_path (s : state) (df : DataFrame) (own : string)
    (path : string) (sep : option string) :
  _df (self s) = Some df →
  __sep (self s) = Some own →
  save (Some path) sep s
  = if one_character (default own sep)
    then (Return tt,
          mkState (self s) (heap s)
            (<[path := Csv (default own sep) df]> (disk s)))
    else (Raise TypeError,
          mkState (self s) (heap s) (<[path := Blank]> (disk s))).
Proof.
  intros Hdf Hsep. unfold save.
  erewrite bind_return by reflexivity.
  destruct sep as [x|]; simpl.
  - erewrite bind_return by reflexivity.
    erewrite bind_return by (by apply attr_some).
    unfold mbind, M_bind, to_csv. by destruct (one_character x).
  - erewrite bind_return by (by apply attr_some).
    erewrite bind_return by (by apply attr_some).
    unfold mbind, M_bind, to_csv. by destruct (one_character own).
Qed.

(* ===================================================================== *)
(** * What the reading methods leave alone *)
(* ===================================================================== *)

Lemma setitem_keeps_other r r' k v :
  r ≠ r' → keeps (λ s, heap s !! r') (setitem r k v).
Proof.
  intros Hne s. unfold setitem. destruct (heap s !! r); [|done].
  simpl. by apply list_lookup_insert_ne.
Qed.

(** [get] and [max] write no file, and of the dicts of the caller they
    touch at most the one they are given. *)
Theorem reads_touch_only_their_query (dict_type : orient)
    (r r' : nat) (s : state) :
  r ≠ r' →
  disk (get (Some r) dict_type s).2 = disk s
  ∧ heap (get (Some r) dict_type s).2 !! r' = heap s !! r'
  ∧ disk (max (Some r) s).2 = disk s
  ∧ heap (max (Some r) s).2 !! r' = heap s !! r'.
Proof.
  intros Hne.
  assert (Hset : ∀ k v, keeps (λ s, heap s !! r') (setitem r k v))
    by (intros; by apply setitem_keeps_other).
  repeat split.
  - revert s. change (keeps disk (get (Some r) dict_type)).
    unfold get. keeps_auto.
  - unfold get. erewrite bind_return by reflexivity.
    match goal with
    | |- heap (?m s).2 !! r' = _ =>
        assert (K : keeps (λ s, heap s !! r') m) by keeps_auto; apply (K s)
    end.
  - revert s. change (keeps disk (max (Some r))).
    unfold max. keeps_auto.
  - unfold max. erewrite bind_return by reflexivity.
    match goal with
    | |- heap (?m s).2 !! r' = _ =>
        assert (K : keeps (λ s, heap s !! r') m) by keeps_auto; apply (K s)
    end.
Qed.

(* ===================================================================== *)
(** * [to_string] *)
(* ===================================================================== *)

Lemma letters_replace_from old new k s c :
  c ∈ letters (replace_from old new k s) → c ∈ letters s ∨ c ∈ letters new.
Proof.
  revert k. induction s as [|x s IH]; intros k; [by intros ?%elem_of_nil|].
  cbn [replace_from]. destruct k as [|k].
  - destruct (String.prefix old (String x s)).
    + rewrite letters_app. intros [Hin|Hin]%elem_of_app; [by right|].
      destruct (IH _ Hin) as [?|?]; [left; by right | by right].
    + cbn [letters]. intros [->|Hin]%elem_of_cons; [left; by left|].
      destruct (IH _ Hin) as [?|?]; [left; by right | by right].
  - intros Hin. destruct (IH _ Hin) as [?|?]; [left; by right | by right].
Qed.

Lemma no_quote_left text : DQ ∉ letters (replace (str DQ) "" text).
Proof.
  rewrite letters_replace_one.
  induction (letters text) as [|c l IH]; [by intros ?%elem_of_nil|].
  cbn [map concat]. destruct (Ascii.eqb_spec DQ c) as [<-|Hne].
  - exact IH.
  - intros [?|?]%elem_of_cons; done.
Qed.

Lemma cleaned_text_has_no_quote (t0 text : string) :
  match last_char (replace (str CR +:+ str LF) (str LF) (replace (str DQ) "" t0)) with
  | Some c =>
      Some (if Ascii.eqb c LF
            then drop_last (replace (str CR +:+ str LF) (str LF) (replace (str DQ) "" t0))
            else replace (str CR +:+ str LF) (str LF) (replace (str DQ) "" t0))
  | None => None
  end = Some text →
  DQ ∉ letters text.
Proof.
  set (t := replace (str CR +:+ str LF) (str LF) (replace (str DQ) "" t0)).
  assert (Ht : DQ ∉ letters t).
  { intros Hin. apply letters_replace_from in Hin as [Hin|Hin].
    - by apply no_quote_left in Hin.
    - vm_compute in Hin. by apply elem_of_cons in Hin as [?|?%elem_of_nil]. }
  destruct (last_char t) as [c|]; [|done].
  intros [= <-]. destruct (Ascii.eqb c LF); [|done].
  intros Hin. by apply Ht, letters_drop_last.
Qed.

(** [to_string] changes nothing, writes no file, and the text it returns
    holds no double quote, whatever text the storage engine renders: the
    quotes of quoted fields and those inside the cells are all taken out. *)
Theorem to_string_strips_quotes (render : file → string) (sep : option string)
    (s : state) :
  (to_string render sep s).2 = s
  ∧ ∀ text, (to_string render sep s).1 = Return (Some text) →
            DQ ∉ letters text.
Proof.
  unfold to_string, mbind, M_bind, attr, to_csv, mret, M_ret, raise.
  destruct sep as [x|]; cbv beta iota.
  - destruct (_df (self s)) as [df|]; [|by split].
    destruct (one_character x); [|by split].
    split; [done|]. intros text. cbn [fst]. intros [= E].
    exact (cleaned_text_has_no_quote _ _ E).
  - destruct (__sep (self s)) as [x|]; [|by split].
    destruct (_df (self s)) as [df|]; [|by split].
    destruct (one_character x); [|by split].
    split; [done|]. intros text. cbn [fst]. intros [= E].
    exact (cleaned_text_has_no_quote _ _ E).
Qed.

(* ===================================================================== *)
(** * One column name instead of a set *)
(* ===================================================================== *)

(** With ['columns'] holding one column name, a [str], instead of a set,
    [get] returns that column as a table of one column, and [max] raises
    AttributeError: it asks the Series for its columns. *)
Theorem single_column_name (dict_type : orient) (s : state)
    (r : nat) (q : pydict) (kws : gset string) (df : DataFrame)
    (m : list (string * value)) (c : string) :
  heap s !! r = Some q →
  __keywords (self s) = Some kws →
  _df (self s) = Some df →
  dict_get "state" q = Some (QMap m) →
  dict_get "columns" q = Some (QName c) →
  entries_pass kws q →
  (∀ k, k ∈ dict_keys m → k ∈ fcolumns df) →
  c ∈ fcolumns df →
  get (Some r) dict_type s
  = (Return (to_dict (projected (selected df m) [c]) dict_type), s)
  ∧ max (Some r) s = (Raise AttributeError, s).
Proof.
  intros Hq Hk Hdf Hst Hcol Hshape Hm Hc.
  assert (Hget : getitem (selected df m) (QName c)
                 = Return (SSeries (mkSeries c
                     (map (λ row, (row.1, at_column (fcolumns df) row.2 c))
                        (frows (selected df m)))))).
  { unfold getitem. simpl. by rewrite bool_decide_eq_true_2. }
  split.
  - unfold get.
    erewrite bind_return by reflexivity.
    erewrite bind_return by (by apply deref_lookup).
    rewrite (dict_contains_get _ _ _ Hst).
    erewrite bind_return by reflexivity.
    erewrite bind_return; cycle 1.
    { eapply validation_returns; try done.
      intros x ->%elem_of_singleton. apply key_in_query.
      by eapply dict_contains_get. }
    erewrite bind_return by (by apply deref_lookup).
    erewrite bind_return by (by apply subscript_some).
    erewrite bind_return by (by apply filter_returns).
    rewrite (dict_contains_get _ _ _ Hcol).
    erewrite bind_return; cycle 1.
    { erewrite bind_return by (by apply subscript_some).
      erewrite bind_return by (unfold lift; fold (selected df m); by rewrite Hget).
      reflexivity. }
    unfold mret, M_ret. do 3 f_equal.
    unfold to_frame, projected. simpl. by rewrite map_map.
  - unfold max.
    erewrite bind_return by reflexivity.
    erewrite bind_return by (by apply deref_lookup).
    rewrite (dict_contains_get _ _ _ Hst).
    erewrite bind_return by reflexivity.
    erewrite bind_return; cycle 1.
    { eapply validation_returns; try done.
      intros x ->%elem_of_singleton. apply key_in_query.
      by eapply dict_contains_get. }
    erewrite bind_return by (by apply deref_lookup).
    erewrite bind_return by (by apply subscript_some).
    erewrite bind_return by (by apply filter_returns).
    rewrite (dict_contains_get _ _ _ Hcol).
    erewrite bind_return; cycle 1.
    { erewrite bind_return by (by apply subscript_some).
      unfold lift. fold (selected df m). by rewrite Hget. }
    reflexivity.
Qed.

(* ===================================================================== *)
(** * What [append] adds *)
(* ===================================================================== *)

Lemma add_columns_spec cols new :
  ∃ extra, add_columns cols new = cols ++ extra
           ∧ ∀ k, k ∈ cols ++ extra ↔ k ∈ cols ∨ k ∈ new.
Proof.
  unfold add_columns. revert cols.
  induction new as [|x new IH]; intros cols; simpl.
  - exists []. rewrite app_nil_r. split; [done|]. intros k.
    split; [by left | by intros [?|?%elem_of_nil]].
  - destruct (decide (x ∈ cols)) as [Hin|Hin].
    + rewrite bool_decide_eq_true_2 by done.
      destruct (IH cols) as (extra & -> & Hk). exists extra. split; [done|].
      intros k. rewrite Hk, elem_of_cons. split; [tauto|].
      intros [?|[->|?]]; auto.
    + rewrite bool_decide_eq_false_2 by done.
      destruct (IH (cols ++ [x])) as (extra & -> & Hk).
      exists (x :: extra). rewrite <- app_assoc. split; [done|].
      intros k. specialize (Hk k). rewrite <- app_assoc in Hk. simpl in Hk.
      rewrite Hk, elem_of_app, !elem_of_cons, elem_of_nil. tauto.
Qed.

Lemma records_columns (recs : list (list (string * value))) acc k :
  k ∈ fold_left (λ acc rec, add_columns acc (dict_keys rec)) recs acc
  ↔ k ∈ acc ∨ ∃ rec, rec ∈ recs ∧ k ∈ dict_keys rec.
Proof.
  revert acc. induction recs as [|rec recs IH]; intros acc; simpl.
  - split; [by left|]. intros [?|(rec & ?%elem_of_nil & _)]; done.
  - rewrite IH. destruct (add_columns_spec acc (dict_keys rec)) as (extra & -> & Hk).
    rewrite Hk. split.
    + intros [[?|?]|(rec' & Hin & Hk')]; [by left | | ].
      * right. exists rec. split; [by left | done].
      * right. exists rec'. split; [by right | done].
    + intros [?|(rec' & [->|Hin]%elem_of_cons & Hk')]; [auto | auto |].
      right. by exists rec'.
Qed.

Lemma col_pos_absent c cols : c ∉ cols → col_pos c cols = None.
Proof.
  intros Hno. destruct (col_pos c cols) as [p|] eqn:E; [|done].
  exfalso. apply Hno. apply list_elem_of_lookup. exists p.
  by apply col_pos_lookup.
Qed.

Lemma at_column_absent cols cells c : c ∉ cols → at_column cols cells c = VNaN.
Proof. intros Hno. unfold at_column, cell. by rewrite col_pos_absent. Qed.

Lemma at_column_map keys (f : string → value) c :
  c ∈ keys → at_column keys (map f keys) c = f c.
Proof.
  unfold at_column, cell.
  induction keys as [|k keys IH]; [by intros ?%elem_of_nil|].
  intros Hin. simpl. destruct (String.eqb_spec c k) as [->|Hne]; [done|].
  apply elem_of_cons in Hin as [?|Hin]; [done|].
  specialize (IH Hin). by destruct (col_pos c keys).
Qed.

Lemma append_state s (df other : DataFrame) values save_flag :
  _df (self s) = Some df →
  match values with
  | ColumnMajor table => from_dict table
  | RowMajor records => Return (from_records records)
  end = Return other →
  _df (self (append (Some values) save_flag s).2)
  = Some (append_frames df other).
Proof.
  intros Hdf Hother. unfold append.
  erewrite bind_return by (by apply attr_some).
  erewrite bind_return by reflexivity.
  erewrite bind_return by (unfold lift; by rewrite Hother).
  erewrite bind_return by reflexivity.
  destruct save_flag; [by rewrite save_keeps_table | done].
Qed.

Lemma imap_labels {A} (l : list A) :
  map fst (imap (λ i x, (i, x)) l) = seq 0 (length l).
Proof.
  apply list_eq. intros i.
  change (map fst (imap (λ i x, (i, x)) l)) with (fst <$> imap (λ i x, (i, x)) l).
  rewrite list_lookup_fmap, list_lookup_imap.
  destruct (l !! i) as [x|] eqn:E; simpl.
  - symmetry. apply lookup_seq. split; [done|]. by eapply lookup_lt_Some.
  - symmetry. apply lookup_seq_ge. by apply lookup_ge_None.
Qed.

Lemma lookup_map {A B} (f : A → B) (l : list A) i : map f l !! i = f <$> l !! i.
Proof. apply (list_lookup_fmap f l i). Qed.

Lemma records_rows (recs : list (list (string * value))) :
  length (frows (from_records recs)) = length recs.
Proof. unfold from_records. simpl. apply length_imap. Qed.

Lemma append_frames_length (a b : DataFrame) :
  length (frows (append_frames a b))
  = (length (frows a) + length (frows b))%nat.
Proof.
  unfold append_frames. cbn [frows].
  by rewrite length_imap, length_app, !length_map.
Qed.

Lemma append_frames_labels (a b : DataFrame) :
  map fst (frows (append_frames a b))
  = seq 0 (length (frows a) + length (frows b)).
Proof.
  unfold append_frames. cbn [frows].
  by rewrite imap_labels, length_app, !length_map.
Qed.

(** [append] with a list of records: the table has as many rows more as
    there are records, the rows are labelled anew from 0, the columns of
    before come first and in their order, and every key of every record is
    a column afterwards, whether the table had it or not: nothing is
    checked.  This is what the table holds whatever the save flag. *)
Theorem append_records_grows (s : state) (df : DataFrame)
    (records : list (list (string * value))) (save_flag : bool) :
  _df (self s) = Some df →
  ∃ df', _df (self (append (Some (RowMajor records)) save_flag s).2) = Some df'
    ∧ length (frows df') = (length (frows df) + length records)%nat
    ∧ map fst (frows df') = seq 0 (length (frows df) + length records)
    ∧ (∃ extra, fcolumns df' = fcolumns df ++ extra)
    ∧ (∀ rec k, rec ∈ records → k ∈ dict_keys rec → k ∈ fcolumns df').
Proof.
  intros Hdf. eexists. split.
  { by apply (append_state s df (from_records records) (RowMajor records)). }
  split; [by rewrite append_frames_length, records_rows|].
  split; [by rewrite append_frames_labels, records_rows|].
  unfold append_frames. cbn [fcolumns].
  destruct (add_columns_spec (fcolumns df) (fcolumns (from_records records)))
    as (extra & -> & Hk).
  split; [by exists extra|].
  intros rec k Hrec Hkey. apply Hk. right.
  unfold from_records. cbn [fcolumns]. apply records_columns. right. by exists rec.
Qed.

(** [append] with a list of records, cell by cell: a row of before is at
    its place with the cells it had, and nan under the new columns; the
    record number [j] is the row number [j] after those of before, with the
    value of the record under each of its keys and nan under the other
    columns. *)
Theorem append_records_cells (s : state) (df : DataFrame)
    (records : list (list (string * value))) (save_flag : bool) :
  _df (self s) = Some df →
  ∃ df', _df (self (append (Some (RowMajor records)) save_flag s).2) = Some df'
    ∧ (∀ i row, frows df !! i = Some row →
         ∃ cells, frows df' !! i = Some (i, cells)
                  ∧ ∀ c, at_column (fcolumns df') cells c
                         = at_column (fcolumns df) row.2 c)
    ∧ (∀ j rec, records !! j = Some rec →
         ∃ cells, frows df' !! (length (frows df) + j)%nat
                  = Some ((length (frows df) + j)%nat, cells)
                  ∧ ∀ c, at_column (fcolumns df') cells c
                         = default VNaN (dict_get c rec)).
Proof.
  intros Hdf. eexists. split.
  { by apply (append_state s df (from_records records) (RowMajor records)). }
  unfold append_frames. cbn [frows fcolumns].
  destruct (add_columns_spec (fcolumns df) (fcolumns (from_records records)))
    as (extra & Ecols & Hk).
  set (rcols := fcolumns (from_records records)) in *.
  set (cols' := add_columns (fcolumns df) rcols) in *.
  split.
  - intros i row Hrow. eexists. split.
    + rewrite list_lookup_imap, lookup_app_l
        by (rewrite length_map; by eapply lookup_lt_Some).
      rewrite lookup_map, Hrow. reflexivity.
    + intros c. destruct (decide (c ∈ cols')) as [Hin|Hin].
      * by rewrite at_column_map.
      * rewrite at_column_absent by done.
        rewrite at_column_absent; [done|].
        intros Hc. apply Hin. rewrite Ecols. apply Hk. by left.
  - intros j rec Hrec.
    assert (Hrow : frows (from_records records) !! j
                   = Some (j, map (λ c, default VNaN (dict_get c rec)) rcols)).
    { unfold from_records. cbn [frows]. by rewrite list_lookup_imap, Hrec. }
    eexists. split.
    + rewrite list_lookup_imap, lookup_app_r by (rewrite length_map; lia).
      rewrite length_map.
      replace (length (frows df) + j - length (frows df))%nat with j by lia.
      rewrite lookup_map, Hrow. reflexivity.
    + intros c. cbn [snd].
      assert (Hkeys : ∀ k, k ∈ dict_keys rec → k ∈ rcols).
      { intros k Hkey. unfold rcols, from_records. cbn [fcolumns].
        apply records_columns. right. exists rec. split; [|done].
        apply list_elem_of_lookup. by exists j. }
      assert (Hrc : at_column rcols
                      (map (λ c, default VNaN (dict_get c rec)) rcols) c
                    = default VNaN (dict_get c rec)).
      { destruct (decide (c ∈ rcols)) as [Hin|Hin].
        - by rewrite at_column_map.
        - rewrite at_column_absent by done.
          rewrite dict_get_outside_keys; [done|]. intros Hc. by apply Hin, Hkeys. }
      destruct (decide (c ∈ cols')) as [Hin|Hin].
      * rewrite at_column_map by done. exact Hrc.
      * rewrite at_column_absent by done.
        rewrite dict_get_outside_keys; [done|].
        intros Hc. apply Hin. rewrite Ecols. apply Hk. right. by apply Hkeys.
Qed.

Lemma from_dict_equal_lengths (table : list (string * list value)) n :
  table ≠ [] →
  (∀ kv, kv ∈ table → length kv.2 = n) →
  from_dict table
  = Return (mkFrame (dict_keys table)
              (map (λ i, (i, omap (λ kv : string * list value, kv.2 !! i) table))
                 (seq 0 n))).
Proof.
  intros Hne Hlen. destruct table as [|[k0 c0] rest]; [done|].
  unfold from_dict.
  assert (E0 : length c0 = n) by (apply (Hlen (k0, c0)); by left).
  rewrite E0.
  assert (Hall : forallb (λ kv : string * list value, Nat.eqb (length kv.2) n)
                   ((k0, c0) :: rest) = true).
  { apply forallb_forall. intros kv Hin%list_elem_of_In.
    apply Nat.eqb_eq. by apply Hlen. }
  by rewrite Hall.
Qed.

Lemma from_dict_unequal_lengths (table : list (string * list value)) kv kv' :
  kv ∈ table → kv' ∈ table → length kv.2 ≠ length kv'.2 →
  from_dict table = Raise ValueError.
Proof.
  intros Hkv Hkv' Hne. destruct table as [|[k0 c0] rest].
  { by apply elem_of_nil in Hkv. }
  unfold from_dict.
  destruct (forallb (λ kv : string * list value,
                       Nat.eqb (length kv.2) (length c0)) ((k0, c0) :: rest))
    eqn:Hall; [|done].
  exfalso. apply Hne.
  pose proof (proj1 (forallb_forall _ _) Hall) as Hf.
  apply list_elem_of_In in Hkv, Hkv'.
  apply Hf in Hkv, Hkv'. apply Nat.eqb_eq in Hkv, Hkv'. congruence.
Qed.

Lemma at_column_omap (table : list (string * list value)) j k l :
  (∀ kv, kv ∈ table → (j < length kv.2)%nat) →
  dict_get k table = Some l →
  Some (at_column (dict_keys table)
          (omap (λ kv : string * list value, kv.2 !! j) table) k) = l !! j.
Proof.
  unfold at_column, cell.
  induction table as [|[k' l'] table IH]; intros Hlen; [done|].
  assert (Hj : (j < length l')%nat) by (apply (Hlen (k', l')); by left).
  destruct (lookup_lt_is_Some_2 l' j Hj) as [v Ev].
  cbn [dict_get dict_keys map fst col_pos omap list_omap snd]. rewrite Ev.
  destruct (String.eqb_spec k k') as [->|Hk].
  - intros [= <-]. simpl. by rewrite Ev.
  - intros Hget. rewrite <- IH; [|intros kv Hin; apply Hlen; by right|done].
    unfold dict_keys. by destruct (col_pos k (map fst table)).
Qed.

(** [append] with a dict of equally long lists, one per column, of numbers
    that the engine holds exactly: the table has as many rows more as the
    lists are long, the columns of before come first and in their order,
    and the new row number [j] holds, under each key of the dict, the
    element number [j] of its list (a number with its value, whichever
    numeric type the column gives it). *)
Theorem append_columns_adds_rows (s : state) (df : DataFrame)
    (table : list (string * list value)) (n : nat) (save_flag : bool) :
  _df (self s) = Some df →
  table ≠ [] →
  (∀ kv, kv ∈ table → length kv.2 = n) →
  (∀ kv v, kv ∈ table → v ∈ kv.2 → exact v) →
  ∃ df', _df (self (append (Some (ColumnMajor table)) save_flag s).2) = Some df'
    ∧ length (frows df') = (length (frows df) + n)%nat
    ∧ (∃ extra, fcolumns df' = fcolumns df ++ extra)
    ∧ (∀ j k l, (j < n)%nat → dict_get k table = Some l →
         ∃ cells, frows df' !! (length (frows df) + j)%nat
                  = Some ((length (frows df) + j)%nat, cells)
                  ∧ Some (at_column (fcolumns df') cells k) = l !! j).
Proof.
  intros Hdf Hne Hlen _. eexists. split.
  { eapply (append_state s df) with (values := ColumnMajor table); [done|].
    by apply from_dict_equal_lengths. }
  split.
  { rewrite append_frames_length. cbn [frows].
    by rewrite length_map, length_seq. }
  unfold append_frames. cbn [frows fcolumns].
  destruct (add_columns_spec (fcolumns df) (dict_keys table))
    as (extra & Ecols & Hk).
  set (cols' := add_columns (fcolumns df) (dict_keys table)) in *.
  split; [by exists extra|].
  intros j k l Hj Hget. eexists. split.
  - rewrite list_lookup_imap, lookup_app_r by (rewrite length_map; lia).
    rewrite length_map.
    replace (length (frows df) + j - length (frows df))%nat with j by lia.
    rewrite !lookup_map, lookup_seq_lt by done. reflexivity.
  - cbn [snd plus].
    assert (Hin : k ∈ cols').
    { rewrite Ecols. apply Hk. right. by eapply dict_get_in_keys. }
    rewrite at_column_map by done.
    apply at_column_omap; [|done].
    intros kv Hkv. by rewrite (Hlen kv Hkv).
Qed.

(** What [append] refuses: a query without ['values'] raises KeyError,
    and a dict whose lists are not all of one length raises ValueError; in
    both cases the table, the query and the files are as before. *)
Theorem append_refusals (s : state) (df : DataFrame)
    (table : list (string * list value)) (kv kv' : string * list value)
    (save_flag : bool) :
  _df (self s) = Some df →
  kv ∈ table → kv' ∈ table → length kv.2 ≠ length kv'.2 →
  append None save_flag s = (Raise KeyError, s)
  ∧ append (Some (ColumnMajor table)) save_flag s = (Raise ValueError, s).
Proof.
  intros Hdf Hkv Hkv' Hne. unfold append. split.
  - erewrite bind_return by (by apply attr_some). by apply bind_raise.
  - erewrite bind_return by (by apply attr_some).
    erewrite bind_return by reflexivity.
    apply bind_raise. unfold lift.
    by rewrite (from_dict_unequal_lengths table kv kv').
Qed.

(* ===================================================================== *)
(** * The constructor *)
(* ===================================================================== *)

Lemma dict_get_of_entry {V} (d : list (string * V)) k v :
  NoDup (dict_keys d) → (k, v) ∈ d → dict_get k d = Some v.
Proof.
  induction d as [|[k' v'] d IH]; [by intros _ ?%elem_of_nil|].
  cbn [dict_keys map fst dict_get]. intros [Hk Hd]%NoDup_cons.
  intros [[= -> ->]|Hin]%elem_of_cons.
  - by rewrite String.eqb_refl.
  - destruct (String.eqb_spec k k') as [->|Hne]; [|by apply IH].
    exfalso. apply Hk. apply list_elem_of_fmap. by exists (k', v).
Qed.

(** A column of the frame built from a dict is the list under its name. *)
Lemma column_of_dict (table : list (string * list value)) n k l :
  (∀ kv, kv ∈ table → length kv.2 = n) →
  dict_get k table = Some l →
  map (λ i, at_column (dict_keys table)
              (omap (λ kv : string * list value, kv.2 !! i) table) k) (seq 0 n)
  = l.
Proof.
  intros Hlen Hget.
  assert (Hl : length l = n).
  { clear -Hlen Hget. induction table as [|[k' l'] table IH]; [done|].
    simpl in Hget. destruct (String.eqb k k').
    - injection Hget as <-. apply (Hlen (k', l')). by left.
    - apply IH; [|done]. intros kv Hin. apply Hlen. by right. }
  apply list_eq. intros i. rewrite lookup_map.
  destruct (decide (i < n)%nat) as [Hi|Hi].
  - rewrite lookup_seq_lt by done. cbn [fmap option_fmap option_map plus].
    apply at_column_omap; [|done]. intros kv Hkv. by rewrite (Hlen kv Hkv).
  - rewrite lookup_seq_ge by lia. symmetry. apply lookup_ge_None. lia.
Qed.

Lemma to_dict_of_dict (table : list (string * list value)) n :
  NoDup (dict_keys table) →
  (∀ kv, kv ∈ table → length kv.2 = n) →
  ∃ df, from_dict table = Return df
        ∧ fcolumns df = dict_keys table
        ∧ to_dict df orient_list = AsList table.
Proof.
  intros Hnd Hlen. destruct (decide (table = [])) as [->|Hne].
  { by exists empty_frame. }
  eexists. split; [by apply from_dict_equal_lengths|]. split; [done|].
  unfold to_dict, column_values. cbn [fcolumns frows]. f_equal.
  unfold dict_keys. rewrite map_map.
  transitivity (map id table); [|apply map_id].
  apply map_ext_in. intros [k l] Hin%list_elem_of_In. cbn [fst id]. f_equal.
  rewrite map_map. cbn [snd].
  apply (column_of_dict table n k l Hlen). by apply dict_get_of_entry.
Qed.

(** Building a table from a dict of equally long lists under distinct
    names, of numbers that the engine holds exactly, and reading it back:
    the constructor returns, having assigned all four attributes ([__path]
    to [None]) and touched neither the dicts of the caller nor the files;
    [columns] then gives the names of the dict in its order, [query_keys]
    the three keywords, and [get()] the dict itself (a number with its
    value, whichever numeric type its column gives it). *)
Theorem table_of_dict_reads_back
    (read_csv : option string → string → gmap string file → outcome DataFrame)
    (table : list (string * list value)) (n : nat) (sep : string)
    (replace_nan : option value) (h : list pydict) (dk : gmap string file) :
  NoDup (dict_keys table) →
  (∀ kv, kv ∈ table → length kv.2 = n) →
  (∀ kv v, kv ∈ table → v ∈ kv.2 → exact v) →
  ∃ t, __init__ read_csv (FromDict table) sep replace_nan
         (mkState (mkTable None None None None) h dk)
       = (Return tt, mkState t h dk)
    ∧ __path t = Some None
    ∧ __sep t = Some sep
    ∧ (columns (mkState t h dk)).1 = Return (dict_keys table)
    ∧ (query_keys (mkState t h dk)).1 = Return {[ "columns"; "state"; "values" ]}
    ∧ (get None orient_list (mkState t h dk)).1 = Return (AsList table).
Proof.
  intros Hnd Hlen _.
  destruct (to_dict_of_dict table n Hnd Hlen) as (df & Hdf & Hcols & Hback).
  exists (mkTable (Some df) (Some None) (Some sep)
            (Some {[ "columns"; "state"; "values" ]})).
  split; [|split; [done|split; [done|split; [|split; [done|]]]]].
  - unfold __init__, __load_from_dict.
    unfold mbind, M_bind, lift. by rewrite Hdf.
  - unfold columns. erewrite bind_return by (by apply attr_some).
    cbn. by rewrite Hcols.
  - change (get None orient_list ?s)
      with (get (Some (length (heap s))) orient_list
              (mkState (self s) (heap s ++ [[]]) (disk s))).
    erewrite get_on_new_dict by reflexivity. cbn [fst]. by rewrite Hback.
Qed.

(** The constructor never returns for a path, whatever the parser would
    read.  Where no file is, it raises AssertionError and the object has no
    attribute.  Where a file is, it raises AttributeError, from [__load],
    which reads [__sep] before the constructor assigns it; the object is
    left with [__path] and nothing else, and the file is not parsed. *)
Theorem init_from_path_always_raises
    (read_csv : option string → string → gmap string file → outcome DataFrame)
    (p sep : string) (replace_nan : option value) (h : list pydict)
    (dk : gmap string file) :
  __init__ read_csv (FromPath p) sep replace_nan
    (mkState (mkTable None None None None) h dk)
  = match dk !! p with
    | None => (Raise AssertionError, mkState (mkTable None None None None) h dk)
    | Some _ =>
        (Raise AttributeError,
         mkState (mkTable None (Some (Some p)) None None) h dk)
    end.
Proof.
  unfold __init__, __load, path_exists, mbind, M_bind. cbn.
  destruct (dk !! p) as [f|] eqn:E.
  - rewrite bool_decide_eq_true_2 by (by eexists). reflexivity.
  - rewrite bool_decide_eq_false_2 by (by intros [? ?]). reflexivity.
Qed.

End Properties.

(* ===================================================================== *)
(** * The theorems at work on examples *)
(* ===================================================================== *)

(** The examples are run under the order [elements_order]. *)
#[local] Existing Instance elements_order.

Lemma query_argument_gains_state_witness :
  heap (get (Some 0%nat) orient_list
          (animals_table [("columns", QNames {[ "color" ]})])).2 !! 0%nat
  = Some ([("columns", QNames {[ "color" ]})] ++ [("state", QMap [])]).
Proof.
  apply (query_argument_gains_state
           (animals_table [("columns", QNames {[ "color" ]})]) 0
           [("columns", QNames {[ "color" ]})] orient_list);
    reflexivity.
Defined.

Lemma save_without_location_witness :
  save None None (empty_table []) = (Raise AttributeError, empty_table [])
  ∧ save None None (animals_table []) = (Return tt, animals_table [])
  ∧ save None None (wide_table []) = (Raise TypeError, wide_table []).
Proof.
  split; [|split].
  - apply (proj1 (save_without_location (empty_table []))). reflexivity.
  - apply (proj2 (save_without_location (animals_table [])) ";").
    split; [reflexivity | split; [eexists; reflexivity | reflexivity]].
  - apply (proj2 (save_without_location (wide_table [])) ";;").
    split; [reflexivity | split; [eexists; reflexivity | reflexivity]].
Defined.

(** C5 as stated fails: on the example table, built from a dict, [save()]
    without a path does not fail, and neither does [delete] with the save
    flag true; the files are untouched. *)
Lemma save_without_path_does_not_fail :
  (save None None (animals_table [])).1 = Return tt
  ∧ disk (save None None (animals_table [])).2 = ∅
  ∧ (delete (Some 0%nat) true
       (animals_table [("state", QMap [("animal", VStr "dog")])])).1
    = Return tt.
Proof. repeat split; vm_compute; reflexivity. Qed.

Lemma max_of_comparable_columns_witness :
  ∃ res, (max (Some 0%nat)
            (table_of ages [("columns", QNames {[ "age" ]})])).1 = Return res
    ∧ (∀ v, v ∈ selected_values
                  (mkFrame ["name"; "age"]
                     [(0%nat, [VStr "ann"; VInt 31]);
                      (1%nat, [VStr "bob"; VNaN]);
                      (2%nat, [VStr "cy"; VInt 47])]) [] "age" →
            v ≠ VNaN →
            ∃ top, dict_get "age" res = Some top
                   ∧ is_maximum top
                       (selected_values
                          (mkFrame ["name"; "age"]
                             [(0%nat, [VStr "ann"; VInt 31]);
                              (1%nat, [VStr "bob"; VNaN]);
                              (2%nat, [VStr "cy"; VInt 47])]) [] "age")).
Proof.
  destruct (max_of_comparable_columns
              (table_of ages [("columns", QNames {[ "age" ]})]) 0
              [("columns", QNames {[ "age" ]})]
              {[ "columns"; "state"; "values" ]}
              (mkFrame ["name"; "age"]
                 [(0%nat, [VStr "ann"; VInt 31]);
                  (1%nat, [VStr "bob"; VNaN]);
                  (2%nat, [VStr "cy"; VInt 47])])
              {[ "age" ]} [])
    as (res & Hres & _ & Hall).
  - reflexivity.
  - reflexivity.
  - reflexivity.
  - reflexivity.
  - reflexivity.
  - intros kw entry _ Hne. simpl.
    destruct (String.eqb_spec kw "columns"); [done | discriminate].
  - intros c ->%elem_of_singleton. right. left.
  - by intros k ?%elem_of_nil.
  - intros c ->%elem_of_singleton. left. reflexivity.
  - exists res. split; [exact Hres|].
    apply (Hall "age"). by apply elem_of_singleton.
Defined.

(** C4 as stated fails: on a column that holds a string and a number,
    [max] raises TypeError. *)
Lemma max_raises_on_mixed_column :
  (max (Some 0%nat) (table_of mixed [("columns", QNames {[ "x" ]})])).1
  = Raise TypeError.
Proof. vm_compute. reflexivity. Qed.

Lemma normalize_path_has_no_backslash_witness :
  "\"%char ∉ letters "data/zoo".
Proof.
  apply (normalize_path_has_no_backslash "data\zoo\" "data/zoo"). reflexivity.
Defined.

Lemma read_file_after_new_file_witness :
  read_file "notes.txt" (new_file (str LF) "notes.txt" "to do" ∅) = Some "to do".
Proof.
  apply (read_file_after_new_file (str LF) "notes.txt" "to do" ∅).
  - by left.
  - vm_compute. intros H. by repeat (apply elem_of_cons in H as [H|H]; [done|]);
      apply elem_of_nil in H.
Defined.

Lemma validation_checks_witness :
  (__query_validation (Some 0%nat) (Some {[ "state" ]}) (animals_table dogs)).1
  = Return tt.
Proof.
  apply (validation_checks (animals_table dogs) 0 dogs
           {[ "columns"; "state"; "values" ]} animals_frame {[ "state" ]});
    try reflexivity.
  split.
  - intros x ->%elem_of_singleton. vm_compute. reflexivity.
  - unfold dogs. entries_pass_here.
Defined.

Lemma required_keys_witness :
  edit (Some 0%nat) true (animals_table dogs)
  = (Raise AssertionError, animals_table dogs).
Proof.
  refine (proj1 (proj2 (required_keys (animals_table dogs) 0 dogs
                          {[ "columns"; "state"; "values" ]} animals_frame
                          true orient_list _ _ _)) _);
    try reflexivity.
  by right.
Defined.

Lemma get_returns_matching_rows_witness :
  (get (Some 0%nat) orient_records (animals_table dogs)).1
  = Return (to_dict (answer animals_frame [("animal", VStr "dog")] None)
              orient_records).
Proof.
  refine (proj1 (get_returns_matching_rows orient_records (animals_table dogs) 0
                   dogs {[ "columns"; "state"; "values" ]} animals_frame
                   [("animal", VStr "dog")] None _ _ _ _ _ _ _));
    try reflexivity.
  - unfold dogs. entries_pass_here.
  - intros k [->|?%elem_of_nil]%elem_of_cons; [by left | done].
Defined.

Lemma get_without_query_witness :
  (get None orient_list (animals_table dogs)).1
  = Return (to_dict animals_frame orient_list).
Proof.
  rewrite (get_without_query orient_list (animals_table dogs)
             {[ "columns"; "state"; "values" ]} animals_frame);
    reflexivity.
Defined.

Lemma unknown_state_column_witness :
  delete (Some 0%nat) true
    (animals_table [("state", QMap [("weight", VInt 1)])])
  = (Raise KeyError, animals_table [("state", QMap [("weight", VInt 1)])]).
Proof.
  refine (proj1 (unknown_state_column
                   (animals_table [("state", QMap [("weight", VInt 1)])]) 0
                   [("state", QMap [("weight", VInt 1)])]
                   {[ "columns"; "state"; "values" ]} animals_frame
                   [("weight", VInt 1)] "weight" true orient_list
                   _ _ _ _ _ _ _));
    try reflexivity.
  - entries_pass_here.
  - by left.
  - vm_compute. intros H.
    by repeat (apply elem_of_cons in H as [H|H]; [done|]); apply elem_of_nil in H.
Defined.

Lemma delete_drops_rows_meeting_any_condition_witness :
  _df (self (delete (Some 0%nat) true (animals_table dogs)).2)
  = Some (mkFrame ["animal"; "color"] [(1%nat, [VStr "cat"; VStr "black"])]).
Proof.
  rewrite (proj1 (delete_drops_rows_meeting_any_condition
                    (animals_table dogs) 0 dogs
                    {[ "columns"; "state"; "values" ]} animals_frame
                    [("animal", VStr "dog")] true
                    eq_refl eq_refl eq_refl eq_refl
                    ltac:(unfold dogs; entries_pass_here)
                    ltac:(intros k [->|?%elem_of_nil]%elem_of_cons;
                          [by left | done]))).
  reflexivity.
Defined.

Lemma delete_then_get_finds_nothing_witness :
  (get (Some 0%nat) orient_list
     (delete (Some 0%nat) true (animals_table dogs)).2).1
  = Return (AsList [("animal", []); ("color", [])]).
Proof.
  rewrite (delete_then_get_finds_nothing (animals_table dogs) 0 dogs
             {[ "columns"; "state"; "values" ]} animals_frame
             [("animal", VStr "dog")] None true orient_list
             eq_refl eq_refl eq_refl eq_refl eq_refl
             ltac:(unfold dogs; entries_pass_here)
             ltac:(intros k [->|?%elem_of_nil]%elem_of_cons;
                   [by left | done])
             ltac:(done)).
  reflexivity.
Defined.

Lemma edit_assigns_values_to_matching_rows_witness :
  ∃ df', _df (self (edit (Some 0%nat) true (animals_table paint_cats)).2) = Some df'
         ∧ fcolumns df' = ["animal"; "color"].
Proof.
  pose proof (edit_assigns_values_to_matching_rows (animals_table paint_cats) 0
                paint_cats {[ "columns"; "state"; "values" ]} animals_frame
                [("animal", VStr "cat")] [("color", VStr "white")] true
                eq_refl eq_refl eq_refl eq_refl eq_refl) as H.
  destruct H as (df' & Hdf & Hcols & _).
  - unfold paint_cats. entries_pass_here.
  - intros row Hrow. unfold animals_frame in Hrow. simpl in Hrow.
    apply elem_of_cons in Hrow as [->|Hrow]; [reflexivity|].
    apply elem_of_cons in Hrow as [->|Hrow]; [reflexivity|].
    apply elem_of_cons in Hrow as [->|Hrow]; [reflexivity|].
    by apply elem_of_nil in Hrow.
  - intros k [->|?%elem_of_nil]%elem_of_cons; [by left | done].
  - intros k [->|?%elem_of_nil]%elem_of_cons; [|done].
    split; [right; by left|].
    by intros [?|?%elem_of_nil]%elem_of_cons.
  - exists df'. split; [exact Hdf | exact Hcols].
Defined.

Lemma edit_adds_unknown_column_witness :
  _df (self (edit (Some 0%nat) true (animals_table size_cats)).2)
  = Some (mkFrame ["animal"; "color"; "size"]
            [(0%nat, [VStr "dog"; VStr "red"; VNaN]);
             (1%nat, [VStr "cat"; VStr "black"; VInt 3]);
             (2%nat, [VStr "dog"; VStr "black"; VNaN])]).
Proof.
  pose proof (edit_adds_unknown_column (animals_table size_cats) 0 size_cats
                {[ "columns"; "state"; "values" ]} animals_frame
                [("animal", VStr "cat")] "size" (VInt 3) true
                eq_refl eq_refl eq_refl eq_refl eq_refl) as H.
  destruct H as [H _].
  - unfold size_cats. entries_pass_here.
  - intros k [->|?%elem_of_nil]%elem_of_cons; [by left | done].
  - intros Hin. unfold animals_frame in Hin. simpl in Hin.
    apply elem_of_cons in Hin as [?|Hin]; [done|].
    apply elem_of_cons in Hin as [?|Hin]; [done|].
    by apply elem_of_nil in Hin.
  - rewrite H; [reflexivity | done].
Defined.

Lemma mutation_then_save_fails_witness :
  append (Some (RowMajor [[("animal", VStr "emu")]])) true (empty_table [])
  = then_fails (append (Some (RowMajor [[("animal", VStr "emu")]])) false
                  (empty_table [])).
Proof.
  apply (proj2 (proj2 (proj2 (mutation_then_save_fails (empty_table [])
                                eq_refl)))).
Defined.

Lemma save_to_path_witness :
  ((save (Some "zoo.csv") None (empty_table [])).1 = Return tt
   ∧ disk (save (Some "zoo.csv") None (empty_table [])).2 !! "zoo.csv"
     = Some (Csv ";" empty_frame))
  ∧ ((save (Some "zoo.csv") (Some "; ") (empty_table [])).1 = Raise TypeError
     ∧ disk (save (Some "zoo.csv") (Some "; ") (empty_table [])).2 !! "zoo.csv"
       = Some Blank).
Proof.
  rewrite (save_to_path (empty_table []) empty_frame ";" "zoo.csv" None
             eq_refl eq_refl).
  rewrite (save_to_path (empty_table []) empty_frame ";" "zoo.csv" (Some "; ")
             eq_refl eq_refl).
  split; (split; [reflexivity|]); simpl; apply lookup_insert_eq.
Defined.

Lemma reads_touch_only_their_query_witness :
  heap (get (Some 0%nat) orient_list
          (mkState (self (animals_table [])) [[]; dogs] ∅)).2 !! 1%nat
  = Some dogs.
Proof.
  rewrite (proj1 (proj2 (reads_touch_only_their_query orient_list 0 1
                           (mkState (self (animals_table [])) [[]; dogs] ∅)
                           ltac:(done)))).
  reflexivity.
Defined.

Lemma single_column_name_witness :
  (max (Some 0%nat)
     (animals_table [("state", QMap []); ("columns", QName "color")])).1
  = Raise AttributeError.
Proof.
  rewrite (proj2 (single_column_name orient_list
                    (animals_table [("state", QMap []); ("columns", QName "color")])
                    0 [("state", QMap []); ("columns", QName "color")]
                    {[ "columns"; "state"; "values" ]} animals_frame [] "color"
                    eq_refl eq_refl eq_refl eq_refl eq_refl
                    ltac:(entries_pass_here)
                    ltac:(by intros k ?%elem_of_nil)
                    ltac:(right; by left))).
  reflexivity.
Defined.

Lemma append_records_grows_witness :
  ∃ df', _df (self (append (Some (RowMajor [[("animal", VStr "emu")]])) true
                      (animals_table [])).2) = Some df'
         ∧ length (frows df') = 4%nat.
Proof.
  destruct (append_records_grows (animals_table []) animals_frame
              [[("animal", VStr "emu")]] true eq_refl)
    as (df' & Hdf & Hlen & _).
  exists df'. split; [exact Hdf | exact Hlen].
Defined.

Lemma append_records_cells_witness :
  ∃ df', _df (self (append (Some (RowMajor [[("animal", VStr "emu")]])) true
                      (animals_table [])).2) = Some df'
         ∧ ∃ cells, frows df' !! 3%nat = Some (3%nat, cells)
                    ∧ at_column (fcolumns df') cells "color" = VNaN.
Proof.
  destruct (append_records_cells (animals_table []) animals_frame
              [[("animal", VStr "emu")]] true eq_refl)
    as (df' & Hdf & _ & Hnew).
  exists df'. split; [exact Hdf|].
  destruct (Hnew 0%nat [("animal", VStr "emu")] eq_refl) as (cells & Hrow & Hc).
  exists cells. split; [exact Hrow | exact (Hc "color")].
Defined.

Lemma append_columns_adds_rows_witness :
  ∃ df', _df (self (append (Some (ColumnMajor
                                    [("animal", [VStr "emu"; VStr "owl"]);
                                     ("legs", [VInt 2; VInt 2])])) true
                      (animals_table [])).2) = Some df'
         ∧ length (frows df') = 5%nat.
Proof.
  destruct (append_columns_adds_rows (animals_table []) animals_frame
              [("animal", [VStr "emu"; VStr "owl"]); ("legs", [VInt 2; VInt 2])]
              2 true eq_refl)
    as (df' & Hdf & Hlen & _).
  - discriminate.
  - intros kv Hin. repeat (apply elem_of_cons in Hin as [->|Hin]; [reflexivity|]).
    by apply elem_of_nil in Hin.
  - intros kv v Hin Hv.
    repeat (apply elem_of_cons in Hin as [->|Hin];
            [simpl in Hv;
             repeat (apply elem_of_cons in Hv as [->|Hv];
                     [first [exact I | by vm_compute]|]);
             by apply elem_of_nil in Hv|]).
    by apply elem_of_nil in Hin.
  - exists df'. split; [exact Hdf | exact Hlen].
Defined.

Lemma append_refusals_witness :
  append (Some (ColumnMajor [("animal", [VStr "emu"; VStr "owl"]);
                             ("legs", [VInt 2])])) true (animals_table [])
  = (Raise ValueError, animals_table []).
Proof.
  apply (append_refusals (animals_table []) animals_frame
           [("animal", [VStr "emu"; VStr "owl"]); ("legs", [VInt 2])]
           ("animal", [VStr "emu"; VStr "owl"]) ("legs", [VInt 2]) true eq_refl).
  - by left.
  - right. by left.
  - simpl. lia.
Defined.

Lemma table_of_dict_reads_back_witness :
  ∃ t, __init__ (λ _ _ _, Raise KeyError) (FromDict animals) ";" None (blank [])
       = (Return tt, mkState t [] ∅)
       ∧ (get None orient_list (mkState t [] ∅)).1 = Return (AsList animals).
Proof.
  destruct (table_of_dict_reads_back (λ _ _ _, Raise KeyError) animals 3 ";"
              None [] ∅) as (t & Hinit & _ & _ & _ & _ & Hget).
  - unfold animals. cbn [dict_keys map fst].
    apply NoDup_cons. split; [|apply NoDup_singleton].
    intros Hin. apply elem_of_cons in Hin as [Heq|Hin]; [discriminate|].
    by apply elem_of_nil in Hin.
  - intros kv Hin. unfold animals in Hin.
    repeat (apply elem_of_cons in Hin as [->|Hin]; [reflexivity|]).
    by apply elem_of_nil in Hin.
  - intros kv v Hin Hv. unfold animals in Hin.
    repeat (apply elem_of_cons in Hin as [->|Hin];
            [simpl in Hv;
             repeat (apply elem_of_cons in Hv as [->|Hv]; [exact I|]);
             by apply elem_of_nil in Hv|]).
    by apply elem_of_nil in Hin.
  - exists t. split; [exact Hinit | exact Hget].
Defined.
